(** * metalgpy: the expression algebra of [metalgpy/_expression.py]

    A shallow embedding of the expression graph: Python objects live in a
    heap addressed by their runtime identity, every method of the source
    is a function in a state-and-exception monad over that heap, and the
    recursion of the source (which follows references between objects and
    may therefore not terminate on a cyclic graph) is bounded by fuel.

    The file has two parts.  The first holds the model: values and the
    heap, attribute lookup, the operator registry and the operators of the
    concrete values, the variables, the [tree] traversal, [choices],
    [freeze], [evaluate], the copies and [sample].  A step that runs code
    of a wrapped object (the call of a [FunctionCallExpression], float
    arithmetic, the draws of [numpy] and [scipy.stats]) is not embedded:
    the run stops with [Abort External], or, for the draws, goes through a
    [library] given as a parameter.  The second part holds the properties. *)

From Stdlib Require Import ZArith QArith String List DecimalString DecimalZ.
From stdpp Require Import gmap strings list.

Set Warnings "-register-all".
Local Open Scope Z_scope.
Local Open Scope string_scope.

(** ** Values *)

(** The runtime identity of an object, [id(o)] in the source. *)
Definition addr := nat.

(** An object from outside the graph (a function, a class, an instance of a
    foreign class).  Only what [inspect] reports about it is recorded. *)
Record ext := Ext {
  ext_id : nat;
  ext_isclass : bool;      (* inspect.isclass *)
  ext_isfunction : bool;   (* inspect.isfunction *)
  ext_isbuiltin : bool;    (* inspect.isbuiltin *)
  ext_ismethod : bool;     (* inspect.ismethod *)
  ext_callable : bool      (* the object has a [__call__] attribute *)
}.

(** Python values.  Lists and dicts are held structurally; a float is held
    as the rational it denotes (NaN and the infinities are not represented);
    [VRef a] is a reference to the [Expression] object at address [a];
    [VAttr o n] is the attribute [n] of [o], held by the name it was read
    under (a bound method, a slot of the class). *)
Inductive value :=
| VNone
| VNotImplemented
| VBool (b : bool)
| VInt (z : Z)
| VFloat (q : Q)
| VStr (s : string)
| VList (l : list value)
| VDict (d : list (string * value))
| VExt (e : ext)
| VAttr (owner : value) (name : string)
| VRef (a : addr).

(** The concrete classes of the source. *)
Inductive cls :=
| BinaryExpression | UnaryExpression | FunctionCallExpression
| ExpressionItemAccess | ExpressionAttributeAccess
| ExpressionCallExpression | ObjectExpression
| List | Int | Float.

Definition cls_eqb (c d : cls) : bool :=
  match c, d with
  | BinaryExpression, BinaryExpression | UnaryExpression, UnaryExpression
  | FunctionCallExpression, FunctionCallExpression
  | ExpressionItemAccess, ExpressionItemAccess
  | ExpressionAttributeAccess, ExpressionAttributeAccess
  | ExpressionCallExpression, ExpressionCallExpression
  | ObjectExpression, ObjectExpression
  | List, List | Int, Int | Float, Float => true
  | _, _ => false
  end.

(** [issubclass(c, VarExpression)] *)
Definition is_var_cls (c : cls) : bool :=
  match c with List | Int | Float => true | _ => false end.

(** An object: its class and its [__dict__], in insertion order. *)
Record obj := Obj { ocls : cls; odict : list (string * value) }.

(** The mutable world: the heap of [Expression] objects and the class
    attribute [VarExpression.var_id]. *)
Record state := State { heap : list obj; var_counter : Z }.

(** What [__repr__] of a variable shows, kept structured. *)
Inductive rendering :=
| RValue (v : value)
| RVar (c : cls) (ident : value) (low high : value).

Inductive exn :=
| KeyError (k : string)
| IndexError
| TypeError
| AttributeError (name : string)
| AssertionError
| ZeroDivisionError
| InvalidChoice (who : rendering) (low high got : value)  (* ValueError of Int.freeze, Float.freeze *)
| InvalidIndex (item : value)                             (* ValueError of List._getitem *)
| NotImplementedError.

(** Why a run of the model stops without a Python result. *)
Inductive abort :=
| OutOfFuel      (* the recursion bound was reached *)
| Dangling       (* a reference to no object: impossible in Python *)
| External.      (* the step runs code of a wrapped object or of a library
                    that is not embedded *)

Inductive outcome (A : Type) :=
| Ok (a : A) (s : state)
| Raise (e : exn) (s : state)
| Abort (r : abort).
Arguments Ok {A} a s.
Arguments Raise {A} e s.
Arguments Abort {A} r.

(** ** The monad *)

Definition M (A : Type) : Type := state -> outcome A.

Definition ret {A} (a : A) : M A := fun s => Ok a s.

Definition bind {A B} (m : M A) (k : A -> M B) : M B :=
  fun s => match m s with
           | Ok a s' => k a s'
           | Raise e s' => Raise e s'
           | Abort r => Abort r
           end.

Definition raise {A} (e : exn) : M A := fun s => Raise e s.
Definition stop {A} (r : abort) : M A := fun _ => Abort r.
Definition get_state : M state := fun s => Ok s s.

Notation "'let*' x ':=' m 'in' k" := (bind m (fun x => k))
  (at level 10, x name, m at level 100, k at level 200).
Notation "m ';;' k" := (bind m (fun _ => k))
  (at level 100, k at level 200, right associativity).

Fixpoint mapM {A B} (f : A -> M B) (l : list A) : M (list B) :=
  match l with
  | nil => ret nil
  | x :: l' => let* y := f x in let* ys := mapM f l' in ret (y :: ys)
  end.

Fixpoint iterM {A} (f : A -> M unit) (l : list A) : M unit :=
  match l with
  | nil => ret tt
  | x :: l' => f x ;; iterM f l'
  end.

(** ** Dictionaries in insertion order *)

Fixpoint assoc {A} (k : string) (d : list (string * A)) : option A :=
  match d with
  | nil => None
  | (k', v) :: d' => if String.eqb k k' then Some v else assoc k d'
  end.

(** [d[k] = v]: an existing key keeps its place, a new one goes last. *)
Fixpoint assoc_set {A} (k : string) (v : A) (d : list (string * A))
  : list (string * A) :=
  match d with
  | nil => (k, v) :: nil
  | (k', v') :: d' =>
      if String.eqb k k' then (k, v) :: d' else (k', v') :: assoc_set k v d'
  end.

(** ** The heap *)

Definition get_obj (a : addr) : M obj :=
  fun s => match heap s !! a with
           | Some o => Ok o s
           | None => Abort Dangling
           end.

(** [cls.__new__(cls)] followed by the assignments of [__init__]. *)
Definition alloc (o : obj) : M addr :=
  fun s => Ok (length (heap s)) (State (heap s ++ o :: nil) (var_counter s)).

Definition set_dict (a : addr) (d : list (string * value)) : M unit :=
  fun s => match heap s !! a with
           | Some o => Ok tt (State (<[a := Obj (ocls o) d]> (heap s)) (var_counter s))
           | None => Abort Dangling
           end.

(** [self.k = v] *)
Definition setattr (a : addr) (k : string) (v : value) : M unit :=
  let* o := get_obj a in set_dict a (assoc_set k v (odict o)).

Definition class_of (s : state) (v : value) : option cls :=
  match v with
  | VRef a => ocls <$> heap s !! a
  | _ => None
  end.

(** [isinstance(v, Expression)]: the heap holds the expressions. *)
Definition isinstance_Expression (v : value) : bool :=
  match v with VRef _ => true | _ => false end.

(** [isinstance(v, VarExpression)] *)
Definition isinstance_VarExpression (s : state) (v : value) : bool :=
  match class_of s v with Some c => is_var_cls c | None => false end.

(** ** Node constructors *)

Definition new_BinaryExpression (left right : value) (operator : string) : M value :=
  let* a := alloc (Obj BinaryExpression
    (("left", left) :: ("right", right) :: ("operator", VStr operator) :: nil)) in
  ret (VRef a).

Definition new_UnaryExpression (operator : string) (x : value) : M value :=
  let* a := alloc (Obj UnaryExpression
    (("operator", VStr operator) :: ("x", x) :: nil)) in
  ret (VRef a).

Definition new_FunctionCallExpression (function_parent function : value)
    (args : list value) (kwargs : list (string * value)) : M value :=
  let* a := alloc (Obj FunctionCallExpression
    (("function_parent", function_parent) :: ("function", function)
     :: ("args", VList args) :: ("kwargs", VDict kwargs) :: nil)) in
  ret (VRef a).

Definition new_ExpressionItemAccess (expression item : value) : M value :=
  let* a := alloc (Obj ExpressionItemAccess
    (("expression", expression) :: ("item", item) :: nil)) in
  ret (VRef a).

Definition new_ExpressionAttributeAccess (expression : value) (name : string) : M value :=
  let* a := alloc (Obj ExpressionAttributeAccess
    (("expression", expression) :: ("name", VStr name) :: nil)) in
  ret (VRef a).

Definition new_ExpressionCallExpression (expression : value)
    (args : list value) (kwargs : list (string * value)) : M value :=
  let* a := alloc (Obj ExpressionCallExpression
    (("expression", expression) :: ("args", VList args)
     :: ("kwargs", VDict kwargs) :: nil)) in
  ret (VRef a).

Definition new_ObjectExpression (o : value) : M value :=
  let* a := alloc (Obj ObjectExpression (("_obj", o) :: nil)) in
  ret (VRef a).

(** ** Attribute lookup, [Expression.__getattribute__] *)

(** Names that resolve on the class rather than in the instance. *)
Definition Expression_members : list string :=
  "__add__" :: "__radd__" :: "__sub__" :: "__mul__" :: "__rmul__"
  :: "__matmul__" :: "__truediv__" :: "__floordiv__" :: "__mod__"
  :: "__lt__" :: "__le__" :: "__eq__" :: "__ne__" :: "__gt__" :: "__ge__"
  :: "__and__" :: "__xor__" :: "__or__"
  :: "__pos__" :: "__neg__" :: "__invert__"
  :: "__getitem__" :: "__getattribute__" :: "__call__"
  :: "choices" :: "freeze" :: "evaluate_children" :: "evaluate"
  :: "variables" :: "__copy__" :: "__deepcopy__" :: "clone"
  :: "__class__" :: "__dict__" :: "__doc__" :: "__module__" :: "__init__"
  :: "__new__" :: "__repr__" :: "__str__" :: "__hash__" :: "__format__"
  :: "__setattr__" :: "__delattr__" :: "__dir__" :: "__reduce__"
  :: "__reduce_ex__" :: "__sizeof__" :: "__weakref__"
  :: "__subclasshook__" :: "__init_subclass__" :: nil.

Definition class_members (c : cls) : list string :=
  match c with
  | FunctionCallExpression => "_evaluate" :: Expression_members
  | List => "sample" :: "_sample" :: "_getitem" :: "_length"
            :: "child_choices" :: Expression_members
  | Int | Float => "sample" :: "_sample" :: Expression_members
  | _ => Expression_members
  end.

Definition mem_string (k : string) (l : list string) : bool :=
  existsb (String.eqb k) l.

(** Every attribute but the property [id]: the instance dictionary, then
    the class attributes [value = None] and [var_id] of [VarExpression],
    then [__hash__], which is [None] since the class defines [__eq__], then
    the methods; a name found nowhere becomes a new
    [ExpressionAttributeAccess] node. *)
Definition getattr_plain (a : addr) (name : string) : M value :=
  let* o := get_obj a in
  match assoc name (odict o) with
  | Some v => ret v
  | None =>
      if is_var_cls (ocls o) && String.eqb name "value" then ret VNone
      else if is_var_cls (ocls o) && String.eqb name "var_id" then
        let* s := get_state in ret (VInt (var_counter s))
      else if String.eqb name "__hash__" then ret VNone
      else if mem_string name (class_members (ocls o)) then
        ret (VAttr (VRef a) name)
      else new_ExpressionAttributeAccess (VRef a) name
  end.

(** [bool(v)]; a node defines neither [__bool__] nor [__len__], and an
    object from outside the graph is taken to define neither. *)
Definition truthy (v : value) : bool :=
  match v with
  | VNone => false
  | VBool b => b
  | VInt z => negb (Z.eqb z 0)
  | VFloat q => negb (Qeq_bool q 0)
  | VStr s => negb (String.eqb s "")
  | VList l => match l with nil => false | _ => true end
  | VDict d => match d with nil => false | _ => true end
  | VNotImplemented | VExt _ | VAttr _ _ | VRef _ => true
  end.

(** [str(n)] for an integer *)
Definition str_of_int (z : Z) : string := NilZero.string_of_int (Z.to_int z).

(** The property [VarExpression.id]. *)
Definition VarExpression_id (a : addr) : M value :=
  let* n := getattr_plain a "_name" in
  if truthy n then ret n
  else
    let* i := getattr_plain a "var_id" in
    match i with
    | VInt z => ret (VStr (str_of_int z))
    | _ => stop External
    end.

(** [self.name]: the property [id] of a variable comes before the
    instance dictionary. *)
Definition getattr (a : addr) (name : string) : M value :=
  let* o := get_obj a in
  if is_var_cls (ocls o) && String.eqb name "id" then VarExpression_id a
  else getattr_plain a name.

(** A choice mapping is keyed by strings: [choice[k]]. *)
Definition choice_lookup (choice : gmap string value) (k : value) : M value :=
  match k with
  | VStr i => match choice !! i with
              | Some v => ret v
              | None => raise (KeyError i)
              end
  | _ => stop External
  end.

(** ** The operator symbol registry *)

Definition BIN_OPS_SYNTAX_2_ATTR : list (string * string) :=
  ("<", "__lt__") :: ("<=", "__le__") :: ("==", "__eq__") :: ("!=", "__ne__")
  :: (">", "__gt__") :: (">=", "__ge__")
  :: ("+", "__add__") :: ("-", "__sub__") :: ("*", "__mul__")
  :: ("@", "__matmul__") :: ("/", "__truediv__") :: ("//", "__floordiv__")
  :: ("%", "__mod__") :: ("**", "__pow__")
  :: ("and", "__and__") :: ("^", "__xor__") :: ("or", "__or__") :: nil.

Definition invert_table (t : list (string * string)) : list (string * string) :=
  map (fun kv => (snd kv, fst kv)) t.

Definition BIN_OPS_ATTR_2_SYNTAX : list (string * string) :=
  invert_table BIN_OPS_SYNTAX_2_ATTR.

Definition UNA_OPS_SYNTAX_2_ATTR : list (string * string) :=
  ("-", "__neg__") :: ("+", "__pos__") :: ("~", "__invert__") :: nil.

Definition UNA_OPS_ATTR_2_SYNTAX : list (string * string) :=
  invert_table UNA_OPS_SYNTAX_2_ATTR.

(** [table[k]] *)
Definition table_get (t : list (string * string)) (k : string) : M string :=
  match assoc k t with
  | Some v => ret v
  | None => raise (KeyError k)
  end.

(** ** Operator methods of the concrete values *)

Inductive binop :=
| op_lt | op_le | op_eq | op_ne | op_gt | op_ge
| op_add | op_sub | op_mul | op_matmul | op_truediv | op_floordiv | op_mod
| op_pow | op_and | op_xor | op_or.

Definition binop_of_attr (attr : string) : option binop :=
  assoc attr
    (("__lt__", op_lt) :: ("__le__", op_le) :: ("__eq__", op_eq)
     :: ("__ne__", op_ne) :: ("__gt__", op_gt) :: ("__ge__", op_ge)
     :: ("__add__", op_add) :: ("__sub__", op_sub) :: ("__mul__", op_mul)
     :: ("__matmul__", op_matmul) :: ("__truediv__", op_truediv)
     :: ("__floordiv__", op_floordiv) :: ("__mod__", op_mod)
     :: ("__pow__", op_pow) :: ("__and__", op_and) :: ("__xor__", op_xor)
     :: ("__or__", op_or) :: nil).

Definition is_comparison (o : binop) : bool :=
  match o with
  | op_lt | op_le | op_eq | op_ne | op_gt | op_ge => true
  | _ => false
  end.

(** What a comparison operator says of the outcome of a three-way
    comparison. *)
Definition holds (o : binop) (c : comparison) : bool :=
  match o, c with
  | op_lt, Lt | op_le, Lt | op_le, Eq | op_eq, Eq
  | op_ne, Lt | op_ne, Gt | op_gt, Gt | op_ge, Gt | op_ge, Eq => true
  | _, _ => false
  end.

(** The operator the right operand answers when the left one declines. *)
Definition swapped (o : binop) : binop :=
  match o with
  | op_lt => op_gt | op_gt => op_lt | op_le => op_ge | op_ge => op_le
  | o => o
  end.

(** [bool] is a subclass of [int]. *)
Definition int_of (v : value) : option Z :=
  match v with
  | VInt z => Some z
  | VBool b => Some (if b then 1 else 0)
  | _ => None
  end.

Definition num_of (v : value) : option Q :=
  match v with
  | VFloat q => Some q
  | _ => inject_Z <$> int_of v
  end.

(** [int.__op__(x, y)] on two integers. *)
Definition int_dunder (o : binop) (x y : Z) : M value :=
  match o with
  | op_add => ret (VInt (x + y))
  | op_sub => ret (VInt (x - y))
  | op_mul => ret (VInt (x * y))
  | op_floordiv => if Z.eqb y 0 then raise ZeroDivisionError else ret (VInt (x / y))
  | op_mod => if Z.eqb y 0 then raise ZeroDivisionError else ret (VInt (x mod y))
  | op_and => ret (VInt (Z.land x y))
  | op_or => ret (VInt (Z.lor x y))
  | op_xor => ret (VInt (Z.lxor x y))
  | op_truediv => if Z.eqb y 0 then raise ZeroDivisionError else stop External
  | op_pow => stop External
  | op_matmul => raise (AttributeError "__matmul__")
  | _ => ret (VBool (holds o (x ?= y)%Z))
  end.

Definition attr_of (o : binop) : string :=
  match o with
  | op_lt => "__lt__" | op_le => "__le__" | op_eq => "__eq__"
  | op_ne => "__ne__" | op_gt => "__gt__" | op_ge => "__ge__"
  | op_add => "__add__" | op_sub => "__sub__" | op_mul => "__mul__"
  | op_matmul => "__matmul__" | op_truediv => "__truediv__"
  | op_floordiv => "__floordiv__" | op_mod => "__mod__" | op_pow => "__pow__"
  | op_and => "__and__" | op_xor => "__xor__" | op_or => "__or__"
  end.

(** [getattr(a, attr)(b)] for a concrete left operand [a]: the method of
    [a]'s own type, called directly.  It answers [NotImplemented] where the
    type declines the right operand, and nothing looks at the right
    operand's methods. *)
Definition builtin_dunder (o : binop) (a b : value) : M value :=
  match a with
  | VInt _ | VBool _ =>
      match int_of a, int_of b with
      | Some x, Some y =>
          match o, a, b with
          | op_and, VBool p, VBool q => ret (VBool (p && q))
          | op_or, VBool p, VBool q => ret (VBool (p || q))
          | op_xor, VBool p, VBool q => ret (VBool (xorb p q))
          | _, _, _ => int_dunder o x y
          end
      | _, _ =>
          match o with
          | op_matmul => raise (AttributeError "__matmul__")
          | _ => ret VNotImplemented
          end
      end
  | VFloat p =>
      match o with
      | op_matmul | op_and | op_or | op_xor => raise (AttributeError (attr_of o))
      | _ =>
          match num_of b with
          | Some q => if is_comparison o then ret (VBool (holds o (p ?= q)%Q))
                      else stop External
          | None => ret VNotImplemented
          end
      end
  | VStr s =>
      match o with
      | op_add => match b with
                  | VStr t => ret (VStr (s ++ t))
                  | _ => raise TypeError
                  end
      | op_mul | op_mod => stop External
      | op_sub | op_matmul | op_truediv | op_floordiv | op_pow
      | op_and | op_or | op_xor => raise (AttributeError (attr_of o))
      | _ => match b with
             | VStr t => ret (VBool (holds o (String.compare s t)))
             | _ => ret VNotImplemented
             end
      end
  | VNone =>
      match o with
      | op_eq => match b with VNone => ret (VBool true) | _ => ret VNotImplemented end
      | op_ne => match b with VNone => ret (VBool false) | _ => ret VNotImplemented end
      | op_lt | op_le | op_gt | op_ge => ret VNotImplemented
      | _ => raise (AttributeError (attr_of o))
      end
  | _ => stop External
  end.

(** ** Operators as the source writes them, [a op b] *)

(** [Expression.__add__] and its siblings: a new node, nothing evaluated.
    The class has such a method for every operator of the registry but
    [**]. *)
Definition Expression_binop (o : binop) (self : addr) (other : value) : M value :=
  match o with
  | op_pow => raise (AttributeError "__pow__")
  | _ =>
      let* sym := table_get BIN_OPS_ATTR_2_SYNTAX (attr_of o) in
      new_BinaryExpression (VRef self) other sym
  end.

(** [Expression.__radd__], [Expression.__rmul__] *)
Definition Expression_radd (self : addr) (other : value) : M value :=
  let* sym := table_get BIN_OPS_ATTR_2_SYNTAX "__add__" in
  new_BinaryExpression other (VRef self) sym.

Definition Expression_rmul (self : addr) (other : value) : M value :=
  let* sym := table_get BIN_OPS_ATTR_2_SYNTAX "__mul__" in
  new_BinaryExpression other (VRef self) sym.

(** A missing method counts as a declined operand. *)
Definition declining (m : M value) : M value :=
  fun s => match m s with
           | Raise (AttributeError _) s' => Ok VNotImplemented s'
           | r => r
           end.

Definition is_NotImplemented (v : value) : bool :=
  match v with VNotImplemented => true | _ => false end.

(** [a op b] on two concrete values: the left type first, then the right
    one's reflected method, then the default. *)
Definition concrete_binop (o : binop) (a b : value) : M value :=
  let* r := declining (builtin_dunder o a b) in
  if negb (is_NotImplemented r) then ret r
  else if is_comparison o then
    let* r' := declining (builtin_dunder (swapped o) b a) in
    if negb (is_NotImplemented r') then ret r'
    else match o with
         | op_eq => ret (VBool false)
         | op_ne => ret (VBool true)
         | _ => raise TypeError
         end
  else
    match int_of a, b with
    | Some _, VFloat _ => stop External
    | Some _, VStr _ | Some _, VList _ =>
        match o with op_mul => stop External | _ => raise TypeError end
    | _, _ => raise TypeError
    end.

(** [a op b] for every operator but [==] (see [py_eq] below). *)
Definition py_binop_other (o : binop) (a b : value) : M value :=
  match a, b with
  | VRef x, _ =>
      match o, b with
      | op_pow, VExt _ | op_pow, VAttr _ _ => stop External
      | op_pow, _ => raise TypeError
      | _, _ => Expression_binop o x b
      end
  | VExt _, _ | VAttr _ _, _ | VNotImplemented, _
  | VList _, _ | VDict _, _ => stop External
  | _, VRef y =>
      match o with
      | op_add => Expression_radd y a
      | op_mul => Expression_rmul y a
      | op_lt | op_le | op_gt | op_ge | op_ne => Expression_binop (swapped o) y a
      | _ => raise TypeError
      end
  | _, _ => concrete_binop o a b
  end.

(** [m1 and m2], [m1 or m2]: the second operand is evaluated on demand and
    the result is one of the operands. *)
Definition py_and (m1 m2 : M value) : M value :=
  let* v := m1 in if truthy v then m2 else ret v.

Definition py_or (m1 m2 : M value) : M value :=
  let* v := m1 in if truthy v then ret v else m2.

(** [v.name] for a value that may or may not be a node. *)
Definition getattr_of (v : value) (name : string) : M value :=
  match v with
  | VRef y => getattr y name
  | _ => stop External
  end.

(** *** Equality

    The methods below take [eq], the meaning of [==] on the values they
    compare; [py_eq] closes the recursion. *)

(** [VarExpression.__eq__] *)
Definition VarExpression_eq (eq : value -> value -> M value)
    (self : addr) (other : value) : M value :=
  let* s := get_state in
  match class_of s (VRef self) with
  | None => stop Dangling
  | Some c =>
      if match class_of s other with Some d => cls_eqb c d | None => false end
      then
        let* v := getattr self "value" in
        let* w := getattr_of other "value" in
        eq v w
      else ret (VBool false)
  end.

(** [self.f == other.g] *)
Definition eq_fields (eq : value -> value -> M value)
    (self : addr) (f : string) (other : value) (g : string) : M value :=
  let* v := getattr self f in
  let* w := getattr_of other g in
  eq v w.

(** [List.__eq__] *)
Definition List_eq (eq : value -> value -> M value)
    (self : addr) (other : value) : M value :=
  py_and (VarExpression_eq eq self other)
    (py_and (eq_fields eq self "_values" other "_values")
       (py_and (eq_fields eq self "_k" other "_k")
          (eq_fields eq self "_replace" other "_replace"))).

(** [Int.__eq__]: the other side is read through [_upper] and [_lower]. *)
Definition Int_eq (eq : value -> value -> M value)
    (self : addr) (other : value) : M value :=
  py_and (VarExpression_eq eq self other)
    (py_and (eq_fields eq self "_high" other "_upper")
       (eq_fields eq self "_low" other "_lower")).

(** [Float.__eq__] *)
Definition Float_eq (eq : value -> value -> M value)
    (self : addr) (other : value) : M value :=
  py_and (VarExpression_eq eq self other)
    (py_and (eq_fields eq self "_high" other "_upper")
       (eq_fields eq self "_low" other "_lower")).

(** [x == b] where [x] is a node: the method of [x]'s class. *)
Definition Expression_eq (eq : value -> value -> M value)
    (x : addr) (b : value) : M value :=
  let* o := get_obj x in
  match ocls o with
  | List => List_eq eq x b
  | Int => Int_eq eq x b
  | Float => Float_eq eq x b
  | _ => Expression_binop op_eq x b
  end.

(** Two items of a container are the same if they are one object, or
    else if [==] says so. *)
Definition item_same (eq : value -> value -> M value) (v w : value) : M bool :=
  let by_eq := let* r := eq v w in ret (truthy r) in
  match v, w with
  | VRef a, VRef b => if Nat.eqb a b then ret true else by_eq
  | VExt e, VExt e' => if Nat.eqb (ext_id e) (ext_id e') then ret true else by_eq
  | _, _ => by_eq
  end.

Fixpoint items_same (eq : value -> value -> M value) (l k : list value) : M bool :=
  match l, k with
  | v :: l', w :: k' =>
      let* b := item_same eq v w in
      if b then items_same eq l' k' else ret false
  | _, _ => ret true
  end.

(** [list.__eq__] on two lists *)
Definition list_eq (eq : value -> value -> M value) (l k : list value) : M value :=
  if negb (Nat.eqb (length l) (length k)) then ret (VBool false)
  else let* b := items_same eq l k in ret (VBool b).

Definition is_opaque (v : value) : bool :=
  match v with
  | VExt _ | VAttr _ _ | VNotImplemented | VDict _ => true
  | _ => false
  end.

(** [a == b] *)
Fixpoint py_eq (n : nat) (a b : value) {struct n} : M value :=
  match n with
  | O => stop OutOfFuel
  | S n =>
      match a, b with
      | VRef x, _ => Expression_eq (py_eq n) x b
      | _, VRef y => if is_opaque a then stop External
                     else Expression_eq (py_eq n) y a
      | VList l, VList k => list_eq (py_eq n) l k
      | VList _, _ | _, VList _ =>
          if is_opaque a || is_opaque b then stop External
          else ret (VBool false)
      | _, _ => concrete_binop op_eq a b
      end
  end.

(** [a op b] *)
Definition py_binop (n : nat) (o : binop) (a b : value) : M value :=
  match o with
  | op_eq => py_eq n a b
  | _ => py_binop_other o a b
  end.

(** ** Variables *)

(** The distribution objects of [scipy.stats]; instances, hence callable. *)
Definition scipy_stats_randint : ext := Ext 0 false false false false true.
Definition scipy_stats_uniform : ext := Ext 1 false false false false true.

(** [VarExpression.__init__] followed by the assignments [rest] of the
    subclass: the instance takes the current [VarExpression.var_id] and the
    class attribute is incremented. *)
Definition VarExpression_init (c : cls) (name : value)
    (rest : list (string * value)) : M value :=
  fun s =>
    Ok (VRef (length (heap s)))
       (State (heap s ++ Obj c (("_name", name) :: ("var_id", VInt (var_counter s))
                                  :: rest) :: nil)
              (var_counter s + 1)).

(** [Int(low, high, name)] *)
Definition new_Int (low high name : value) : M value :=
  VarExpression_init Int name
    (("_low", low) :: ("_high", high) :: ("_dist", VExt scipy_stats_randint) :: nil).

(** [Float(low, high, name)] *)
Definition new_Float (low high name : value) : M value :=
  VarExpression_init Float name
    (("_low", low) :: ("_high", high) :: ("_dist", VExt scipy_stats_uniform) :: nil).

(** [List(values, k, replace, invariant, name)] *)
Definition new_List (values : list value) (k replace invariant name : value) : M value :=
  VarExpression_init List name
    (("_values", VList values) :: ("_k", k) :: ("_replace", replace)
     :: ("_invariant", invariant) :: nil).

(** [Int.__repr__], [Float.__repr__]: the value once there is one, the
    declaration before. *)
Definition bounded_repr (self : addr) : M rendering :=
  let* v := getattr self "value" in
  match v with
  | VNone =>
      let* o := get_obj self in
      let* i := VarExpression_id self in
      let* lo := getattr self "_low" in
      let* hi := getattr self "_high" in
      ret (RVar (ocls o) i lo hi)
  | _ => ret (RValue v)
  end.

(** The body shared, word for word, by [Int.freeze] and [Float.freeze]. *)
Definition bounded_freeze (self : addr) (choice : gmap string value) : M unit :=
  let* i := VarExpression_id self in
  let* c := choice_lookup choice i in
  let* lo := getattr self "_low" in
  let* s := get_state in
  let* some_var :=
    if isinstance_VarExpression s lo then ret true
    else
      let* hi := getattr self "_high" in
      let* s' := get_state in
      ret (isinstance_VarExpression s' hi) in
  (if negb some_var then
     let* out :=
       py_or (let* lo := getattr self "_low" in py_binop_other op_gt lo c)
             (let* hi := getattr self "_high" in py_binop_other op_gt c hi) in
     if truthy out then
       let* who := bounded_repr self in
       let* lo := getattr self "_low" in
       let* hi := getattr self "_high" in
       raise (InvalidChoice who lo hi c)
     else ret tt
   else ret tt) ;;
  setattr self "value" c.

(** [Int.freeze] *)
Definition Int_freeze (self : addr) (choice : gmap string value) : M unit :=
  bounded_freeze self choice.

(** [Float.freeze] *)
Definition Float_freeze (self : addr) (choice : gmap string value) : M unit :=
  bounded_freeze self choice.

(** [VarExpression.freeze] *)
Definition VarExpression_freeze (self : addr) (choice : gmap string value) : M unit :=
  let* i := VarExpression_id self in
  let* c := choice_lookup choice i in
  setattr self "value" c.

(** ** Nested structures, the [tree] library

    [tree.map_structure(f, s)] flattens [s] into its leaves, applies [f] to
    each leaf in that order and packs the results into the shape of [s].
    Lists and dicts are nested, everything else is a leaf, and a dict is
    flattened in the sorted order of its keys. *)

Definition is_nested (v : value) : bool :=
  match v with VList _ | VDict _ => true | _ => false end.

Fixpoint insert_by_key {A} (kv : string * A) (l : list (string * A))
  : list (string * A) :=
  match l with
  | nil => kv :: nil
  | kv' :: l' =>
      if String.leb (fst kv) (fst kv') then kv :: l
      else kv' :: insert_by_key kv l'
  end.

Definition sorted_items {A} (d : list (string * A)) : list (string * A) :=
  fold_right insert_by_key nil d.

Fixpoint flatten (v : value) : list value :=
  match v with
  | VList l => flat_map flatten l
  | VDict d =>
      concat (map snd (sorted_items (map (fun kv => (fst kv, flatten (snd kv))) d)))
  | _ => v :: nil
  end.

(** The leaves that belong to each key, cut from [leaves] in sorted key
    order. *)
Fixpoint cut_by_key (sizes : list (string * nat)) (leaves : list value)
  : list (string * list value) :=
  match sizes with
  | nil => nil
  | (k, n) :: sizes' => (k, take n leaves) :: cut_by_key sizes' (drop n leaves)
  end.

(** [pack shape leaves]: the structure of [shape] holding [leaves]. *)
Fixpoint pack (shape : value) (leaves : list value) : value :=
  match shape with
  | VList l =>
      VList ((fix go (l : list value) (leaves : list value) : list value :=
                match l with
                | nil => nil
                | x :: l' =>
                    let n := length (flatten x) in
                    pack x (take n leaves) :: go l' (drop n leaves)
                end) l leaves)
  | VDict d =>
      let parts :=
        cut_by_key
          (sorted_items (map (fun kv => (fst kv, length (flatten (snd kv)))) d))
          leaves in
      VDict (map (fun kv =>
                    (fst kv, pack (snd kv) (default nil (assoc (fst kv) parts)))) d)
  | _ => match leaves with x :: _ => x | nil => shape end
  end.

Definition map_structure (f : value -> M value) (s : value) : M value :=
  let* leaves := mapM f (flatten s) in
  ret (pack s leaves).

(** ** Indexing *)

(** [l[i]] on a list: a negative index counts from the end. *)
Definition list_getitem (l : list value) (i : value) : M value :=
  match int_of i with
  | Some z =>
      let n := Z.of_nat (length l) in
      let j := if Z.ltb z 0 then z + n else z in
      if Z.ltb j 0 || Z.leb n j then raise IndexError
      else match l !! Z.to_nat j with
           | Some v => ret v
           | None => raise IndexError
           end
  | None => match i with
            | VExt _ => stop External
            | _ => raise TypeError
            end
  end.

(** [Expression.__getitem__] *)
Definition Expression_getitem (self : addr) (item : value) : M value :=
  new_ExpressionItemAccess (VRef self) item.

(** [v[i]] *)
Definition py_getitem (v i : value) : M value :=
  match v with
  | VList l => list_getitem l i
  | VDict d => match i with
               | VStr k => match assoc k d with
                           | Some w => ret w
                           | None => raise (KeyError k)
                           end
               | _ => stop External
               end
  | VRef x => Expression_getitem x i
  | VNone | VBool _ | VInt _ | VFloat _ | VNotImplemented => raise TypeError
  | _ => stop External
  end.

(** ** Discovering variables *)

(** The identity of a variable as a dictionary key. *)
Definition id_key (a : addr) : M string :=
  let* i := VarExpression_id a in
  match i with
  | VStr k => ret k
  | _ => stop External
  end.

Fixpoint foldM {A B} (f : A -> B -> M A) (acc : A) (l : list B) : M A :=
  match l with
  | nil => ret acc
  | x :: l' => let* acc' := f acc x in foldM f acc' l'
  end.

(** [choice_aux], given [o.choices()] for the nodes below; [memo] is the
    dictionary of the enclosing call. *)
Definition choice_aux (rec : addr -> M (gmap string addr))
    (memo : gmap string addr) (o : value) : M (gmap string addr) :=
  match o with
  | VRef x =>
      let* s := get_state in
      if isinstance_VarExpression s o then
        let* i := id_key x in ret (<[i := x]> memo)
      else
        let* m := rec x in ret (m ∪ memo)
  | _ => ret memo
  end.

(** [Expression.choices], with the overrides of [ExpressionCallExpression]
    and [VarExpression]. *)
Fixpoint choices (n : nat) (self : addr) {struct n} : M (gmap string addr) :=
  match n with
  | O => stop OutOfFuel
  | S n =>
      let* o := get_obj self in
      match ocls o with
      | List | Int | Float =>
          let* i := id_key self in ret {[ i := self ]}
      | ExpressionCallExpression =>
          let* e := getattr self "expression" in
          let* memo := match e with
                       | VRef x => choices n x
                       | _ => stop External
                       end in
          let* args := getattr self "args" in
          let* memo := foldM (choice_aux (choices n)) memo (flatten args) in
          let* kwargs := getattr self "kwargs" in
          foldM (choice_aux (choices n)) memo (flatten kwargs)
      | _ =>
          foldM (choice_aux (choices n)) ∅ (flatten (VDict (odict o)))
      end
  end.

(** ** Freezing *)

(** [freeze_aux] *)
Definition freeze_aux (rec : addr -> M unit) (o : value) : M unit :=
  match o with
  | VRef x => rec x
  | _ => ret tt
  end.

(** [assert c] *)
Definition py_assert (c : M value) : M unit :=
  let* v := c in if truthy v then ret tt else raise AssertionError.

(** [List._length] *)
Definition List_length (self : addr) : M value :=
  let* vs := getattr self "_values" in
  match vs with
  | VList l => ret (VInt (Z.of_nat (length l)))
  | _ => stop External
  end.

(** [self._values[i]] *)
Definition List_value_at (self : addr) (i : value) : M value :=
  let* vs := getattr self "_values" in
  match vs with
  | VList l => list_getitem l i
  | _ => stop External
  end.

(** What iterating over a value yields, if it is iterable. *)
Definition iterate (v : value) : option (list value) :=
  match v with
  | VList l => Some l
  | VDict d => Some (map (fun kv => VStr (fst kv)) d)
  | VStr s => Some (map (fun c => VStr (String c EmptyString)) (list_ascii_of_string s))
  | _ => None
  end.

(** [List._getitem]: [np.issubdtype(type(item), np.integer)] holds of an
    integer and of none of the other values here. *)
Definition List_getitem (self : addr) (item : value) : M value :=
  match item with
  | VInt _ => List_value_at self item
  | VExt _ | VAttr _ _ => stop External
  | _ =>
      match iterate item with
      | Some l => let* vs := mapM (List_value_at self) l in ret (VList vs)
      | None => raise (InvalidIndex item)
      end
  end.

(** [[i for i in range(n)]] *)
Definition py_range (n : value) : M value :=
  match int_of n with
  | Some z => ret (VList (map (fun i => VInt (Z.of_nat i)) (seq 0 (Z.to_nat z))))
  | None => match n with
            | VExt _ => stop External
            | _ => raise TypeError
            end
  end.

(** [List.freeze]; [rec] is [freeze] on the nodes below and [fuel] bounds
    the comparison [idx == 0]. *)
Definition List_freeze (fuel : nat) (rec : addr -> M unit)
    (self : addr) (choice : gmap string value) : M unit :=
  let* k := getattr self "_k" in
  let* idx :=
    match k with
    | VNone =>
        let* i := VarExpression_id self in
        let* idx := choice_lookup choice i in
        let* inv := getattr self "_invariant" in
        (if truthy inv then py_assert (py_eq fuel idx (VInt 0))
         else py_assert (py_and (py_binop_other op_le (VInt 0) idx)
                                (let* n := List_length self in
                                 py_binop_other op_lt idx n))) ;;
        ret idx
    | _ =>
        let* inv := getattr self "_invariant" in
        if truthy inv then
          let* k := getattr self "_k" in
          let* s := get_state in
          if isinstance_VarExpression s k then
            let* i := getattr_of k "id" in
            let* n := choice_lookup choice i in
            py_range n
          else
            let* i := VarExpression_id self in
            let* n := choice_lookup choice i in
            py_range n
        else
          let* i := VarExpression_id self in
          let* idx := choice_lookup choice i in
          match idx with
          | VList _ => ret idx
          | _ => raise AssertionError
          end
    end in
  let* v := List_getitem self idx in
  setattr self "value" v ;;
  match iterate idx with
  | Some l =>
      iterM (fun i =>
               let* v := getattr self "value" in
               let* x := py_getitem v i in
               if isinstance_Expression x then
                 let* v := getattr self "value" in
                 let* x := py_getitem v i in
                 freeze_aux rec x
               else ret tt) l
  | None =>
      let* v := getattr self "value" in
      if isinstance_Expression v then
        let* v := getattr self "value" in freeze_aux rec v
      else ret tt
  end.

(** [Expression.freeze] with the overrides of the subclasses. *)
Fixpoint freeze (n : nat) (self : addr) (choice : gmap string value)
    {struct n} : M unit :=
  match n with
  | O => stop OutOfFuel
  | S n =>
      let* o := get_obj self in
      match ocls o with
      | Int => Int_freeze self choice
      | Float => Float_freeze self choice
      | List => List_freeze n (fun x => freeze n x choice) self choice
      | ExpressionCallExpression =>
          let* e := getattr self "expression" in
          match e with
          | VRef x => freeze n x choice
          | _ => stop External
          end ;;
          let* args := getattr self "args" in
          iterM (freeze_aux (fun x => freeze n x choice)) (flatten args) ;;
          let* kwargs := getattr self "kwargs" in
          iterM (freeze_aux (fun x => freeze n x choice)) (flatten kwargs)
      | _ =>
          iterM (freeze_aux (fun x => freeze n x choice))
                (flatten (VDict (odict o)))
      end
  end.

(** ** Calling a wrapped object, [ObjectExpression.__call__] *)

(** What [inspect] says of a value: class, function, builtin, method. *)
Definition inspect_isclass (v : value) : bool :=
  match v with VExt e => ext_isclass e | _ => false end.
Definition inspect_isfunction (v : value) : bool :=
  match v with VExt e => ext_isfunction e | _ => false end.
Definition inspect_isbuiltin (v : value) : bool :=
  match v with VExt e => ext_isbuiltin e | _ => false end.
Definition inspect_ismethod (v : value) : bool :=
  match v with
  | VExt e => ext_ismethod e
  | VAttr (VRef _) _ => true
  | _ => false
  end.

(** [w.__init__]: every object has one. *)
Definition construct_capability (w : value) : M value :=
  match w with
  | VRef x => getattr x "__init__"
  | _ => ret (VAttr w "__init__")
  end.

(** [w.__call__] *)
Definition invoke_capability (w : value) : M value :=
  match w with
  | VRef x => getattr x "__call__"
  | VExt e => if ext_callable e then ret (VAttr w "__call__")
              else raise (AttributeError "__call__")
  | VAttr _ _ => ret (VAttr w "__call__")
  | _ => raise (AttributeError "__call__")
  end.

(** Whether [inspect] can be answered for a value here: not for a method
    of an object outside the graph. *)
Definition inspectable (w : value) : bool :=
  match w with
  | VAttr (VRef _) _ => true
  | VAttr _ _ => false
  | _ => true
  end.

Definition ObjectExpression_call (self : addr)
    (args : list value) (kwargs : list (string * value)) : M value :=
  let* w := getattr self "_obj" in
  if negb (inspectable w) then stop External
  else if inspect_isclass w then
    let* w := getattr self "_obj" in
    let* init := construct_capability w in
    new_FunctionCallExpression w init args kwargs
  else if inspect_isfunction w
          || (inspect_isbuiltin w && negb (inspect_ismethod w)) then
    let* w := getattr self "_obj" in
    new_FunctionCallExpression VNone w args kwargs
  else
    let* w := getattr self "_obj" in
    let* call := invoke_capability w in
    new_FunctionCallExpression w call args kwargs.

(** [Expression.__call__] *)
Definition Expression_call (self : addr)
    (args : list value) (kwargs : list (string * value)) : M value :=
  new_ExpressionCallExpression (VRef self) args kwargs.

(** [f] called with [args] and [kwargs] *)
Definition py_call (f : value) (args : list value)
    (kwargs : list (string * value)) : M value :=
  match f with
  | VRef x =>
      let* o := get_obj x in
      match ocls o with
      | ObjectExpression => ObjectExpression_call x args kwargs
      | _ => Expression_call x args kwargs
      end
  | VNone | VBool _ | VInt _ | VFloat _ | VStr _ | VList _ | VDict _
  | VNotImplemented => raise TypeError
  | _ => stop External
  end.

(** ** Evaluation *)

Inductive unop := op_neg | op_pos | op_invert.

Definition unop_of_attr (attr : string) : option unop :=
  assoc attr (("__neg__", op_neg) :: ("__pos__", op_pos)
              :: ("__invert__", op_invert) :: nil).

Definition unop_attr (u : unop) : string :=
  match u with
  | op_neg => "__neg__" | op_pos => "__pos__" | op_invert => "__invert__"
  end.

(** [Expression.__neg__] and its siblings *)
Definition Expression_unop (u : unop) (self : addr) : M value :=
  let* sym := table_get UNA_OPS_ATTR_2_SYNTAX (unop_attr u) in
  new_UnaryExpression sym (VRef self).

(** [getattr(x, attr)()] for a unary operator *)
Definition call_unary (u : unop) (x : value) : M value :=
  match x with
  | VRef a => Expression_unop u a
  | VInt _ | VBool _ =>
      match int_of x with
      | Some z => match u with
                  | op_neg => ret (VInt (- z))
                  | op_pos => ret (VInt z)
                  | op_invert => ret (VInt (- z - 1))
                  end
      | None => stop External
      end
  | VFloat q =>
      match u with
      | op_neg => ret (VFloat (- q))
      | op_pos => ret (VFloat q)
      | op_invert => raise (AttributeError "__invert__")
      end
  | VNone | VStr _ | VList _ | VDict _ | VNotImplemented =>
      raise (AttributeError (unop_attr u))
  | _ => stop External
  end.

(** [getattr(left, attr)(right)]: the method comes from [left] alone.  On
    a node, [__pow__] is found by the attribute fallback and the node it
    gives is called. *)
Definition call_binary (fuel : nat) (o : binop) (left right : value) : M value :=
  match left with
  | VRef x =>
      match o with
      | op_eq => Expression_eq (py_eq fuel) x right
      | op_pow =>
          let* f := getattr x "__pow__" in
          py_call f (right :: nil) nil
      | _ => Expression_binop o x right
      end
  | _ => builtin_dunder o left right
  end.

(** [evaluate_aux] *)
Definition evaluate_aux (rec : addr -> M value) (o : value) : M value :=
  match o with
  | VRef x => rec x
  | _ => ret o
  end.

(** [Expression.evaluate_children]: the leaves of [__dict__] are evaluated
    and the result replaces [__dict__]. *)
Definition evaluate_children (rec : addr -> M value) (self : addr) : M unit :=
  let* o := get_obj self in
  let* leaves := mapM (evaluate_aux rec) (flatten (VDict (odict o))) in
  match pack (VDict (odict o)) leaves with
  | VDict d => set_dict self d
  | _ => stop External
  end.

Definition as_str (v : value) : M string :=
  match v with
  | VStr s => ret s
  | _ => stop External
  end.

(** [evaluate] of every class. *)
Fixpoint evaluate (n : nat) (self : addr) {struct n} : M value :=
  match n with
  | O => stop OutOfFuel
  | S n =>
      let* o := get_obj self in
      match ocls o with
      | List | Int | Float =>
          (* VarExpression.evaluate *)
          let* v := getattr self "value" in
          if isinstance_Expression v then
            let* v := getattr self "value" in
            evaluate_aux (evaluate n) v
          else if is_nested v then
            let* v := getattr self "value" in
            map_structure (evaluate_aux (evaluate n)) v
          else getattr self "value"
      | BinaryExpression =>
          evaluate_children (evaluate n) self ;;
          let* left := getattr self "left" in
          let* sym := getattr self "operator" in
          let* sym := as_str sym in
          let* attr := table_get BIN_OPS_SYNTAX_2_ATTR sym in
          match binop_of_attr attr with
          | Some o =>
              let* right := getattr self "right" in
              call_binary n o left right
          | None => stop External
          end
      | UnaryExpression =>
          evaluate_children (evaluate n) self ;;
          let* x := getattr self "x" in
          let* sym := getattr self "operator" in
          let* sym := as_str sym in
          let* attr := table_get UNA_OPS_SYNTAX_2_ATTR sym in
          match unop_of_attr attr with
          | Some u => call_unary u x
          | None => stop External
          end
      | FunctionCallExpression =>
          (* the call into the wrapped function is not embedded *)
          evaluate_children (evaluate n) self ;;
          stop External
      | ExpressionItemAccess =>
          evaluate_children (evaluate n) self ;;
          let* e := getattr self "expression" in
          let* i := getattr self "item" in
          py_getitem e i
      | ExpressionAttributeAccess =>
          evaluate_children (evaluate n) self ;;
          let* e := getattr self "expression" in
          let* name := getattr self "name" in
          let* name := as_str name in
          getattr_of e name
      | ExpressionCallExpression =>
          evaluate_children (evaluate n) self ;;
          let* e := getattr self "expression" in
          let* args := getattr self "args" in
          let* kwargs := getattr self "kwargs" in
          match args, kwargs with
          | VList l, VDict d => py_call e l d
          | _, _ => stop External
          end
      | ObjectExpression =>
          evaluate_children (evaluate n) self ;;
          getattr self "_obj"
      end
  end.

(** ** Copying *)

(** [copy.deepcopy(x, memo)]: the memo maps the identity of an object
    already copied to its copy.  [Expression.__deepcopy__] records the new
    object in the memo it was given and copies [__dict__] by a call
    [copy.deepcopy(self.__dict__)] of its own.  Lists and dicts are held
    structurally, so the memo tracks nodes only, and the copy of an object
    from outside the graph is not told apart from the object. *)
Fixpoint deepcopy (n : nat) (x : value) (memo : gmap addr addr) {struct n}
  : M (value * gmap addr addr) :=
  match n with
  | O => stop OutOfFuel
  | S n =>
      match x with
      | VRef a =>
          match memo !! a with
          | Some b => ret (VRef b, memo)
          | None =>
              let* o := get_obj a in
              let* b := alloc (Obj (ocls o) nil) in
              let memo := <[a := b]> memo in
              let* o := get_obj a in
              let* r := deepcopy n (VDict (odict o)) ∅ in
              match fst r with
              | VDict d => set_dict b d ;; ret (VRef b, <[a := b]> memo)
              | _ => stop External
              end
          end
      | VList l =>
          let* r := foldM (fun acc v =>
                             let* r := deepcopy n v (snd acc) in
                             ret ((fst acc ++ fst r :: nil)%list, snd r))
                          (nil, memo) l in
          ret (VList (fst r), snd r)
      | VDict d =>
          let* r := foldM (fun acc kv =>
                             let* r := deepcopy n (snd kv) (snd acc) in
                             ret ((fst acc ++ (fst kv, fst r) :: nil)%list, snd r))
                          (nil, memo) d in
          ret (VDict (fst r), snd r)
      | _ => ret (x, memo)
      end
  end.

(** [copy_aux] *)
Definition copy_aux (rec : addr -> M value) (o : value) : M value :=
  match o with
  | VRef x => rec x
  | _ => ret o
  end.

(** [Expression.__copy__] *)
Fixpoint Expression_copy (n : nat) (self : addr) {struct n} : M value :=
  match n with
  | O => stop OutOfFuel
  | S n =>
      let* o := get_obj self in
      let* b := alloc (Obj (ocls o) nil) in
      let* o := get_obj self in
      let* d := map_structure (copy_aux (Expression_copy n)) (VDict (odict o)) in
      match d with
      | VDict d => set_dict b d ;; ret (VRef b)
      | _ => stop External
      end
  end.

(** [Expression.clone] *)
Definition clone (n : nat) (self : addr) (deep : bool) : M value :=
  if deep then
    let* r := deepcopy n (VRef self) ∅ in ret (fst r)
  else Expression_copy n self.

(** ** Sampling *)

(** The pseudo-random source and the calls of [numpy] and [scipy.stats]
    that the source makes; a draw takes the state of the source and gives
    the next one. *)
Record library := Library {
  rng : Type;
  RandomState : rng;                                         (* np.random.RandomState() *)
  randint_rvs : value -> value -> value -> rng -> value * rng; (* randint.rvs(low, high, size, random_state) *)
  uniform_rvs : value -> value -> value -> rng -> value * rng; (* uniform.rvs(loc, scale, size, random_state) *)
  rng_choice : value -> value -> value -> rng -> value * rng;  (* rng.choice(a, size, replace) *)
  np_zeros : value -> value;                                 (* np.zeros((size,)) *)
  np_full : value -> value -> value;                         (* np.full((size,), fill) *)
  np_item : value -> value -> value;                         (* array[i] *)
  np_tolist : value -> value                                 (* array.tolist() *)
}.

(** A sampling memo is a dictionary whose keys are runtime identities
    (integers, [inl]) or strings ([inr]); it may also be absent. *)
Definition sample_memo : Type := option (gmap (addr + string) value).

Section Sampling.
Variable L : library.

Definition sampled : Type := value * (rng L * sample_memo).

(** [VarExpression.sample]; [_sample] is the method of the class. *)
Definition VarExpression_sample
    (_sample : addr -> value -> rng L -> sample_memo -> M sampled)
    (self : addr) (size : value) (r : option (rng L)) (memo : sample_memo)
  : M sampled :=
  let r := match r with None => RandomState L | Some r => r end in
  match memo with
  | Some m =>
      if bool_decide (is_Some (m !! inl self)) then
        let* i := id_key self in
        match m !! inr i with
        | Some v => ret (v, (r, memo))
        | None => raise (KeyError i)
        end
      else
        let* res := _sample self size r memo in
        match snd (snd res) with
        | Some m' =>
            let* i := id_key self in
            ret (fst res, (fst (snd res), Some (<[inr i := fst res]> m')))
        | None => ret res
        end
  | None => _sample self size r memo
  end.

(** [b.sample(size, rng, memo) if isinstance(b, VarExpression) else b] *)
Definition sample_if_var
    (rec : addr -> value -> option (rng L) -> sample_memo -> M sampled)
    (b : value) (size : value) (r : rng L) (memo : sample_memo) : M sampled :=
  let* s := get_state in
  if isinstance_VarExpression s b then
    match b with
    | VRef x => rec x size (Some r) memo
    | _ => stop Dangling
    end
  else ret (b, (r, memo)).

(** [Int._sample] *)
Definition Int_sample
    (rec : addr -> value -> option (rng L) -> sample_memo -> M sampled)
    (self : addr) (size : value) (r : rng L) (memo : sample_memo) : M sampled :=
  let* lo := getattr self "_low" in
  let* low := sample_if_var rec lo size r memo in
  let* hi := getattr self "_high" in
  let* high := sample_if_var rec hi size (fst (snd low)) (snd (snd low)) in
  let* high1 := py_binop_other op_add (fst high) (VInt 1) in
  let* d := getattr self "_dist" in
  match d with
  | VExt e =>
      if Nat.eqb (ext_id e) (ext_id scipy_stats_randint) then
        let out := randint_rvs L (fst low) high1 size (fst (snd high)) in
        ret (fst out, (snd out, snd (snd high)))
      else stop External
  | _ => stop External
  end.

(** [Float._sample] *)
Definition Float_sample
    (rec : addr -> value -> option (rng L) -> sample_memo -> M sampled)
    (self : addr) (size : value) (r : rng L) (memo : sample_memo) : M sampled :=
  let* lo := getattr self "_low" in
  let* low := sample_if_var rec lo size r memo in
  let* hi := getattr self "_high" in
  let* high := sample_if_var rec hi size (fst (snd low)) (snd (snd low)) in
  let* scale := py_binop_other op_sub (fst high) (fst low) in
  let* d := getattr self "_dist" in
  match d with
  | VExt e =>
      if Nat.eqb (ext_id e) (ext_id scipy_stats_uniform) then
        let out := uniform_rvs L (fst low) scale size (fst (snd high)) in
        ret (fst out, (snd out, snd (snd high)))
      else stop External
  | _ => stop External
  end.

(** [List._sample] *)
Definition List_sample
    (rec : addr -> value -> option (rng L) -> sample_memo -> M sampled)
    (self : addr) (size : value) (r : rng L) (memo : sample_memo) : M sampled :=
  let* k := getattr self "_k" in
  match k with
  | VNone =>
      let* inv := getattr self "_invariant" in
      if truthy inv then
        ret (if truthy size then np_zeros L size else VInt 0, (r, memo))
      else
        let* n := List_length self in
        let out := rng_choice L n size (VBool true) r in
        ret (fst out, (snd out, memo))
  | _ =>
      let* inv := getattr self "_invariant" in
      let* s := get_state in
      if truthy inv then
        if isinstance_VarExpression s k then sample_if_var rec k size r memo
        else ret (np_full L size k, (r, memo))
      else if isinstance_VarExpression s k then
        let* sample_size := sample_if_var rec k size r memo in
        let r := fst (snd sample_size) in
        let memo := snd (snd sample_size) in
        if truthy size then
          let* ixs := py_range size in
          match ixs with
          | VList l =>
              let* res :=
                foldM (fun acc i =>
                         let* n := List_length self in
                         let* rep := getattr self "_replace" in
                         let out := rng_choice L n (np_item L (fst sample_size) i)
                                               rep (snd acc) in
                         ret ((fst acc ++ np_tolist L (fst out) :: nil)%list, snd out))
                      (nil, r) l in
              ret (VList (fst res), (snd res, memo))
          | _ => stop External
          end
        else
          let* n := List_length self in
          let* rep := getattr self "_replace" in
          let out := rng_choice L n (fst sample_size) rep r in
          ret (fst out, (snd out, memo))
      else
        let* n := List_length self in
        let* rep := getattr self "_replace" in
        let out := rng_choice L n k rep r in
        ret (fst out, (snd out, memo))
  end.

(** [v.sample(size, rng, memo)] for a variable [v] of any kind. *)
Fixpoint sample (n : nat) (self : addr) (size : value)
    (r : option (rng L)) (memo : sample_memo) {struct n} : M sampled :=
  match n with
  | O => stop OutOfFuel
  | S n =>
      VarExpression_sample
        (fun self size r memo =>
           let* o := get_obj self in
           match ocls o with
           | Int => Int_sample (sample n) self size r memo
           | Float => Float_sample (sample n) self size r memo
           | List => List_sample (sample n) self size r memo
           | _ => raise NotImplementedError
           end)
        self size r memo
  end.
End Sampling.

(** ** The traversal of [choices], as a list

    The variables a call of [choices] meets, in the order it meets them:
    the fields of a node in flattening order; a variable met is listed and
    not entered. *)

Definition occurrence_aux (rec : addr -> M (list (string * addr)))
    (seen : list (string * addr)) (o : value) : M (list (string * addr)) :=
  match o with
  | VRef x =>
      let* s := get_state in
      if isinstance_VarExpression s o then
        let* i := id_key x in ret (seen ++ (i, x) :: nil)%list
      else
        let* l := rec x in ret (seen ++ l)%list
  | _ => ret seen
  end.

Fixpoint occurrences (n : nat) (self : addr) {struct n} : M (list (string * addr)) :=
  match n with
  | O => stop OutOfFuel
  | S n =>
      let* o := get_obj self in
      match ocls o with
      | List | Int | Float =>
          let* i := id_key self in ret ((i, self) :: nil)
      | ExpressionCallExpression =>
          let* e := getattr self "expression" in
          let* seen := match e with
                       | VRef x => occurrences n x
                       | _ => stop External
                       end in
          let* args := getattr self "args" in
          let* seen := foldM (occurrence_aux (occurrences n)) seen (flatten args) in
          let* kwargs := getattr self "kwargs" in
          foldM (occurrence_aux (occurrences n)) seen (flatten kwargs)
      | _ =>
          foldM (occurrence_aux (occurrences n)) nil (flatten (VDict (odict o)))
      end
  end.

(** The dictionary after the entries of [l] are written to [memo] one after
    the other. *)
Definition written (l : list (string * addr)) (memo : gmap string addr)
  : gmap string addr :=
  fold_left (fun m p => <[fst p := snd p]> m) l memo.

(** The last variable of [l] with identity [i]. *)
Definition last_with (i : string) (l : list (string * addr)) : option addr :=
  fold_left (fun acc p => if String.eqb (fst p) i then Some (snd p) else acc) l None.

(** The first variable of [l] with identity [i]. *)
Definition first_with (i : string) (l : list (string * addr)) : option addr :=
  assoc i l.

Definition outcome_map {A B} (f : A -> B) (o : outcome A) : outcome B :=
  match o with
  | Ok a s => Ok (f a) s
  | Raise e s => Raise e s
  | Abort r => Abort r
  end.

(** ** Predicates on runs *)

(** A run of [m] leaves the objects of the heap as they are and may add
    new ones. *)
Definition grows {A} (m : M A) : Prop :=
  forall s, match m s with
            | Ok _ s' | Raise _ s' => exists l, heap s' = (heap s ++ l)%list
            | Abort _ => True
            end.

(** The same of the runs of [m] that raise. *)
Definition fails_growing {A} (m : M A) : Prop :=
  forall s e s', m s = Raise e s' -> exists l, heap s' = (heap s ++ l)%list.

(** A sampling memo none of whose keys is a runtime identity. *)
Definition no_identity_keys (memo : sample_memo) : Prop :=
  match memo with
  | Some m => forall a : addr, m !! (inl a : addr + string) = None
  | None => True
  end.

(** The [value] of a variable: its own, or the [None] of the class. *)
Definition value_of (o : obj) : value := default VNone (assoc "value" (odict o)).

(** The [__dict__] of a [BinaryExpression]. *)
Definition binary_dict (left right : value) (sym : string) : list (string * value) :=
  ("left", left) :: ("right", right) :: ("operator", VStr sym) :: nil.

(** The state after [FunctionCallExpression(parent, function, ...)] is
    constructed in [s], and the new node. *)
Definition with_call_node (s : state) (parent function : value)
    (args : list value) (kwargs : list (string * value)) : outcome value :=
  Ok (VRef (length (heap s)))
     (State (heap s ++ Obj FunctionCallExpression
                         (("function_parent", parent) :: ("function", function)
                          :: ("args", VList args) :: ("kwargs", VDict kwargs) :: nil)
                       :: nil)
            (var_counter s)).

(** ** Scenarios *)

Definition empty_state : state := State nil 0.

(** [Int(0, 10)] *)
Definition Int_0_10 : state :=
  State (Obj Int (("_name", VNone) :: ("var_id", VInt 0) :: ("_low", VInt 0)
                  :: ("_high", VInt 10) :: ("_dist", VExt scipy_stats_randint) :: nil)
         :: nil) 1.

(** [Int(0, 100)] *)
Definition Int_0_100 : state :=
  State (Obj Int (("_name", VNone) :: ("var_id", VInt 0) :: ("_low", VInt 0)
                  :: ("_high", VInt 100) :: ("_dist", VExt scipy_stats_randint) :: nil)
         :: nil) 1.

(** [ObjectExpression(5) + ObjectExpression(3)], evaluated *)
Definition direct_sum : M value :=
  let* a := new_ObjectExpression (VInt 5) in
  let* b := new_ObjectExpression (VInt 3) in
  let* node := py_binop 0 op_add a b in
  evaluate_aux (evaluate 2) node.

(** [3 + ObjectExpression(5)], evaluated *)
Definition reflected_sum : M value :=
  let* a := new_ObjectExpression (VInt 5) in
  let* node := py_binop 0 op_add (VInt 3) a in
  evaluate_aux (evaluate 2) node.

(** [ObjectExpression(2) < 2.5], evaluated *)
Definition declined_comparison : M value :=
  let* a := new_ObjectExpression (VInt 2) in
  let* node := py_binop 0 op_lt a (VFloat (5 # 2)) in
  evaluate_aux (evaluate 2) node.

(** The heap after [ObjectExpression(5) + ObjectExpression(3)] is built. *)
Definition two_wrapped : state :=
  State (Obj ObjectExpression (("_obj", VInt 5) :: nil)
         :: Obj ObjectExpression (("_obj", VInt 3) :: nil)
         :: Obj BinaryExpression (binary_dict (VRef 0%nat) (VRef 1%nat) "+") :: nil) 0.

(** An object that [inspect] reports both as a class and as a function,
    wrapped. *)
Definition some_class : ext := Ext 7 true true false false true.
Definition wrapped_class : state :=
  State (Obj ObjectExpression (("_obj", VExt some_class) :: nil) :: nil) 0.

(** [a = Int(0, 5, "x"); b = Int(0, 9, "x"); a + b] *)
Definition two_named_x : state :=
  State (Obj Int (("_name", VStr "x") :: ("var_id", VInt 0) :: ("_low", VInt 0)
                  :: ("_high", VInt 5) :: ("_dist", VExt scipy_stats_randint) :: nil)
         :: Obj Int (("_name", VStr "x") :: ("var_id", VInt 1) :: ("_low", VInt 0)
                     :: ("_high", VInt 9) :: ("_dist", VExt scipy_stats_randint) :: nil)
         :: Obj BinaryExpression (binary_dict (VRef 0%nat) (VRef 1%nat) "+") :: nil) 2.

(** [List(["a", "b"])] and [List(["a", "c"])], both frozen with index 0 *)
Definition List_ab : obj :=
  Obj List (("_name", VNone) :: ("var_id", VInt 0)
            :: ("_values", VList (VStr "a" :: VStr "b" :: nil)) :: ("_k", VNone)
            :: ("_replace", VBool false) :: ("_invariant", VBool false)
            :: ("value", VStr "a") :: nil).
Definition List_ac : obj :=
  Obj List (("_name", VNone) :: ("var_id", VInt 1)
            :: ("_values", VList (VStr "a" :: VStr "c" :: nil)) :: ("_k", VNone)
            :: ("_replace", VBool false) :: ("_invariant", VBool false)
            :: ("value", VStr "a") :: nil).
Definition two_lists : state := State (List_ab :: List_ac :: nil) 2.

(** [List(["a", "b", "c"], k=1)] *)
Definition three_letters : state :=
  State (Obj List (("_name", VNone) :: ("var_id", VInt 0)
                   :: ("_values", VList (VStr "a" :: VStr "b" :: VStr "c" :: nil))
                   :: ("_k", VInt 1) :: ("_replace", VBool false)
                   :: ("_invariant", VBool false) :: nil) :: nil) 1.

(** [x = Int(0, 5, "x"); y = Int(0, 5, "y");
    List([x, y], k=3, replace=True, name="l")] *)
Definition pick_three : state :=
  State (Obj Int (("_name", VStr "x") :: ("var_id", VInt 0) :: ("_low", VInt 0)
                  :: ("_high", VInt 5) :: ("_dist", VExt scipy_stats_randint) :: nil)
         :: Obj Int (("_name", VStr "y") :: ("var_id", VInt 1) :: ("_low", VInt 0)
                     :: ("_high", VInt 5) :: ("_dist", VExt scipy_stats_randint) :: nil)
         :: Obj List (("_name", VStr "l") :: ("var_id", VInt 2)
                      :: ("_values", VList (VRef 0%nat :: VRef 1%nat :: nil))
                      :: ("_k", VInt 3) :: ("_replace", VBool true)
                      :: ("_invariant", VBool false) :: nil) :: nil) 3.

Definition pick_three_choice : gmap string value :=
  <["l" := VList (VInt 0 :: VInt 0 :: VInt 1 :: nil)]>
    (<["x" := VInt 1]> {[ "y" := VInt 2 ]}).

(** A source of draws that counts: the [r]-th integer drawn from
    [low, high) is [low + r mod (high - low)]. *)
Definition counting_library : library :=
  Library Z 0
    (fun low high size r =>
       match low, high with
       | VInt l, VInt h => (VInt (l + r mod (h - l)), r + 1)
       | _, _ => (VNone, r + 1)
       end)
    (fun low scale size r => (low, r + 1))
    (fun a size replace r => (VInt 0, r + 1))
    (fun size => VNone) (fun size fill => VNone) (fun a i => VNone) (fun a => a).

(** [v = Int(0, 10); root = (v + 1) * v] *)
Definition shared_graph : state :=
  State (Obj Int (("_name", VNone) :: ("var_id", VInt 0) :: ("_low", VInt 0)
                  :: ("_high", VInt 10) :: ("_dist", VExt scipy_stats_randint) :: nil)
         :: Obj BinaryExpression (binary_dict (VRef 0%nat) (VInt 1) "+")
         :: Obj BinaryExpression (binary_dict (VRef 1%nat) (VRef 0%nat) "*") :: nil) 1.

(** ** Further methods of the source *)

(** [len(v)]: the classes of the source define no [__len__]. *)
Definition py_len (v : value) : M value :=
  match v with
  | VList l => ret (VInt (Z.of_nat (length l)))
  | VDict d => ret (VInt (Z.of_nat (length d)))
  | VStr s => ret (VInt (Z.of_nat (String.length s)))
  | VExt _ | VAttr _ _ => stop External
  | _ => raise TypeError
  end.

(** [d[k] = ...] hashes the key: a node is not hashable, its class defines
    [__eq__] and no [__hash__]; a list or a dict is not either. *)
Definition dict_key (k : value) : M string :=
  match k with
  | VStr s => ret s
  | VRef _ | VList _ | VDict _ => raise TypeError
  | _ => stop External
  end.

(** [memo[e.id] = e.choices()]: the right-hand side first, then the key. *)
Definition record_choices (n : nat) (memo : gmap string (gmap string addr))
    (e : value) : M (gmap string (gmap string addr)) :=
  let* cs := match e with
             | VRef x => choices n x
             | _ => stop External
             end in
  let* i := getattr_of e "id" in
  let* key := dict_key i in
  ret (<[key := cs]> memo).

(** [List.child_choices] *)
Definition List_child_choices (n : nat) (self : addr)
  : M (gmap string (gmap string addr)) :=
  let* k := getattr self "_k" in
  let* memo := if isinstance_Expression k then
                 let* k := getattr self "_k" in record_choices n ∅ k
               else ret ∅ in
  let* len := py_len (VRef self) in
  let* ixs := py_range len in
  match ixs with
  | VList l =>
      foldM (fun memo i =>
               let* value_i := List_getitem self i in
               if isinstance_Expression value_i then record_choices n memo value_i
               else ret memo) memo l
  | _ => stop External
  end.

(** [choice_aux] of [Expression.variables]: a variable whose identity is
    not yet in [memo] is entered there; [o.variables()] is merged in
    either way. *)
Definition variables_aux (rec : addr -> M (gmap string addr))
    (memo : gmap string addr) (o : value) : M (gmap string addr) :=
  match o with
  | VRef x =>
      let* s := get_state in
      if isinstance_VarExpression s o then
        let* i := id_key x in
        if bool_decide (is_Some (memo !! i)) then
          let* m := rec x in ret (m ∪ memo)
        else
          let* i := id_key x in
          let memo := <[i := x]> memo in
          let* m := rec x in ret (m ∪ memo)
      else
        let* m := rec x in ret (m ∪ memo)
  | _ => ret memo
  end.

(** [Expression.variables]; no class overrides it. *)
Fixpoint variables (n : nat) (self : addr) {struct n} : M (gmap string addr) :=
  match n with
  | O => stop OutOfFuel
  | S n =>
      let* o := get_obj self in
      foldM (variables_aux (variables n)) ∅ (flatten (VDict (odict o)))
  end.

(** ** Notions the properties are stated with *)

(** The identity of a variable read off its fields, [VarExpression.id],
    when the name or the counter gives a string. *)
Definition identity_of (o : obj) : option string :=
  match assoc "_name" (odict o) with
  | Some nm =>
      if truthy nm then
        match nm with VStr i => Some i | _ => None end
      else
        match assoc "var_id" (odict o) with
        | Some (VInt z) => Some (str_of_int z)
        | _ => None
        end
  | None => None
  end.

(** [c] lies outside [[lo, hi]], as the source tests it. *)
Definition outside (lo hi c : Q) : bool :=
  holds op_gt (lo ?= c)%Q || holds op_gt (c ?= hi)%Q.

(** ** Further scenarios *)

(** [Float(0.0, 1.0)], identity ["0"] *)
Definition Float_unit_obj : obj :=
  Obj Float (("_name", VNone) :: ("var_id", VInt 0) :: ("_low", VFloat 0)
             :: ("_high", VFloat 1) :: ("_dist", VExt scipy_stats_uniform) :: nil).


(** [y = Int(1, 5, "y"); x = Int(0, y, "x")] *)
Definition dependent_bound : state :=
  State (Obj Int (("_name", VStr "y") :: ("var_id", VInt 0) :: ("_low", VInt 1)
                  :: ("_high", VInt 5) :: ("_dist", VExt scipy_stats_randint) :: nil)
         :: Obj Int (("_name", VStr "x") :: ("var_id", VInt 1) :: ("_low", VInt 0)
                     :: ("_high", VRef 0%nat) :: ("_dist", VExt scipy_stats_randint) :: nil)
         :: nil) 2.

(** [x = Int(0, 5, "x"); y = Int(0, 5, "y"); x + y] *)
Definition sum_of_two : state :=
  State (Obj Int (("_name", VStr "x") :: ("var_id", VInt 0) :: ("_low", VInt 0)
                  :: ("_high", VInt 5) :: ("_dist", VExt scipy_stats_randint) :: nil)
         :: Obj Int (("_name", VStr "y") :: ("var_id", VInt 1) :: ("_low", VInt 0)
                     :: ("_high", VInt 5) :: ("_dist", VExt scipy_stats_randint) :: nil)
         :: Obj BinaryExpression (binary_dict (VRef 0%nat) (VRef 1%nat) "+") :: nil) 2.

(** The objects of [s] below [N] are the same in [s'], which holds no
    fewer objects. *)
Definition unchanged_below (N : nat) (s s' : state) : Prop :=
  (length (heap s) <= length (heap s'))%nat
  /\ forall a : addr, (a < N)%nat -> heap s' !! a = heap s !! a.

(** A run of [m] that returns leaves the objects below [N] as they are,
    when it starts with at least [N] objects. *)
Definition spares {A} (N : nat) (m : M A) : Prop :=
  forall s a s', (N <= length (heap s))%nat -> m s = Ok a s' -> unchanged_below N s s'.

(** Neither a node nor a list or dict. *)
Definition is_atom (v : value) : bool :=
  negb (isinstance_Expression v || is_nested v).

(** [v = Int(0, 5, "v"); v + v] *)
Definition doubled : state :=
  State (Obj Int (("_name", VStr "v") :: ("var_id", VInt 0) :: ("_low", VInt 0)
                  :: ("_high", VInt 5) :: ("_dist", VExt scipy_stats_randint) :: nil)
         :: Obj BinaryExpression (binary_dict (VRef 0%nat) (VRef 0%nat) "+") :: nil) 1.

(** [List(["a", "b", "c"])], identity ["0"] *)
Definition one_of_three : state :=
  State (Obj List (("_name", VNone) :: ("var_id", VInt 0)
                   :: ("_values", VList (VStr "a" :: VStr "b" :: VStr "c" :: nil))
                   :: ("_k", VNone) :: ("_replace", VBool false)
                   :: ("_invariant", VBool false) :: nil) :: nil) 1.

(** [List(["a", "b", "c"], k=2, invariant=True)], identity ["0"] *)
Definition first_of_three : state :=
  State (Obj List (("_name", VNone) :: ("var_id", VInt 0)
                   :: ("_values", VList (VStr "a" :: VStr "b" :: VStr "c" :: nil))
                   :: ("_k", VInt 2) :: ("_replace", VBool false)
                   :: ("_invariant", VBool true) :: nil) :: nil) 1.

(** [Float(0, 4, "f")], with integer bounds *)
Definition Float_0_4 : state :=
  State (Obj Float (("_name", VStr "f") :: ("var_id", VInt 0) :: ("_low", VInt 0)
                    :: ("_high", VInt 4) :: ("_dist", VExt scipy_stats_uniform) :: nil)
         :: nil) 1.

(** [List(["a", "b", "c"], invariant=True)], identity ["0"] *)
Definition constant_of_three : state :=
  State (Obj List (("_name", VNone) :: ("var_id", VInt 0)
                   :: ("_values", VList (VStr "a" :: VStr "b" :: VStr "c" :: nil))
                   :: ("_k", VNone) :: ("_replace", VBool false)
                   :: ("_invariant", VBool true) :: nil) :: nil) 1.

(** The [__dict__] of a [UnaryExpression]. *)
Definition unary_dict (sym : string) (x : value) : list (string * value) :=
  ("operator", VStr sym) :: ("x", x) :: nil.

(** What a unary operator gives on an integer. *)
Definition int_unary (u : unop) (z : Z) : Z :=
  match u with
  | op_neg => - z
  | op_pos => z
  | op_invert => - z - 1
  end.

(** The [__dict__] of an [ExpressionItemAccess]. *)
Definition item_dict (expression item : value) : list (string * value) :=
  ("expression", expression) :: ("item", item) :: nil.

(** [ObjectExpression(["a", "b", "c"])] *)
Definition wrapped_letters : state :=
  State (Obj ObjectExpression
           (("_obj", VList (VStr "a" :: VStr "b" :: VStr "c" :: nil)) :: nil) :: nil) 0.

(** The [__dict__] of an [ExpressionAttributeAccess]. *)
Definition attribute_dict (expression : value) (name : string)
  : list (string * value) :=
  ("expression", expression) :: ("name", VStr name) :: nil.

(** [x = Int(0, 5, "x"); y = Int(0, 5, "y"); x + y], frozen with
    [{"x": 2, "y": 3}] *)
Definition frozen_sum : state :=
  State (Obj Int (("_name", VStr "x") :: ("var_id", VInt 0) :: ("_low", VInt 0)
                  :: ("_high", VInt 5) :: ("_dist", VExt scipy_stats_randint)
                  :: ("value", VInt 2) :: nil)
         :: Obj Int (("_name", VStr "y") :: ("var_id", VInt 1) :: ("_low", VInt 0)
                     :: ("_high", VInt 5) :: ("_dist", VExt scipy_stats_randint)
                     :: ("value", VInt 3) :: nil)
         :: Obj BinaryExpression (binary_dict (VRef 0%nat) (VRef 1%nat) "+") :: nil) 2.

(** * Properties *)

(** ** Reasoning in the monad *)

Lemma bind_Ok {A B} (m : M A) (k : A -> M B) s a s' :
  m s = Ok a s' -> bind m k s = k a s'.
Proof. unfold bind. intros ->. reflexivity. Qed.

Lemma bind_Raise {A B} (m : M A) (k : A -> M B) s e s' :
  m s = Raise e s' -> bind m k s = Raise e s'.
Proof. unfold bind. intros ->. reflexivity. Qed.

Lemma bind_inv_Raise {A B} (m : M A) (k : A -> M B) s e s' :
  bind m k s = Raise e s' ->
  m s = Raise e s' \/ exists a s1, m s = Ok a s1 /\ k a s1 = Raise e s'.
Proof.
  unfold bind. destruct (m s) as [a s1|e1 s1|r]; intros H.
  - right. eauto.
  - left. injection H as -> ->. reflexivity.
  - discriminate.
Qed.

Lemma bind_inv_Ok {A B} (m : M A) (k : A -> M B) s b s' :
  bind m k s = Ok b s' ->
  exists a s1, m s = Ok a s1 /\ k a s1 = Ok b s'.
Proof.
  unfold bind. destruct (m s) as [a s1|e1 s1|r]; intros H; try discriminate. eauto.
Qed.

(** Two runs that agree on their first step and, from its result, on the
    rest. *)
Lemma bind_switch {A B} (m m' : M A) (k k' : A -> M B) s s2 :
  m s = m' s2 ->
  (forall a s3, m' s2 = Ok a s3 -> k a s3 = k' a s3) ->
  bind m k s = bind m' k' s2.
Proof.
  intros Hm Hk. unfold bind. rewrite Hm.
  destruct (m' s2) as [a s3|e s3|r]; auto.
Qed.

Lemma bind_map {A A' B B'} (g : A' -> A) (f : B' -> B)
    (m : M A) (m' : M A') (k : A -> M B) (k' : A' -> M B') s :
  m s = outcome_map g (m' s) ->
  (forall a s1, k (g a) s1 = outcome_map f (k' a s1)) ->
  bind m k s = outcome_map f (bind m' k' s).
Proof.
  intros Hm Hk. unfold bind. rewrite Hm.
  destruct (m' s) as [a s1|e s1|r]; cbn; auto.
Qed.

Lemma bind_same {A B B'} (f : B' -> B) (m : M A) (k : A -> M B) (k' : A -> M B') s :
  (forall a s1, k a s1 = outcome_map f (k' a s1)) ->
  bind m k s = outcome_map f (bind m k' s).
Proof.
  intros Hk. apply (bind_map (fun a => a)); [|exact Hk].
  destruct (m s); reflexivity.
Qed.

Lemma mapM_cons_Ok {A B} (f : A -> M B) x l s y s1 ys s2 :
  f x s = Ok y s1 -> mapM f l s1 = Ok ys s2 ->
  mapM f (x :: l) s = Ok (y :: ys) s2.
Proof.
  intros Hx Hl. cbn [mapM]. rewrite (bind_Ok _ _ _ _ _ Hx).
  rewrite (bind_Ok _ _ _ _ _ Hl). reflexivity.
Qed.

(** ** Reading and writing fields *)

Lemma get_obj_Ok s a o : heap s !! a = Some o -> get_obj a s = Ok o s.
Proof. unfold get_obj. intros ->. reflexivity. Qed.

(** A field of the instance is read as it is. *)
Lemma getattr_field s a o name v :
  heap s !! a = Some o -> assoc name (odict o) = Some v ->
  String.eqb name "id" = false ->
  getattr a name s = Ok v s.
Proof.
  intros Ha Hf Hid. unfold getattr.
  rewrite (bind_Ok _ _ _ _ _ (get_obj_Ok _ _ _ Ha)).
  rewrite Hid, andb_false_r. unfold getattr_plain.
  rewrite (bind_Ok _ _ _ _ _ (get_obj_Ok _ _ _ Ha)).
  rewrite Hf. reflexivity.
Qed.

(** The class attribute [value = None] shows through an instance that has
    no [value] of its own. *)
Lemma getattr_value_absent s a o :
  heap s !! a = Some o -> is_var_cls (ocls o) = true ->
  assoc "value" (odict o) = None ->
  getattr a "value" s = Ok VNone s.
Proof.
  intros Ha Hc Hf. unfold getattr.
  rewrite (bind_Ok _ _ _ _ _ (get_obj_Ok _ _ _ Ha)).
  rewrite Hc. cbn [andb String.eqb Ascii.eqb Bool.eqb].
  unfold getattr_plain.
  rewrite (bind_Ok _ _ _ _ _ (get_obj_Ok _ _ _ Ha)).
  rewrite Hf, Hc. reflexivity.
Qed.

Lemma getattr_value s a o :
  heap s !! a = Some o -> is_var_cls (ocls o) = true ->
  getattr a "value" s = Ok (value_of o) s.
Proof.
  intros Ha Hc. unfold value_of.
  destruct (assoc "value" (odict o)) as [v|] eqn:Hv.
  - apply (getattr_field _ _ _ _ _ Ha Hv eq_refl).
  - apply (getattr_value_absent _ _ _ Ha Hc Hv).
Qed.

Lemma assoc_set_same {A} k (v : A) d : assoc k (assoc_set k v d) = Some v.
Proof.
  induction d as [|[k' v'] d IH]; cbn.
  - rewrite String.eqb_refl. reflexivity.
  - destruct (String.eqb k k') eqn:E; cbn; rewrite ?String.eqb_refl, ?E; auto.
Qed.

Lemma set_dict_lookup a d s s3 :
  set_dict a d s = Ok tt s3 -> exists c, heap s3 !! a = Some (Obj c d).
Proof.
  unfold set_dict. destruct (heap s !! a) as [o|] eqn:Ha; [|discriminate].
  intros [= <-]. exists (ocls o). cbn [heap].
  apply list_lookup_insert_eq. apply lookup_lt_Some in Ha. exact Ha.
Qed.

Lemma cls_eqb_refl c : cls_eqb c c = true.
Proof. destruct c; reflexivity. Qed.

(** ** Evaluating a variable *)

(** C1, as the code has it: [evaluate()] on a variable (List, Int or Float)
    whose [value] was never set does not fail; it returns the absent value,
    [None], and changes nothing. *)
Theorem unfrozen_variable_evaluates_to_None n s a o :
  heap s !! a = Some o -> is_var_cls (ocls o) = true ->
  assoc "value" (odict o) = None ->
  evaluate (S n) a s = Ok VNone s.
Proof.
  intros Ha Hc Hf.
  pose proof (getattr_value_absent _ _ _ Ha Hc Hf) as Hv.
  cbn [evaluate].
  rewrite (bind_Ok _ _ _ _ _ (get_obj_Ok _ _ _ Ha)).
  destruct (ocls o); try discriminate Hc;
    rewrite (bind_Ok _ _ _ _ _ Hv); cbn [isinstance_Expression is_nested]; exact Hv.
Qed.

Lemma unfrozen_variable_evaluates_to_None_witness :
  evaluate 1 0%nat Int_0_10 = Ok VNone Int_0_10.
Proof.
  apply (unfrozen_variable_evaluates_to_None 0 Int_0_10 0%nat
           (Obj Int (("_name", VNone) :: ("var_id", VInt 0) :: ("_low", VInt 0)
                     :: ("_high", VInt 10) :: ("_dist", VExt scipy_stats_randint)
                     :: nil))); reflexivity.
Defined.

(** C1 as stated fails: [Int(0, 10)], never frozen, evaluates to [None]
    with any fuel and raises nothing. *)
Lemma unfrozen_Int_does_not_fail :
  new_Int (VInt 0) (VInt 10) VNone empty_state = Ok (VRef 0%nat) Int_0_10
  /\ (forall n, evaluate (S n) 0%nat Int_0_10 = Ok VNone Int_0_10)
  /\ ~ (exists n e s', evaluate n 0%nat Int_0_10 = Raise e s').
Proof.
  assert (H : forall n, evaluate (S n) 0%nat Int_0_10 = Ok VNone Int_0_10).
  { intros n. reflexivity. }
  split; [reflexivity|]. split; [exact H|].
  intros (n & e & s' & Hr). destruct n as [|n].
  - discriminate Hr.
  - rewrite H in Hr. discriminate Hr.
Qed.

(** ** Freezing a bounded variable *)

Lemma py_gt_int x y s :
  py_binop_other op_gt (VInt x) (VInt y) s = Ok (VBool (Z.ltb y x)) s.
Proof.
  cbn. unfold bind, declining, ret. cbn.
  rewrite (Z.ltb_antisym x y), Z.leb_compare.
  destruct (x ?= y)%Z; reflexivity.
Qed.

Section BoundedFreeze.
Variables (s : state) (self : addr) (c0 : cls) (d : list (string * value)).
Variables (i : string) (lo hi c : Z) (choice : gmap string value).
Hypothesis Hself : heap s !! self = Some (Obj c0 d).
Hypothesis Hcls : is_var_cls c0 = true.
Hypothesis Hlo : assoc "_low" d = Some (VInt lo).
Hypothesis Hhi : assoc "_high" d = Some (VInt hi).
Hypothesis Hid : VarExpression_id self s = Ok (VStr i) s.
Hypothesis Hc : choice !! i = Some (VInt c).

Lemma bounded_low : getattr self "_low" s = Ok (VInt lo) s.
Proof. apply (getattr_field _ _ _ _ _ Hself Hlo). reflexivity. Qed.

Lemma bounded_high : getattr self "_high" s = Ok (VInt hi) s.
Proof. apply (getattr_field _ _ _ _ _ Hself Hhi). reflexivity. Qed.

Lemma bounded_repr_total :
  exists who, bounded_repr self s = Ok who s
    /\ (assoc "value" d = None -> who = RVar c0 (VStr i) (VInt lo) (VInt hi)).
Proof.
  unfold bounded_repr.
  assert (Hdecl :
    (let* o := get_obj self in
     let* i := VarExpression_id self in
     let* lo := getattr self "_low" in
     let* hi := getattr self "_high" in
     ret (RVar (ocls o) i lo hi)) s = Ok (RVar c0 (VStr i) (VInt lo) (VInt hi)) s).
  { rewrite (bind_Ok _ _ _ _ _ (get_obj_Ok _ _ _ Hself)).
    rewrite (bind_Ok _ _ _ _ _ Hid).
    rewrite (bind_Ok _ _ _ _ _ bounded_low).
    rewrite (bind_Ok _ _ _ _ _ bounded_high). reflexivity. }
  destruct (assoc "value" d) as [v|] eqn:Hv.
  - rewrite (bind_Ok _ _ _ _ _ (getattr_field _ _ _ _ _ Hself Hv eq_refl)).
    destruct v; try (eexists; split; [reflexivity|discriminate]).
    eexists; split; [exact Hdecl|discriminate].
  - rewrite (bind_Ok _ _ _ _ _ (getattr_value_absent _ _ _ Hself Hcls Hv)).
    eexists; split; [exact Hdecl|reflexivity].
Qed.

(** The test [self._low > choice or choice > self._high]. *)
Lemma bounded_test :
  py_or (let* lo := getattr self "_low" in py_binop_other op_gt lo (VInt c))
        (let* hi := getattr self "_high" in py_binop_other op_gt (VInt c) hi) s
  = Ok (VBool (Z.ltb c lo || Z.ltb hi c)) s.
Proof.
  unfold py_or.
  rewrite (bind_Ok _ _ s (VBool (Z.ltb c lo)) s).
  2:{ rewrite (bind_Ok _ _ _ _ _ bounded_low). apply py_gt_int. }
  destruct (Z.ltb c lo); cbn [truthy orb]; [reflexivity|].
  rewrite (bind_Ok _ _ _ _ _ bounded_high). apply py_gt_int.
Qed.

Lemma bounded_freeze_steps (k : bool -> M unit) :
  (forall out, k out =
     (if truthy (VBool out) then
        let* who := bounded_repr self in
        let* lo := getattr self "_low" in
        let* hi := getattr self "_high" in
        raise (InvalidChoice who lo hi (VInt c))
      else ret tt)) ->
  bounded_freeze self choice s
  = (k (Z.ltb c lo || Z.ltb hi c) ;; setattr self "value" (VInt c)) s.
Proof.
  intros Hk. unfold bounded_freeze.
  rewrite (bind_Ok _ _ _ _ _ Hid).
  unfold choice_lookup at 1. rewrite Hc.
  rewrite (bind_Ok (ret (VInt c)) _ s (VInt c) s eq_refl).
  rewrite (bind_Ok _ _ _ _ _ bounded_low).
  rewrite (bind_Ok get_state _ s s s eq_refl).
  cbn [isinstance_VarExpression class_of].
  rewrite (bind_Ok _ _ s false s).
  2:{ rewrite (bind_Ok _ _ _ _ _ bounded_high). reflexivity. }
  cbn [negb].
  apply bind_switch; [|reflexivity].
  rewrite (bind_Ok _ _ _ _ _ bounded_test). rewrite Hk. reflexivity.
Qed.

Lemma bounded_freeze_outside :
  c < lo \/ hi < c ->
  exists who, bounded_repr self s = Ok who s
    /\ bounded_freeze self choice s
       = Raise (InvalidChoice who (VInt lo) (VInt hi) (VInt c)) s.
Proof.
  intros Hout. destruct bounded_repr_total as (who & Hwho & _).
  exists who. split; [exact Hwho|].
  rewrite (bounded_freeze_steps _ (fun _ => eq_refl)).
  assert (Hb : Z.ltb c lo || Z.ltb hi c = true).
  { destruct (Z.ltb_spec c lo); [reflexivity|].
    destruct (Z.ltb_spec hi c); [reflexivity|lia]. }
  rewrite Hb. cbn [truthy]. apply bind_Raise.
  rewrite (bind_Ok _ _ _ _ _ Hwho).
  rewrite (bind_Ok _ _ _ _ _ bounded_low).
  rewrite (bind_Ok _ _ _ _ _ bounded_high). reflexivity.
Qed.

Lemma bounded_freeze_inside :
  lo <= c <= hi ->
  bounded_freeze self choice s = setattr self "value" (VInt c) s.
Proof.
  intros Hin.
  rewrite (bounded_freeze_steps _ (fun _ => eq_refl)).
  assert (Hb : Z.ltb c lo || Z.ltb hi c = false).
  { destruct (Z.ltb_spec c lo); [lia|].
    destruct (Z.ltb_spec hi c); [lia|reflexivity]. }
  rewrite Hb. reflexivity.
Qed.

Lemma setattr_value v :
  let s' := State (<[self := Obj c0 (assoc_set "value" v d)]> (heap s)) (var_counter s) in
  setattr self "value" v s = Ok tt s'
  /\ heap s' !! self = Some (Obj c0 (assoc_set "value" v d)).
Proof.
  cbn zeta. split.
  - unfold setattr. rewrite (bind_Ok _ _ _ _ _ (get_obj_Ok _ _ _ Hself)).
    unfold set_dict. rewrite Hself. reflexivity.
  - cbn [heap]. apply list_lookup_insert_eq.
    apply lookup_lt_Some in Hself. exact Hself.
Qed.
End BoundedFreeze.



(** ** The heap only grows until a field is assigned *)

Lemma grows_ret {A} (a : A) : grows (ret a).
Proof. intros s. exists nil. cbn. rewrite app_nil_r. reflexivity. Qed.

Lemma grows_raise {A} e : grows (@raise A e).
Proof. intros s. exists nil. cbn. rewrite app_nil_r. reflexivity. Qed.

Lemma grows_stop {A} r : grows (@stop A r).
Proof. intros s. exact I. Qed.

Lemma grows_get_state : grows get_state.
Proof. intros s. exists nil. cbn. rewrite app_nil_r. reflexivity. Qed.

Lemma grows_bind {A B} (m : M A) (k : A -> M B) :
  grows m -> (forall a, grows (k a)) -> grows (bind m k).
Proof.
  intros Hm Hk s. unfold bind. specialize (Hm s).
  destruct (m s) as [a s1|e s1|r]; auto.
  destruct Hm as [l Hl]. specialize (Hk a s1).
  destruct (k a s1) as [b s2|e s2|r]; auto;
    destruct Hk as [l' Hl']; exists (l ++ l')%list;
    rewrite Hl', Hl, app_assoc; reflexivity.
Qed.

Lemma grows_get_obj a : grows (get_obj a).
Proof.
  intros s. unfold get_obj. destruct (heap s !! a); auto.
  exists nil. rewrite app_nil_r. reflexivity.
Qed.

Lemma grows_alloc o : grows (alloc o).
Proof. intros s. cbn. eauto. Qed.

Lemma grows_fails {A} (m : M A) : grows m -> fails_growing m.
Proof. intros H s e s' E. specialize (H s). rewrite E in H. exact H. Qed.

Lemma fails_growing_bind {A B} (m : M A) (k : A -> M B) :
  grows m -> (forall a, fails_growing (k a)) -> fails_growing (bind m k).
Proof.
  intros Hm Hk s e s' E. apply bind_inv_Raise in E.
  destruct E as [E|(a & s1 & E1 & E2)].
  - apply (grows_fails _ Hm _ _ _ E).
  - specialize (Hm s). rewrite E1 in Hm. destruct Hm as [l Hl].
    destruct (Hk a s1 e s' E2) as [l' Hl'].
    exists (l ++ l')%list. rewrite Hl', Hl, app_assoc. reflexivity.
Qed.

(** An assignment raises nothing. *)
Lemma setattr_never_raises a k v : fails_growing (setattr a k v).
Proof.
  intros s e s' E. unfold setattr, bind, get_obj, set_dict in E.
  destruct (heap s !! a) eqn:Ha; cbn in E; try rewrite Ha in E; discriminate.
Qed.

Ltac grows_step :=
  match goal with
  | |- grows (ret _) => apply grows_ret
  | |- grows (raise _) => apply grows_raise
  | |- grows (stop _) => apply grows_stop
  | |- grows get_state => apply grows_get_state
  | |- grows (get_obj _) => apply grows_get_obj
  | |- grows (alloc _) => apply grows_alloc
  | |- grows (bind _ _) => apply grows_bind; [|intros ?]
  | |- grows (match ?x with _ => _ end) => destruct x
  | |- grows (if ?x then _ else _) => destruct x
  end.

Ltac grows_tac := repeat grows_step.

Lemma grows_new_ExpressionAttributeAccess e n :
  grows (new_ExpressionAttributeAccess e n).
Proof. unfold new_ExpressionAttributeAccess. grows_tac. Qed.

Lemma grows_new_BinaryExpression l r o : grows (new_BinaryExpression l r o).
Proof. unfold new_BinaryExpression. grows_tac. Qed.

Lemma grows_getattr_plain a n : grows (getattr_plain a n).
Proof.
  unfold getattr_plain. grows_tac; apply grows_new_ExpressionAttributeAccess.
Qed.

Lemma grows_VarExpression_id a : grows (VarExpression_id a).
Proof.
  unfold VarExpression_id. apply grows_bind; [apply grows_getattr_plain|intros n].
  destruct (truthy n); [apply grows_ret|].
  apply grows_bind; [apply grows_getattr_plain|intros i]. grows_tac.
Qed.

Lemma grows_getattr a n : grows (getattr a n).
Proof.
  unfold getattr. apply grows_bind; [apply grows_get_obj|intros o].
  destruct (_ && _); [apply grows_VarExpression_id|apply grows_getattr_plain].
Qed.

Lemma grows_choice_lookup ch k : grows (choice_lookup ch k).
Proof. unfold choice_lookup. grows_tac. Qed.

Lemma grows_table_get t k : grows (table_get t k).
Proof. unfold table_get. grows_tac. Qed.

Lemma grows_Expression_binop o x b : grows (Expression_binop o x b).
Proof.
  unfold Expression_binop.
  destruct o; try apply grows_raise;
    (apply grows_bind; [apply grows_table_get|intros ?; apply grows_new_BinaryExpression]).
Qed.

Lemma grows_Expression_radd x b : grows (Expression_radd x b).
Proof.
  unfold Expression_radd.
  apply grows_bind; [apply grows_table_get|intros ?; apply grows_new_BinaryExpression].
Qed.

Lemma grows_Expression_rmul x b : grows (Expression_rmul x b).
Proof.
  unfold Expression_rmul.
  apply grows_bind; [apply grows_table_get|intros ?; apply grows_new_BinaryExpression].
Qed.

Lemma grows_int_dunder o x y : grows (int_dunder o x y).
Proof. unfold int_dunder. destruct o; grows_tac. Qed.

Lemma grows_builtin_dunder o a b : grows (builtin_dunder o a b).
Proof.
  unfold builtin_dunder.
  destruct a; try apply grows_stop.
  - destruct o, b; grows_tac.
  - destruct (int_of (VBool b0)), (int_of b);
      [destruct o, b; try apply grows_int_dunder; grows_tac | destruct o; grows_tac ..].
  - destruct (int_of (VInt z)), (int_of b);
      [destruct o, b; try apply grows_int_dunder; grows_tac | destruct o; grows_tac ..].
  - destruct o; grows_tac.
  - destruct o; grows_tac.
Qed.

Lemma grows_declining (m : M value) : grows m -> grows (declining m).
Proof.
  intros H s. unfold declining. specialize (H s).
  destruct (m s) as [a s1|e s1|r]; auto. destruct e; auto.
Qed.

Lemma grows_concrete_binop o a b : grows (concrete_binop o a b).
Proof.
  unfold concrete_binop.
  apply grows_bind; [apply grows_declining, grows_builtin_dunder|intros r].
  destruct (negb _); [apply grows_ret|].
  destruct (is_comparison o).
  - apply grows_bind; [apply grows_declining, grows_builtin_dunder|intros r'].
    destruct (negb _); [apply grows_ret|]. destruct o; grows_tac.
  - grows_tac.
Qed.

Lemma grows_py_binop_other o a b : grows (py_binop_other o a b).
Proof.
  unfold py_binop_other.
  destruct a; try apply grows_stop;
    try (destruct b; try apply grows_concrete_binop;
         destruct o; try apply grows_raise; try apply grows_Expression_radd;
         try apply grows_Expression_rmul; apply grows_Expression_binop).
  destruct o, b; try apply grows_stop; try apply grows_raise;
    apply grows_Expression_binop.
Qed.

Lemma grows_py_or m1 m2 : grows m1 -> grows m2 -> grows (py_or m1 m2).
Proof.
  intros H1 H2. unfold py_or. apply grows_bind; [exact H1|intros v].
  destruct (truthy v); [apply grows_ret|exact H2].
Qed.

Lemma grows_bounded_repr a : grows (bounded_repr a).
Proof.
  unfold bounded_repr. apply grows_bind; [apply grows_getattr|intros v].
  destruct v; try apply grows_ret.
  apply grows_bind; [apply grows_get_obj|intros o].
  apply grows_bind; [apply grows_VarExpression_id|intros i].
  apply grows_bind; [apply grows_getattr|intros lo].
  apply grows_bind; [apply grows_getattr|intros hi]. apply grows_ret.
Qed.

(** Whatever [Int.freeze] or [Float.freeze] raises, it raises before the
    assignment to [value]. *)
Lemma bounded_freeze_fails_growing self choice :
  fails_growing (bounded_freeze self choice).
Proof.
  unfold bounded_freeze.
  apply fails_growing_bind; [apply grows_VarExpression_id|intros i].
  apply fails_growing_bind; [apply grows_choice_lookup|intros c].
  apply fails_growing_bind; [apply grows_getattr|intros lo].
  apply fails_growing_bind; [apply grows_get_state|intros s0].
  apply fails_growing_bind.
  { destruct (isinstance_VarExpression s0 lo); [apply grows_ret|].
    apply grows_bind; [apply grows_getattr|intros hi].
    apply grows_bind; [apply grows_get_state|intros ?]. apply grows_ret. }
  intros some_var.
  apply fails_growing_bind; [|intros ?; apply setattr_never_raises].
  destruct (negb some_var); [|apply grows_ret].
  apply grows_bind.
  { apply grows_py_or;
      (apply grows_bind; [apply grows_getattr|intros ?; apply grows_py_binop_other]). }
  intros out. destruct (truthy out); [|apply grows_ret].
  apply grows_bind; [apply grows_bounded_repr|intros who].
  apply grows_bind; [apply grows_getattr|intros lo'].
  apply grows_bind; [apply grows_getattr|intros hi']. apply grows_raise.
Qed.

(** C10: when [freeze] of an Int or Float variable fails with the
    invalid-choice signal, the variable is, after the call, the object it
    was before it, its [value] field included: the signal is raised
    before the assignment. *)
Theorem failed_freeze_leaves_variable n s self o (choice : gmap string value)
    who lo hi got s' :
  heap s !! self = Some o ->
  ocls o = Int \/ ocls o = Float ->
  freeze (S n) self choice s = Raise (InvalidChoice who lo hi got) s' ->
  heap s' !! self = Some o
  /\ getattr self "value" s' = Ok (value_of o) s'.
Proof.
  intros Hself Hcls Hr. cbn [freeze] in Hr.
  rewrite (bind_Ok _ _ _ _ _ (get_obj_Ok _ _ _ Hself)) in Hr.
  assert (Hb : bounded_freeze self choice s = Raise (InvalidChoice who lo hi got) s').
  { destruct Hcls as [E|E]; rewrite E in Hr; exact Hr. }
  destruct (bounded_freeze_fails_growing self choice s _ _ Hb) as [l Hl].
  assert (Hnew : heap s' !! self = Some o).
  { rewrite Hl. apply lookup_app_l_Some. exact Hself. }
  split; [exact Hnew|].
  apply (getattr_value _ _ _ Hnew).
  destruct Hcls as [E|E]; rewrite E; reflexivity.
Qed.

Lemma failed_freeze_leaves_variable_witness :
  heap Int_0_10 !! 0%nat
  = Some (Obj Int (("_name", VNone) :: ("var_id", VInt 0) :: ("_low", VInt 0)
                   :: ("_high", VInt 10) :: ("_dist", VExt scipy_stats_randint) :: nil))
  /\ getattr 0%nat "value" Int_0_10 = Ok VNone Int_0_10.
Proof.
  apply (failed_freeze_leaves_variable 0 Int_0_10 0%nat
           (Obj Int (("_name", VNone) :: ("var_id", VInt 0) :: ("_low", VInt 0)
                     :: ("_high", VInt 10) :: ("_dist", VExt scipy_stats_randint) :: nil))
           {[ "0" := VInt 11 ]}
           (RVar Int (VStr "0") (VInt 0) (VInt 10)) (VInt 0) (VInt 10) (VInt 11) Int_0_10).
  - reflexivity.
  - left. reflexivity.
  - reflexivity.
Defined.

(** ** Calling a wrapped object *)



(** ** Evaluating a binary node *)

Lemma flatten_binary_dict l r sym :
  is_nested l = false -> is_nested r = false ->
  flatten (VDict (binary_dict l r sym)) = l :: VStr sym :: r :: nil.
Proof. destruct l; try discriminate; destruct r; try discriminate; reflexivity. Qed.

Lemma pack_binary_dict l r sym vl vo vr :
  is_nested l = false -> is_nested r = false ->
  pack (VDict (binary_dict l r sym)) (vl :: vo :: vr :: nil)
  = VDict (("left", vl) :: ("right", vr) :: ("operator", vo) :: nil).
Proof. destruct l; try discriminate; destruct r; try discriminate; reflexivity. Qed.

Lemma BinaryExpression_evaluate n s self l r sym attr o vl s1 vr s2 :
  heap s !! self = Some (Obj BinaryExpression (binary_dict l r sym)) ->
  is_nested l = false -> is_nested r = false ->
  evaluate_aux (evaluate n) l s = Ok vl s1 ->
  evaluate_aux (evaluate n) r s1 = Ok vr s2 ->
  assoc sym BIN_OPS_SYNTAX_2_ATTR = Some attr ->
  binop_of_attr attr = Some o ->
  evaluate (S n) self s
  = (set_dict self (binary_dict vl vr sym) ;; call_binary n o vl vr) s2.
Proof.
  intros Hself Hl Hr El Er Hattr Ho.
  cbn [evaluate].
  rewrite (bind_Ok _ _ _ _ _ (get_obj_Ok _ _ _ Hself)). cbn [ocls].
  assert (Hch : evaluate_children (evaluate n) self s
                = set_dict self (binary_dict vl vr sym) s2).
  { unfold evaluate_children.
    rewrite (bind_Ok _ _ _ _ _ (get_obj_Ok _ _ _ Hself)). cbn [odict].
    rewrite (flatten_binary_dict _ _ _ Hl Hr).
    rewrite (bind_Ok _ _ s (vl :: VStr sym :: vr :: nil) s2).
    - rewrite (pack_binary_dict _ _ _ _ _ _ Hl Hr). reflexivity.
    - apply (mapM_cons_Ok _ _ _ _ _ _ _ _ El).
      apply (mapM_cons_Ok _ _ _ s1 (VStr sym) s1); [reflexivity|].
      apply (mapM_cons_Ok _ _ _ _ _ _ _ _ Er). reflexivity. }
  apply bind_switch; [exact Hch|].
  intros [] s3 Hset.
  destruct (set_dict_lookup _ _ _ _ Hset) as [c Hnew].
  rewrite (bind_Ok _ _ _ _ _ (getattr_field _ _ _ "left" vl Hnew eq_refl eq_refl)).
  rewrite (bind_Ok _ _ _ _ _ (getattr_field _ _ _ "operator" (VStr sym) Hnew eq_refl eq_refl)).
  cbn [as_str]. rewrite (bind_Ok (ret sym) _ s3 sym s3 eq_refl).
  unfold table_get. rewrite Hattr.
  rewrite (bind_Ok (ret attr) _ s3 attr s3 eq_refl). rewrite Ho.
  rewrite (bind_Ok _ _ _ _ _ (getattr_field _ _ _ "right" vr Hnew eq_refl eq_refl)).
  reflexivity.
Qed.

(** C8: [evaluate()] of a BinaryExpression resolves the left child, then
    the right one, stores the results in the node, and applies the
    operator through the method of the resolved left operand alone; when
    that operand is a concrete value the result is what its own method
    answers, [NotImplemented] included ([ObjectExpression(2) < 2.5]
    evaluates to it although [2 < 2.5] holds).  Both
    [ObjectExpression(5) + ObjectExpression(3)] and the reflected
    [3 + ObjectExpression(5)] evaluate to 8. *)
Theorem BinaryExpression_dispatches_on_left n s self l r sym attr o vl s1 vr s2 :
  heap s !! self = Some (Obj BinaryExpression (binary_dict l r sym)) ->
  is_nested l = false -> is_nested r = false ->
  evaluate_aux (evaluate n) l s = Ok vl s1 ->
  evaluate_aux (evaluate n) r s1 = Ok vr s2 ->
  assoc sym BIN_OPS_SYNTAX_2_ATTR = Some attr ->
  binop_of_attr attr = Some o ->
  evaluate (S n) self s
  = (set_dict self (binary_dict vl vr sym) ;; call_binary n o vl vr) s2
  /\ (isinstance_Expression vl = false ->
      call_binary n o vl vr = builtin_dunder o vl vr)
  /\ (exists s', direct_sum empty_state = Ok (VInt 8) s')
  /\ (exists s', reflected_sum empty_state = Ok (VInt 8) s')
  /\ (exists s', declined_comparison empty_state = Ok VNotImplemented s')
  /\ py_binop 0 op_lt (VInt 2) (VFloat (5 # 2)) empty_state
     = Ok (VBool true) empty_state.
Proof.
  intros Hself Hl Hr El Er Hattr Ho.
  split; [exact (BinaryExpression_evaluate _ _ _ _ _ _ _ _ _ _ _ _ Hself Hl Hr El Er Hattr Ho)|].
  split; [intros Hv; destruct vl; try discriminate Hv; reflexivity|].
  repeat split; try (eexists; vm_compute; reflexivity).
Qed.

Lemma BinaryExpression_dispatches_on_left_witness :
  evaluate 2 2%nat two_wrapped
  = (set_dict 2%nat (binary_dict (VInt 5) (VInt 3) "+") ;;
     call_binary 1 op_add (VInt 5) (VInt 3)) two_wrapped.
Proof.
  apply (proj1 (BinaryExpression_dispatches_on_left 1 two_wrapped 2%nat
                  (VRef 0%nat) (VRef 1%nat) "+" "__add__" op_add
                  (VInt 5) two_wrapped (VInt 3) two_wrapped
                  eq_refl eq_refl eq_refl eq_refl eq_refl eq_refl eq_refl)).
Defined.

(** ** Discovering variables *)

Lemma written_app l1 l2 m : written (l1 ++ l2) m = written l2 (written l1 m).
Proof. apply fold_left_app. Qed.

(** [memo.update(d)] where [d] was written from nothing. *)
Lemma written_union l m : written l ∅ ∪ m = written l m.
Proof.
  induction l as [|p l IH] using rev_ind.
  - cbn. apply (left_id_L ∅ (∪)).
  - rewrite !written_app. cbn. rewrite <- IH. symmetry. apply insert_union_l.
Qed.

Lemma written_lookup i l : forall m acc,
  m !! i = acc ->
  written l m !! i
  = fold_left (fun acc p => if String.eqb (fst p) i then Some (snd p) else acc) l acc.
Proof.
  induction l as [|[k a] l IH]; intros m acc Hm; cbn; [exact Hm|].
  apply IH. destruct (String.eqb_spec k i) as [->|Hne].
  - apply lookup_insert_eq.
  - rewrite lookup_insert_ne; auto.
Qed.

Section Choices.
Variable n : nat.
Hypothesis IH : forall x s,
  choices n x s = outcome_map (fun l => written l ∅) (occurrences n x s).

Lemma choice_aux_occurrence seen o s :
  choice_aux (choices n) (written seen ∅) o s
  = outcome_map (fun l => written l ∅) (occurrence_aux (occurrences n) seen o s).
Proof.
  destruct o; try reflexivity.
  unfold choice_aux, occurrence_aux.
  apply bind_same. intros s0 s1.
  destruct (isinstance_VarExpression s0 (VRef a)).
  - apply bind_same. intros i s2. cbn. rewrite written_app. reflexivity.
  - apply (bind_map (fun l => written l ∅)); [apply IH|].
    intros l s2. cbn. rewrite written_app, written_union. reflexivity.
Qed.

Lemma foldM_choice_occurrence leaves : forall seen s,
  foldM (choice_aux (choices n)) (written seen ∅) leaves s
  = outcome_map (fun l => written l ∅)
      (foldM (occurrence_aux (occurrences n)) seen leaves s).
Proof.
  induction leaves as [|o leaves IHl]; intros seen s; [reflexivity|].
  cbn [foldM].
  apply (bind_map (fun l => written l ∅)); [apply choice_aux_occurrence|].
  intros l s1. apply IHl.
Qed.
End Choices.

(** [choices] writes the variables it meets in the order it meets them. *)
Lemma choices_occurrences n : forall self s,
  choices n self s = outcome_map (fun l => written l ∅) (occurrences n self s).
Proof.
  induction n as [|n IH]; intros self s; [reflexivity|].
  cbn [choices occurrences].
  apply bind_same. intros o s1.
  assert (Hvar : forall s,
    (let* i := id_key self in ret ({[ i := self ]} : gmap string addr)) s
    = outcome_map (fun l => written l ∅)
        ((let* i := id_key self in ret ((i, self) :: nil)) s)).
  { intros s0. apply bind_same. intros i s2. cbn. rewrite insert_empty. reflexivity. }
  destruct (ocls o); try apply Hvar;
    try apply (foldM_choice_occurrence n IH _ nil).
  apply bind_same. intros e s2.
  apply (bind_map (fun l => written l ∅)).
  { destruct e; try reflexivity. apply IH. }
  intros seen s3. apply bind_same. intros args s4.
  apply (bind_map (fun l => written l ∅)); [apply foldM_choice_occurrence, IH|].
  intros seen' s5. apply bind_same. intros kwargs s6.
  apply foldM_choice_occurrence, IH.
Qed.




(** ** Equality of variables *)

Section VariableEquality.
Variables (eq : value -> value -> M value) (s : state) (x y : addr) (ox oy : obj).
Hypothesis Hx : heap s !! x = Some ox.
Hypothesis Hy : heap s !! y = Some oy.
Hypothesis Hvar : is_var_cls (ocls ox) = true.
Hypothesis Hcls : ocls oy = ocls ox.

Lemma VarExpression_eq_values :
  VarExpression_eq eq x (VRef y) s = eq (value_of ox) (value_of oy) s.
Proof.
  unfold VarExpression_eq.
  rewrite (bind_Ok get_state _ s s s eq_refl).
  cbn [class_of]. rewrite Hx, Hy. cbn [fmap option_fmap option_map].
  rewrite Hcls, cls_eqb_refl.
  rewrite (bind_Ok _ _ _ _ _ (getattr_value _ _ _ Hx Hvar)).
  cbn [getattr_of].
  assert (Hvar' : is_var_cls (ocls oy) = true) by (rewrite Hcls; exact Hvar).
  rewrite (bind_Ok _ _ _ _ _ (getattr_value _ _ _ Hy Hvar')). reflexivity.
Qed.

Lemma eq_fields_same f vx vy :
  String.eqb f "id" = false ->
  assoc f (odict ox) = Some vx -> assoc f (odict oy) = Some vy ->
  eq_fields eq x f (VRef y) f s = eq vx vy s.
Proof.
  intros Hf Hfx Hfy. unfold eq_fields.
  rewrite (bind_Ok _ _ _ _ _ (getattr_field _ _ _ _ _ Hx Hfx Hf)).
  cbn [getattr_of].
  rewrite (bind_Ok _ _ _ _ _ (getattr_field _ _ _ _ _ Hy Hfy Hf)). reflexivity.
Qed.

Lemma unequal_values_decide r :
  eq (value_of ox) (value_of oy) s = Ok r s -> truthy r = false ->
  Expression_eq eq x (VRef y) s = Ok r s.
Proof.
  intros Hr Hf. unfold Expression_eq.
  rewrite (bind_Ok _ _ _ _ _ (get_obj_Ok _ _ _ Hx)).
  assert (Hand : forall m, py_and (VarExpression_eq eq x (VRef y)) m s = Ok r s).
  { intros m. unfold py_and.
    rewrite (bind_Ok _ _ s r s); [rewrite Hf; reflexivity|].
    rewrite VarExpression_eq_values. exact Hr. }
  destruct (ocls ox); try discriminate Hvar; apply Hand.
Qed.

Lemma List_eq_chain r cx cy kx ky px py r2 r3 r4 :
  ocls ox = List ->
  eq (value_of ox) (value_of oy) s = Ok r s ->
  assoc "_values" (odict ox) = Some cx -> assoc "_values" (odict oy) = Some cy ->
  assoc "_k" (odict ox) = Some kx -> assoc "_k" (odict oy) = Some ky ->
  assoc "_replace" (odict ox) = Some px -> assoc "_replace" (odict oy) = Some py ->
  eq cx cy s = Ok r2 s -> eq kx ky s = Ok r3 s -> eq px py s = Ok r4 s ->
  Expression_eq eq x (VRef y) s
  = Ok (if truthy r then if truthy r2 then if truthy r3 then r4 else r3 else r2 else r) s.
Proof.
  intros Hl Hr Hcx Hcy Hkx Hky Hpx Hpy H2 H3 H4. unfold Expression_eq.
  rewrite (bind_Ok _ _ _ _ _ (get_obj_Ok _ _ _ Hx)). rewrite Hl.
  unfold List_eq, py_and.
  rewrite (bind_Ok _ _ s r s); [|rewrite VarExpression_eq_values; exact Hr].
  destruct (truthy r); [|reflexivity].
  rewrite (bind_Ok _ _ s r2 s);
    [|rewrite (eq_fields_same "_values" cx cy eq_refl Hcx Hcy); exact H2].
  destruct (truthy r2); [|reflexivity].
  rewrite (bind_Ok _ _ s r3 s);
    [|rewrite (eq_fields_same "_k" kx ky eq_refl Hkx Hky); exact H3].
  destruct (truthy r3); [|reflexivity].
  rewrite (eq_fields_same "_replace" px py eq_refl Hpx Hpy). exact H4.
Qed.
End VariableEquality.

(** C7, as the code has it: between two variables of the same kind the
    identities play no part and the [value] fields are compared first, so
    two variables with different values are unequal; equal values do not
    suffice for two Lists, whose candidates, [k] and [replace] are compared
    next, in this order, the first comparison that fails deciding. *)
Theorem variables_compare_values_first n s x y ox oy r :
  heap s !! x = Some ox -> heap s !! y = Some oy ->
  is_var_cls (ocls ox) = true -> ocls oy = ocls ox ->
  py_eq n (value_of ox) (value_of oy) s = Ok r s ->
  (truthy r = false -> py_eq (S n) (VRef x) (VRef y) s = Ok r s)
  /\ (ocls ox = List ->
      forall cx cy kx ky px py r2 r3 r4,
        assoc "_values" (odict ox) = Some cx -> assoc "_values" (odict oy) = Some cy ->
        assoc "_k" (odict ox) = Some kx -> assoc "_k" (odict oy) = Some ky ->
        assoc "_replace" (odict ox) = Some px -> assoc "_replace" (odict oy) = Some py ->
        py_eq n cx cy s = Ok r2 s -> py_eq n kx ky s = Ok r3 s ->
        py_eq n px py s = Ok r4 s ->
        py_eq (S n) (VRef x) (VRef y) s
        = Ok (if truthy r then if truthy r2 then if truthy r3 then r4 else r3
                               else r2 else r) s).
Proof.
  intros Hx Hy Hvar Hcls Hr. split.
  - intros Hf. cbn [py_eq].
    apply (unequal_values_decide (py_eq n) s x y ox oy Hx Hy Hvar Hcls r Hr Hf).
  - intros Hl cx cy kx ky px py r2 r3 r4 Hcx Hcy Hkx Hky Hpx Hpy H2 H3 H4.
    cbn [py_eq].
    apply (List_eq_chain (py_eq n) s x y ox oy Hx Hy Hvar Hcls r cx cy kx ky px py
             r2 r3 r4 Hl Hr Hcx Hcy Hkx Hky Hpx Hpy H2 H3 H4).
Qed.

Lemma variables_compare_values_first_witness :
  py_eq 3 (VRef 0%nat) (VRef 1%nat) two_lists = Ok (VBool false) two_lists.
Proof.
  apply (proj2 (variables_compare_values_first 2 two_lists 0%nat 1%nat List_ab List_ac
                  (VBool true) eq_refl eq_refl eq_refl eq_refl eq_refl) eq_refl
           (VList (VStr "a" :: VStr "b" :: nil)) (VList (VStr "a" :: VStr "c" :: nil))
           VNone VNone (VBool false) (VBool false)
           (VBool false) (VBool true) (VBool true)); reflexivity.
Defined.

(** C7 as stated fails: [List(["a", "b"])] and [List(["a", "c"])], both
    frozen with index 0, hold the same value ["a"] and compare unequal. *)
Lemma same_value_Lists_unequal :
  (let* a := new_List (VStr "a" :: VStr "b" :: nil) VNone (VBool false) (VBool false) VNone in
   let* b := new_List (VStr "a" :: VStr "c" :: nil) VNone (VBool false) (VBool false) VNone in
   freeze 1 0%nat {[ "0" := VInt 0 ]} ;; freeze 1 1%nat {[ "1" := VInt 0 ]})
    empty_state = Ok tt two_lists
  /\ getattr 0%nat "value" two_lists = Ok (VStr "a") two_lists
  /\ getattr 1%nat "value" two_lists = Ok (VStr "a") two_lists
  /\ py_eq 1 (VStr "a") (VStr "a") two_lists = Ok (VBool true) two_lists
  /\ py_eq 3 (VRef 0%nat) (VRef 1%nat) two_lists = Ok (VBool false) two_lists.
Proof. repeat split; vm_compute; reflexivity. Qed.

(** ** Freezing a List *)

(** C2 fails on the code: [List.freeze] indexes the chosen value by the
    indices of the candidates.  With [List(["a", "b", "c"], k=1)] and the
    choice [[2]] the value becomes [["c"]] and the propagation raises
    IndexError; with two variables as candidates, [k=3] and the choice
    [[0, 0, 1]], [freeze] completes and the second candidate, which is in
    the value, is left unfrozen. *)
Theorem List_freeze_indexes_value_by_candidate :
  new_List (VStr "a" :: VStr "b" :: VStr "c" :: nil) (VInt 1) (VBool false)
           (VBool false) VNone empty_state
  = Ok (VRef 0%nat) three_letters
  /\ (exists s', freeze 1 0%nat {[ "0" := VList (VInt 2 :: nil) ]} three_letters
                 = Raise IndexError s'
                 /\ getattr 0%nat "value" s' = Ok (VList (VStr "c" :: nil)) s')
  /\ (exists s', freeze 2 2%nat pick_three_choice pick_three = Ok tt s'
                 /\ getattr 2%nat "value" s'
                    = Ok (VList (VRef 0%nat :: VRef 0%nat :: VRef 1%nat :: nil)) s'
                 /\ getattr 0%nat "value" s' = Ok (VInt 1) s'
                 /\ getattr 1%nat "value" s' = Ok VNone s').
Proof.
  split; [reflexivity|]. split.
  - eexists. split; vm_compute; reflexivity.
  - eexists. split; [vm_compute; reflexivity|]. repeat split; vm_compute; reflexivity.
Qed.

(** ** Sampling with a memo *)

(** A memo without runtime identities among its keys is never read. *)
Lemma sample_memo_not_read (L : library)
    (_sample : addr -> value -> rng L -> sample_memo -> M (sampled L))
    (self : addr) (size : value) (r : option (rng L))
    (m : gmap (addr + string) value) s :
  (forall a, m !! inl a = None) ->
  VarExpression_sample L _sample self size r (Some m) s
  = (let* res := _sample self size (match r with None => RandomState L | Some r => r end)
                         (Some m) in
     match snd (snd res) with
     | Some m' =>
         let* i := id_key self in
         ret (fst res, (fst (snd res), Some (<[inr i := fst res]> m')))
     | None => ret res
     end) s.
Proof.
  intros Hm. unfold VarExpression_sample. rewrite Hm.
  rewrite bool_decide_eq_false_2; [reflexivity|].
  intros [v Hv]. discriminate.
Qed.

Ltac inv_bind H :=
  let a := fresh "a" in let s1 := fresh "s" in let E := fresh "E" in
  apply bind_inv_Ok in H; destruct H as (a & s1 & E & H).

Lemma ret_inv {A} (a b : A) s s' : ret a s = Ok b s' -> a = b.
Proof. intros [= -> _]. reflexivity. Qed.

Section SampleKeys.
Variable L : library.
Variable rec : addr -> value -> option (rng L) -> sample_memo -> M (sampled L).
Hypothesis Hrec : forall x size r memo s res s',
  no_identity_keys memo -> rec x size r memo s = Ok res s' ->
  no_identity_keys (snd (snd res)).

Lemma sample_if_var_keys b size r memo s res s' :
  no_identity_keys memo -> sample_if_var L rec b size r memo s = Ok res s' ->
  no_identity_keys (snd (snd res)).
Proof.
  intros Hm H. unfold sample_if_var in H. inv_bind H.
  destruct (isinstance_VarExpression a b).
  - destruct b; try discriminate H. apply (Hrec _ _ _ _ _ _ _ Hm H).
  - apply ret_inv in H. subst res. exact Hm.
Qed.

Lemma Int_sample_keys self size r memo s res s' :
  no_identity_keys memo -> Int_sample L rec self size r memo s = Ok res s' ->
  no_identity_keys (snd (snd res)).
Proof.
  intros Hm H. unfold Int_sample in H.
  inv_bind H. inv_bind H. inv_bind H. inv_bind H. inv_bind H. inv_bind H.
  pose proof (sample_if_var_keys _ _ _ _ _ _ _ Hm E0) as H1.
  pose proof (sample_if_var_keys _ _ _ _ _ _ _ H1 E2) as H2.
  destruct a4; try discriminate H.
  destruct (Nat.eqb _ _); try discriminate H.
  apply ret_inv in H. subst res. exact H2.
Qed.

Lemma Float_sample_keys self size r memo s res s' :
  no_identity_keys memo -> Float_sample L rec self size r memo s = Ok res s' ->
  no_identity_keys (snd (snd res)).
Proof.
  intros Hm H. unfold Float_sample in H.
  inv_bind H. inv_bind H. inv_bind H. inv_bind H. inv_bind H. inv_bind H.
  pose proof (sample_if_var_keys _ _ _ _ _ _ _ Hm E0) as H1.
  pose proof (sample_if_var_keys _ _ _ _ _ _ _ H1 E2) as H2.
  destruct a4; try discriminate H.
  destruct (Nat.eqb _ _); try discriminate H.
  apply ret_inv in H. subst res. exact H2.
Qed.

Lemma List_sample_keys self size r memo s res s' :
  no_identity_keys memo -> List_sample L rec self size r memo s = Ok res s' ->
  no_identity_keys (snd (snd res)).
Proof.
  intros Hm H. unfold List_sample in H.
  inv_bind H.
  assert (Hk : forall s res s',
    (let* inv := getattr self "_invariant" in
     let* s1 := get_state in
     if truthy inv then
       if isinstance_VarExpression s1 a then sample_if_var L rec a size r memo
       else ret (np_full L size a, (r, memo))
     else if isinstance_VarExpression s1 a then
       let* sample_size := sample_if_var L rec a size r memo in
       let r := fst (snd sample_size) in
       let memo := snd (snd sample_size) in
       if truthy size then
         let* ixs := py_range size in
         match ixs with
         | VList l =>
             let* res :=
               foldM (fun acc i =>
                        let* n := List_length self in
                        let* rep := getattr self "_replace" in
                        let out := rng_choice L n (np_item L (fst sample_size) i)
                                              rep (snd acc) in
                        ret ((fst acc ++ np_tolist L (fst out) :: nil)%list, snd out))
                     (nil, r) l in
             ret (VList (fst res), (snd res, memo))
         | _ => stop External
         end
       else
         let* n := List_length self in
         let* rep := getattr self "_replace" in
         let out := rng_choice L n (fst sample_size) rep r in
         ret (fst out, (snd out, memo))
     else
       let* n := List_length self in
       let* rep := getattr self "_replace" in
       let out := rng_choice L n a rep r in
       ret (fst out, (snd out, memo))) s = Ok res s' ->
    no_identity_keys (snd (snd res))).
  { clear H. intros s2 res2 s2' H. inv_bind H. inv_bind H.
    destruct (truthy a0).
    - destruct (isinstance_VarExpression a1 a).
      + apply (sample_if_var_keys _ _ _ _ _ _ _ Hm H).
      + apply ret_inv in H. subst res2. exact Hm.
    - destruct (isinstance_VarExpression a1 a).
      + inv_bind H.
        pose proof (sample_if_var_keys _ _ _ _ _ _ _ Hm E2) as H1.
        destruct (truthy size).
        * inv_bind H. destruct a3; try discriminate H. inv_bind H.
          apply ret_inv in H. subst res2. exact H1.
        * inv_bind H. inv_bind H. apply ret_inv in H. subst res2. exact H1.
      + inv_bind H. inv_bind H. apply ret_inv in H. subst res2. exact Hm. }
  destruct a; try (apply (Hk _ _ _ H)).
  inv_bind H. destruct (truthy a).
  - apply ret_inv in H. subst res. exact Hm.
  - inv_bind H. apply ret_inv in H. subst res. exact Hm.
Qed.
End SampleKeys.

Lemma no_identity_keys_insert (m : gmap (addr + string) value) i v :
  no_identity_keys (Some m) -> no_identity_keys (Some (<[inr i := v]> m)).
Proof. intros H a. rewrite lookup_insert_ne; [apply H|discriminate]. Qed.

(** A memo that only [sample] writes never has a runtime identity among
    its keys. *)
Lemma sample_keeps_keys (L : library) n : forall self size r memo s res s',
  no_identity_keys memo -> sample L n self size r memo s = Ok res s' ->
  no_identity_keys (snd (snd res)).
Proof.
  induction n as [|n IH]; intros self size r memo s res s' Hm H; [discriminate H|].
  cbn [sample] in H. unfold VarExpression_sample in H.
  set (_sample := fun self size r memo =>
         let* o := get_obj self in
         match ocls o with
         | Int => Int_sample L (sample L n) self size r memo
         | Float => Float_sample L (sample L n) self size r memo
         | List => List_sample L (sample L n) self size r memo
         | _ => raise NotImplementedError
         end) in H.
  assert (Hs : forall self size r memo s res s',
    no_identity_keys memo -> _sample self size r memo s = Ok res s' ->
    no_identity_keys (snd (snd res))).
  { clear H Hm. intros self0 size0 r0 memo0 s0 res0 s0' Hm H. unfold _sample in H.
    inv_bind H. destruct (ocls a); try discriminate H.
    - apply (List_sample_keys L _ IH _ _ _ _ _ _ _ Hm H).
    - apply (Int_sample_keys L _ IH _ _ _ _ _ _ _ Hm H).
    - apply (Float_sample_keys L _ IH _ _ _ _ _ _ _ Hm H). }
  destruct memo as [m|].
  - rewrite bool_decide_eq_false_2 in H.
    2:{ intros [v Hv]. rewrite (Hm self) in Hv. discriminate. }
    inv_bind H. pose proof (Hs _ _ _ _ _ _ _ Hm E) as H1.
    destruct (snd (snd a)) as [m'|] eqn:Em.
    + inv_bind H. apply ret_inv in H. subst res. cbn [snd].
      apply no_identity_keys_insert. exact H1.
    + apply ret_inv in H. subst res. rewrite Em. exact I.
  - apply (Hs _ _ _ _ _ _ _ Hm H).
Qed.

(** C3 fails on the code: the memo is looked up under the runtime
    identity of the variable and written under its identity string, so a
    second [sample] on the same variable with the same memo draws again:
    with a source that counts, the first call returns 0 and the second 1. *)
Theorem sample_draws_again_with_shared_memo :
  new_Int (VInt 0) (VInt 100) VNone empty_state = Ok (VRef 0%nat) Int_0_100
  /\ sample counting_library 1 0%nat VNone (Some 0) (Some ∅) Int_0_100
     = Ok (VInt 0, (1, Some {[ inr "0" := VInt 0 ]})) Int_0_100
  /\ sample counting_library 1 0%nat VNone (Some 1) (Some {[ inr "0" := VInt 0 ]}) Int_0_100
     = Ok (VInt 1, (2, Some {[ inr "0" := VInt 1 ]})) Int_0_100.
Proof. repeat split; vm_compute; reflexivity. Qed.

(** ** Deep copies *)

(** C4 fails on the code: [__deepcopy__] copies [__dict__] with a memo of
    its own.  In [(v + 1) * v] both sites hold the one variable [v]; in
    the deep clone the site under the inner node and the site under the
    root hold two different copies of it. *)
Theorem deep_clone_duplicates_shared_variable :
  (let* v := new_Int (VInt 0) (VInt 10) VNone in
   let* inner := py_binop 0 op_add v (VInt 1) in
   py_binop 0 op_mul inner v) empty_state = Ok (VRef 2%nat) shared_graph
  /\ getattr 1%nat "left" shared_graph = Ok (VRef 0%nat) shared_graph
  /\ getattr 2%nat "right" shared_graph = Ok (VRef 0%nat) shared_graph
  /\ exists s', clone 10 2%nat true shared_graph = Ok (VRef 3%nat) s'
                /\ getattr 3%nat "left" s' = Ok (VRef 4%nat) s'
                /\ getattr 4%nat "left" s' = Ok (VRef 5%nat) s'
                /\ getattr 3%nat "right" s' = Ok (VRef 6%nat) s'
                /\ class_of s' (VRef 5%nat) = Some Int
                /\ class_of s' (VRef 6%nat) = Some Int.
Proof.
  split; [reflexivity|]. split; [reflexivity|]. split; [reflexivity|].
  eexists. split; [vm_compute; reflexivity|]. repeat split; vm_compute; reflexivity.
Qed.

(** * Further properties *)

(** ** Identities *)

Lemma getattr_plain_field s a o name v :
  heap s !! a = Some o -> assoc name (odict o) = Some v ->
  getattr_plain a name s = Ok v s.
Proof.
  intros Ha Hf. unfold getattr_plain.
  rewrite (bind_Ok _ _ _ _ _ (get_obj_Ok _ _ _ Ha)). rewrite Hf. reflexivity.
Qed.

Lemma VarExpression_id_of s a o i :
  heap s !! a = Some o -> identity_of o = Some i ->
  VarExpression_id a s = Ok (VStr i) s.
Proof.
  intros Ha Hi. unfold identity_of in Hi. unfold VarExpression_id.
  destruct (assoc "_name" (odict o)) as [nm|] eqn:Hn; [|discriminate].
  rewrite (bind_Ok _ _ _ _ _ (getattr_plain_field _ _ _ _ _ Ha Hn)).
  destruct (truthy nm).
  - destruct nm; try discriminate. injection Hi as ->. reflexivity.
  - destruct (assoc "var_id" (odict o)) as [v|] eqn:Hv; [|discriminate].
    rewrite (bind_Ok _ _ _ _ _ (getattr_plain_field _ _ _ _ _ Ha Hv)).
    destruct v; try discriminate. injection Hi as <-. reflexivity.
Qed.

Lemma id_key_of s a o i :
  heap s !! a = Some o -> identity_of o = Some i -> id_key a s = Ok i s.
Proof.
  intros Ha Hi. unfold id_key.
  rewrite (bind_Ok _ _ _ _ _ (VarExpression_id_of _ _ _ _ Ha Hi)). reflexivity.
Qed.

Lemma assoc_set_other {A} k k' (v : A) d :
  String.eqb k' k = false -> assoc k' (assoc_set k v d) = assoc k' d.
Proof.
  intros Hk. induction d as [|[k0 v0] d IH]; cbn.
  - rewrite Hk. reflexivity.
  - destruct (String.eqb_spec k k0) as [->|Hne]; cbn.
    + rewrite Hk. reflexivity.
    + destruct (String.eqb k' k0); [reflexivity|exact IH].
Qed.

Lemma identity_of_set_value c d v :
  identity_of (Obj c (assoc_set "value" v d)) = identity_of (Obj c d).
Proof.
  unfold identity_of. cbn [odict].
  rewrite !(assoc_set_other "value"); reflexivity.
Qed.

(** The decimal rendering of an integer determines the integer. *)
Lemma str_of_int_inj z1 z2 : str_of_int z1 = str_of_int z2 -> z1 = z2.
Proof.
  unfold str_of_int. intros H.
  assert (Hn : forall z, Z.to_int z <> Decimal.Pos Decimal.Nil
                         /\ Z.to_int z <> Decimal.Neg Decimal.Nil).
  { intros z. pose proof (DecimalZ.to_of (Z.to_int z)) as E.
    rewrite DecimalZ.of_to in E.
    split; intros E'; rewrite E' in E; discriminate E. }
  apply DecimalZ.to_int_inj.
  pose proof (NilZero.isi (Z.to_int z1) (proj1 (Hn z1)) (proj2 (Hn z1))) as E1.
  pose proof (NilZero.isi (Z.to_int z2) (proj1 (Hn z2)) (proj2 (Hn z2))) as E2.
  rewrite H in E1. rewrite E1 in E2. injection E2 as ->. reflexivity.
Qed.

Lemma VarExpression_init_spec c name rest s :
  let o := Obj c (("_name", name) :: ("var_id", VInt (var_counter s)) :: rest) in
  exists s',
    VarExpression_init c name rest s = Ok (VRef (length (heap s))) s'
    /\ var_counter s' = var_counter s + 1
    /\ (forall a o, heap s !! a = Some o -> heap s' !! a = Some o)
    /\ heap s' !! (length (heap s) : addr) = Some o.
Proof.
  cbn zeta.
  set (o := Obj c (("_name", name) :: ("var_id", VInt (var_counter s)) :: rest)).
  set (s' := State (heap s ++ o :: nil)%list (var_counter s + 1)).
  exists s'.
  split; [reflexivity|]. split; [reflexivity|].
  split; [intros a o' Ha; unfold s'; cbn [heap]; apply lookup_app_l_Some; exact Ha|].
  unfold s'. cbn [heap]. rewrite lookup_app_r by lia.
  rewrite Nat.sub_diag. reflexivity.
Qed.

(** X1: constructing a variable of any kind adds one object, leaves the
    others as they are, and increments the counter whether or not a name
    was given; the identity of the new variable is the name when the name
    is true, and the decimal string of the counter before the construction
    otherwise (no name, or the empty string). *)
Theorem new_variable_identity c name rest s :
  exists s',
    VarExpression_init c name rest s = Ok (VRef (length (heap s))) s'
    /\ var_counter s' = var_counter s + 1
    /\ (forall a o, heap s !! a = Some o -> heap s' !! a = Some o)
    /\ class_of s' (VRef (length (heap s))) = Some c
    /\ VarExpression_id (length (heap s)) s'
       = Ok (if truthy name then name else VStr (str_of_int (var_counter s))) s'.
Proof.
  destruct (VarExpression_init_spec c name rest s) as (s' & E & Hc & Hk & Hnew).
  exists s'. split; [exact E|]. split; [exact Hc|]. split; [exact Hk|].
  split.
  - unfold class_of. rewrite Hnew. reflexivity.
  - unfold VarExpression_id.
    rewrite (bind_Ok _ _ _ _ _ (getattr_plain_field _ _ _ "_name" name Hnew eq_refl)).
    destruct (truthy name); [reflexivity|].
    rewrite (bind_Ok _ _ _ _ _ (getattr_plain_field _ _ _ "var_id" _ Hnew eq_refl)).
    reflexivity.
Qed.

(** X2: two variables constructed one after the other without a name have
    different identities. *)
Theorem successive_default_identities_differ c1 c2 rest1 rest2 s a s1 b s2 :
  VarExpression_init c1 VNone rest1 s = Ok (VRef a) s1 ->
  VarExpression_init c2 VNone rest2 s1 = Ok (VRef b) s2 ->
  exists i j, VarExpression_id a s2 = Ok (VStr i) s2
              /\ VarExpression_id b s2 = Ok (VStr j) s2
              /\ i <> j.
Proof.
  intros H1 H2.
  destruct (VarExpression_init_spec c1 VNone rest1 s) as (s1' & E1 & Hc1 & _ & Ha).
  rewrite E1 in H1. injection H1 as <- <-.
  destruct (VarExpression_init_spec c2 VNone rest2 s1') as (s2' & E2 & _ & Hk2 & Hb).
  rewrite E2 in H2. injection H2 as <- <-.
  exists (str_of_int (var_counter s)), (str_of_int (var_counter s1')).
  split; [|split].
  - apply (VarExpression_id_of _ _ _ _ (Hk2 _ _ Ha)). reflexivity.
  - apply (VarExpression_id_of _ _ _ _ Hb). reflexivity.
  - intros E. apply str_of_int_inj in E. lia.
Qed.

Lemma successive_default_identities_differ_witness :
  exists i j,
    VarExpression_id 0%nat
      (State (Obj Int (("_name", VNone) :: ("var_id", VInt 0) :: nil)
              :: Obj Float (("_name", VNone) :: ("var_id", VInt 1) :: nil) :: nil) 2)
    = Ok (VStr i)
      (State (Obj Int (("_name", VNone) :: ("var_id", VInt 0) :: nil)
              :: Obj Float (("_name", VNone) :: ("var_id", VInt 1) :: nil) :: nil) 2)
    /\ VarExpression_id 1%nat
      (State (Obj Int (("_name", VNone) :: ("var_id", VInt 0) :: nil)
              :: Obj Float (("_name", VNone) :: ("var_id", VInt 1) :: nil) :: nil) 2)
    = Ok (VStr j)
      (State (Obj Int (("_name", VNone) :: ("var_id", VInt 0) :: nil)
              :: Obj Float (("_name", VNone) :: ("var_id", VInt 1) :: nil) :: nil) 2)
    /\ i <> j.
Proof.
  apply (successive_default_identities_differ Int Float nil nil empty_state
           0%nat (State (Obj Int (("_name", VNone) :: ("var_id", VInt 0) :: nil) :: nil) 1)
           1%nat); reflexivity.
Defined.

(** ** Freezing and evaluating a bounded variable *)

Lemma Qcompare_inject_Z x y : (inject_Z x ?= inject_Z y)%Q = (x ?= y)%Z.
Proof. unfold Qcompare. cbn. rewrite !Z.mul_1_r. reflexivity. Qed.

Lemma holds_swapped o p q : holds (swapped o) (q ?= p)%Q = holds o (p ?= q)%Q.
Proof.
  rewrite <- (Qcompare_antisym p q).
  destruct o, (p ?= q)%Q; reflexivity.
Qed.

Lemma lt_gt_swap (p q : Q) :
  match (q ?= p)%Q with Lt => true | _ => false end
  = match (p ?= q)%Q with Gt => true | _ => false end.
Proof. rewrite <- (Qcompare_antisym p q). destruct (p ?= q)%Q; reflexivity. Qed.

(** [a > b] on two numbers compares the rationals they denote. *)
Lemma py_gt_num a b qa qb s :
  num_of a = Some qa -> num_of b = Some qb ->
  py_binop_other op_gt a b s = Ok (VBool (holds op_gt (qa ?= qb)%Q)) s.
Proof.
  intros Ha Hb.
  destruct a; try discriminate Ha; destruct b; try discriminate Hb;
    cbn in Ha, Hb; injection Ha as <-; injection Hb as <-;
    repeat match goal with b : bool |- _ => destruct b end;
    cbn; unfold bind, declining, ret; cbn;
    rewrite ?Qcompare_inject_Z, ?lt_gt_swap; reflexivity.
Qed.

Lemma outside_spec lo hi c :
  (outside lo hi c = true <-> (c < lo \/ hi < c)%Q)
  /\ (outside lo hi c = false <-> (lo <= c <= hi)%Q).
Proof.
  unfold outside.
  assert (H1 : holds op_gt (lo ?= c)%Q = true <-> (c < lo)%Q).
  { rewrite Qlt_alt. rewrite <- (Qcompare_antisym lo c).
    destruct (lo ?= c)%Q; cbn; split; congruence. }
  assert (H2 : holds op_gt (c ?= hi)%Q = true <-> (hi < c)%Q).
  { rewrite Qlt_alt. rewrite <- (Qcompare_antisym c hi).
    destruct (c ?= hi)%Q; cbn; split; congruence. }
  split.
  - rewrite orb_true_iff, H1, H2. reflexivity.
  - rewrite orb_false_iff. rewrite <- !not_true_iff_false, H1, H2.
    split.
    + intros [A B]. split; apply Qnot_lt_le; assumption.
    + intros [A B]. split; apply Qle_not_lt; assumption.
Qed.

(** A frozen variable whose value is a plain leaf evaluates to it. *)
Lemma evaluate_frozen_leaf n s a o :
  heap s !! a = Some o -> is_var_cls (ocls o) = true ->
  isinstance_Expression (value_of o) = false -> is_nested (value_of o) = false ->
  evaluate (S n) a s = Ok (value_of o) s.
Proof.
  intros Ha Hc Hx Hn.
  pose proof (getattr_value _ _ _ Ha Hc) as Hv.
  cbn [evaluate].
  rewrite (bind_Ok _ _ _ _ _ (get_obj_Ok _ _ _ Ha)).
  destruct (ocls o); try discriminate Hc;
    rewrite (bind_Ok _ _ _ _ _ Hv); rewrite Hx, Hn; exact Hv.
Qed.

Lemma value_of_set c d v : value_of (Obj c (assoc_set "value" v d)) = v.
Proof. unfold value_of. cbn [odict]. rewrite assoc_set_same. reflexivity. Qed.

Lemma setattr_Ok s a c d k v :
  heap s !! a = Some (Obj c d) ->
  let s' := State (<[a := Obj c (assoc_set k v d)]> (heap s)) (var_counter s) in
  setattr a k v s = Ok tt s'
  /\ heap s' !! a = Some (Obj c (assoc_set k v d))
  /\ (forall b, b <> a -> heap s' !! b = heap s !! b).
Proof.
  intros Ha. cbn zeta. split; [|split].
  - unfold setattr. rewrite (bind_Ok _ _ _ _ _ (get_obj_Ok _ _ _ Ha)).
    unfold set_dict. rewrite Ha. reflexivity.
  - cbn [heap]. apply list_lookup_insert_eq. apply lookup_lt_Some in Ha. exact Ha.
  - intros b Hb. cbn [heap]. apply list_lookup_insert_ne. congruence.
Qed.

Section NumericFreeze.
Variables (s : state) (self : addr) (c0 : cls) (d : list (string * value)).
Variables (i : string) (lo hi : value) (choice : gmap string value) (c : value).
Hypothesis Hself : heap s !! self = Some (Obj c0 d).
Hypothesis Hcls : is_var_cls c0 = true.
Hypothesis Hlo : assoc "_low" d = Some lo.
Hypothesis Hhi : assoc "_high" d = Some hi.
Hypothesis Hid : identity_of (Obj c0 d) = Some i.
Hypothesis Hc : choice !! i = Some c.

Lemma field_low : getattr self "_low" s = Ok lo s.
Proof. apply (getattr_field _ _ _ _ _ Hself Hlo). reflexivity. Qed.

Lemma field_high : getattr self "_high" s = Ok hi s.
Proof. apply (getattr_field _ _ _ _ _ Hself Hhi). reflexivity. Qed.

Lemma bounded_repr_any : exists who, bounded_repr self s = Ok who s.
Proof.
  unfold bounded_repr.
  rewrite (bind_Ok _ _ _ _ _ (getattr_value _ _ _ Hself Hcls)).
  destruct (value_of (Obj c0 d)); try (eexists; reflexivity).
  rewrite (bind_Ok _ _ _ _ _ (get_obj_Ok _ _ _ Hself)).
  rewrite (bind_Ok _ _ _ _ _ (VarExpression_id_of _ _ _ _ Hself Hid)).
  rewrite (bind_Ok _ _ _ _ _ field_low).
  rewrite (bind_Ok _ _ _ _ _ field_high). eexists. reflexivity.
Qed.

(** The lookups that precede the test of the bounds. *)
Lemma bounded_freeze_prefix (k : value -> M bool) :
  bounded_freeze self choice s
  = (let* some_var :=
       if isinstance_VarExpression s lo then ret true
       else
         let* hi := getattr self "_high" in
         let* s' := get_state in
         ret (isinstance_VarExpression s' hi) in
     (if negb some_var then
        let* out :=
          py_or (let* lo := getattr self "_low" in py_binop_other op_gt lo c)
                (let* hi := getattr self "_high" in py_binop_other op_gt c hi) in
        if truthy out then
          let* who := bounded_repr self in
          let* lo := getattr self "_low" in
          let* hi := getattr self "_high" in
          raise (InvalidChoice who lo hi c)
        else ret tt
      else ret tt) ;;
     setattr self "value" c) s.
Proof.
  unfold bounded_freeze.
  rewrite (bind_Ok _ _ _ _ _ (VarExpression_id_of _ _ _ _ Hself Hid)).
  unfold choice_lookup at 1. rewrite Hc.
  rewrite (bind_Ok (ret c) _ s c s eq_refl).
  rewrite (bind_Ok _ _ _ _ _ field_low).
  rewrite (bind_Ok get_state _ s s s eq_refl). reflexivity.
Qed.

(** A bound that is a variable: no validation. *)
Lemma bounded_freeze_unvalidated :
  isinstance_VarExpression s lo = true \/ isinstance_VarExpression s hi = true ->
  bounded_freeze self choice s = setattr self "value" c s.
Proof.
  intros Hv. rewrite (bounded_freeze_prefix (fun _ => ret true)).
  assert (E : (if isinstance_VarExpression s lo then ret true
               else
                 let* hi := getattr self "_high" in
                 let* s' := get_state in
                 ret (isinstance_VarExpression s' hi)) s = Ok true s).
  { destruct (isinstance_VarExpression s lo) eqn:El; [reflexivity|].
    destruct Hv as [Hv|Hv]; [discriminate|].
    rewrite (bind_Ok _ _ _ _ _ field_high).
    rewrite (bind_Ok get_state _ s s s eq_refl). rewrite Hv. reflexivity. }
  rewrite (bind_Ok _ _ _ _ _ E). reflexivity.
Qed.

Section Literal.
Variables qlo qhi qc : Q.
Hypothesis Nlo : num_of lo = Some qlo.
Hypothesis Nhi : num_of hi = Some qhi.
Hypothesis Nc : num_of c = Some qc.

Lemma num_not_var st v q : num_of v = Some q -> isinstance_VarExpression st v = false.
Proof. destruct v; try discriminate; reflexivity. Qed.

Lemma numeric_test :
  py_or (let* lo := getattr self "_low" in py_binop_other op_gt lo c)
        (let* hi := getattr self "_high" in py_binop_other op_gt c hi) s
  = Ok (VBool (outside qlo qhi qc)) s.
Proof.
  unfold py_or, outside.
  rewrite (bind_Ok _ _ s (VBool (holds op_gt (qlo ?= qc)%Q)) s).
  2:{ rewrite (bind_Ok _ _ _ _ _ field_low). apply py_gt_num; assumption. }
  destruct (holds op_gt (qlo ?= qc)%Q); cbn [truthy orb]; [reflexivity|].
  rewrite (bind_Ok _ _ _ _ _ field_high). apply py_gt_num; assumption.
Qed.

Lemma numeric_freeze_steps :
  bounded_freeze self choice s
  = ((if outside qlo qhi qc then
        let* who := bounded_repr self in
        let* lo := getattr self "_low" in
        let* hi := getattr self "_high" in
        raise (InvalidChoice who lo hi c)
      else ret tt) ;; setattr self "value" c) s.
Proof.
  rewrite (bounded_freeze_prefix (fun _ => ret true)).
  rewrite (num_not_var s lo qlo Nlo).
  rewrite (bind_Ok _ _ s false s).
  2:{ rewrite (bind_Ok _ _ _ _ _ field_high).
      rewrite (bind_Ok get_state _ s s s eq_refl).
      rewrite (num_not_var s hi qhi Nhi). reflexivity. }
  cbn [negb]. apply bind_switch; [|reflexivity].
  rewrite (bind_Ok _ _ _ _ _ numeric_test). reflexivity.
Qed.

Lemma numeric_freeze_outside :
  outside qlo qhi qc = true ->
  exists who, bounded_freeze self choice s = Raise (InvalidChoice who lo hi c) s.
Proof.
  intros Ho. destruct bounded_repr_any as [who Hwho]. exists who.
  rewrite numeric_freeze_steps, Ho. apply bind_Raise.
  rewrite (bind_Ok _ _ _ _ _ Hwho).
  rewrite (bind_Ok _ _ _ _ _ field_low).
  rewrite (bind_Ok _ _ _ _ _ field_high). reflexivity.
Qed.

Lemma numeric_freeze_inside :
  outside qlo qhi qc = false ->
  bounded_freeze self choice s = setattr self "value" c s.
Proof. intros Ho. rewrite numeric_freeze_steps, Ho. reflexivity. Qed.
End Literal.
End NumericFreeze.

Lemma freeze_bounded n s self o choice :
  heap s !! self = Some o -> ocls o = Int \/ ocls o = Float ->
  freeze (S n) self choice s = bounded_freeze self choice s.
Proof.
  intros Ha Hc. cbn [freeze].
  rewrite (bind_Ok _ _ _ _ _ (get_obj_Ok _ _ _ Ha)).
  destruct Hc as [-> | ->]; reflexivity.
Qed.

Lemma bounded_is_var c0 : c0 = Int \/ c0 = Float -> is_var_cls c0 = true.
Proof. intros [-> | ->]; reflexivity. Qed.

(** X3: for an Int or Float variable whose bounds are numbers, [freeze]
    with a number chosen under its identity compares the three as exact
    numbers: a choice below [low] or above [high] raises the invalid-choice
    signal and changes nothing; any other choice is stored, and
    [evaluate] then returns it. *)
Theorem bounded_freeze_round_trip n s self c0 d i lo hi c qlo qhi qc
    (choice : gmap string value) :
  heap s !! self = Some (Obj c0 d) -> c0 = Int \/ c0 = Float ->
  assoc "_low" d = Some lo -> assoc "_high" d = Some hi ->
  identity_of (Obj c0 d) = Some i -> choice !! i = Some c ->
  num_of lo = Some qlo -> num_of hi = Some qhi -> num_of c = Some qc ->
  ((qc < qlo \/ qhi < qc)%Q ->
   exists who, freeze (S n) self choice s = Raise (InvalidChoice who lo hi c) s)
  /\ ((qlo <= qc <= qhi)%Q ->
      exists s', freeze (S n) self choice s = Ok tt s'
                 /\ heap s' !! self = Some (Obj c0 (assoc_set "value" c d))
                 /\ forall m, evaluate (S m) self s' = Ok c s').
Proof.
  intros Hself Hcls Hlo Hhi Hid Hc Nlo Nhi Nc.
  pose proof (bounded_is_var _ Hcls) as Hvar.
  rewrite (freeze_bounded n s self _ choice Hself Hcls).
  split.
  - intros Hout. apply (proj1 (outside_spec qlo qhi qc)) in Hout.
    apply (numeric_freeze_outside s self c0 d i lo hi choice c
             Hself Hvar Hlo Hhi Hid Hc qlo qhi qc Nlo Nhi Nc Hout).
  - intros Hin. apply (proj2 (outside_spec qlo qhi qc)) in Hin.
    rewrite (numeric_freeze_inside s self c0 d i lo hi choice c
               Hself Hlo Hhi Hid Hc qlo qhi qc Nlo Nhi Nc Hin).
    destruct (setattr_Ok s self c0 d "value" c Hself) as (Hset & Hnew & _).
    eexists. split; [exact Hset|]. split; [exact Hnew|].
    intros m.
    pose proof (evaluate_frozen_leaf m _ self _ Hnew Hvar) as He.
    rewrite value_of_set in He. apply He; destruct c; try discriminate Nc; reflexivity.
Qed.

Lemma bounded_freeze_round_trip_witness :
  exists s', freeze 1 0%nat {[ "0" := VFloat (1 # 2) ]} (State (Float_unit_obj :: nil) 1)
             = Ok tt s'
             /\ heap s' !! 0%nat
                = Some (Obj Float (assoc_set "value" (VFloat (1 # 2)) (odict Float_unit_obj)))
             /\ forall m, evaluate (S m) 0%nat s' = Ok (VFloat (1 # 2)) s'.
Proof.
  destruct (bounded_freeze_round_trip 0 (State (Float_unit_obj :: nil) 1) 0%nat
              Float (odict Float_unit_obj) "0" (VFloat 0) (VFloat 1) (VFloat (1 # 2))
              0%Q 1%Q (1 # 2)%Q {[ "0" := VFloat (1 # 2) ]}) as [_ H];
    try reflexivity; [right; reflexivity|].
  apply H. split; discriminate.
Defined.

(** X4: when either bound of an Int or Float variable is itself a
    variable, [freeze] validates nothing: whatever is chosen under the
    identity is stored, and no other object changes. *)
Theorem variable_bound_skips_validation n s self c0 d i lo hi c
    (choice : gmap string value) :
  heap s !! self = Some (Obj c0 d) -> c0 = Int \/ c0 = Float ->
  assoc "_low" d = Some lo -> assoc "_high" d = Some hi ->
  identity_of (Obj c0 d) = Some i -> choice !! i = Some c ->
  isinstance_VarExpression s lo = true \/ isinstance_VarExpression s hi = true ->
  exists s', freeze (S n) self choice s = Ok tt s'
             /\ heap s' !! self = Some (Obj c0 (assoc_set "value" c d))
             /\ forall b, b <> self -> heap s' !! b = heap s !! b.
Proof.
  intros Hself Hcls Hlo Hhi Hid Hc Hv.
  rewrite (freeze_bounded n s self _ choice Hself Hcls).
  rewrite (bounded_freeze_unvalidated s self c0 d i lo hi choice c
             Hself Hlo Hhi Hid Hc Hv).
  destruct (setattr_Ok s self c0 d "value" c Hself) as (Hset & Hnew & Hrest).
  eexists. split; [exact Hset|]. split; [exact Hnew|exact Hrest].
Qed.

Lemma variable_bound_skips_validation_witness :
  exists s', freeze 1 1%nat {[ "x" := VInt 99 ]} dependent_bound = Ok tt s'
             /\ heap s' !! 1%nat
                = Some (Obj Int (assoc_set "value" (VInt 99)
                          (("_name", VStr "x") :: ("var_id", VInt 1) :: ("_low", VInt 0)
                           :: ("_high", VRef 0%nat)
                           :: ("_dist", VExt scipy_stats_randint) :: nil)))
             /\ forall b, b <> 1%nat -> heap s' !! b = heap dependent_bound !! b.
Proof.
  eapply (variable_bound_skips_validation 0 dependent_bound 1%nat Int _ "x"
           (VInt 0) (VRef 0%nat) (VInt 99) {[ "x" := VInt 99 ]});
    try reflexivity; [left; reflexivity|right; reflexivity].
Defined.

(** X5: [freeze] of a variable whose identity is not a key of the choice
    mapping raises KeyError with that identity and changes nothing; for a
    List this holds when [k] is not a variable. *)
Theorem freeze_missing_identity n s self c0 d i (choice : gmap string value) :
  heap s !! self = Some (Obj c0 d) ->
  identity_of (Obj c0 d) = Some i -> choice !! i = None ->
  c0 = Int \/ c0 = Float
  \/ (c0 = List /\ exists k inv, assoc "_k" d = Some k
                                 /\ assoc "_invariant" d = Some inv
                                 /\ isinstance_VarExpression s k = false) ->
  freeze (S n) self choice s = Raise (KeyError i) s.
Proof.
  intros Hself Hid Hc Hcls.
  pose proof (VarExpression_id_of _ _ _ _ Hself Hid) as Hi.
  assert (Hlook : (let* i := VarExpression_id self in choice_lookup choice i) s
                  = Raise (KeyError i) s).
  { rewrite (bind_Ok _ _ _ _ _ Hi). cbn [choice_lookup]. rewrite Hc. reflexivity. }
  destruct Hcls as [Hb|[Hb|(-> & k & inv & Hk & Hinv & Hkv)]].
  - rewrite (freeze_bounded n s self _ choice Hself (or_introl Hb)).
    unfold bounded_freeze. rewrite (bind_Ok _ _ _ _ _ Hi).
    apply bind_Raise. cbn [choice_lookup]. rewrite Hc. reflexivity.
  - rewrite (freeze_bounded n s self _ choice Hself (or_intror Hb)).
    unfold bounded_freeze. rewrite (bind_Ok _ _ _ _ _ Hi).
    apply bind_Raise. cbn [choice_lookup]. rewrite Hc. reflexivity.
  - cbn [freeze]. rewrite (bind_Ok _ _ _ _ _ (get_obj_Ok _ _ _ Hself)). cbn [ocls].
    pose proof (getattr_field _ _ _ "_k" k Hself Hk eq_refl) as Gk.
    pose proof (getattr_field _ _ _ "_invariant" inv Hself Hinv eq_refl) as Ginv.
    unfold List_freeze. rewrite (bind_Ok _ _ _ _ _ Gk). apply bind_Raise.
    assert (Hid1 : forall (K : value -> M value),
              (let* i := VarExpression_id self in
               let* idx := choice_lookup choice i in K idx) s = Raise (KeyError i) s).
    { intros K. rewrite (bind_Ok _ _ _ _ _ Hi). apply bind_Raise.
      cbn [choice_lookup]. rewrite Hc. reflexivity. }
    assert (Hpresent :
      (let* inv := getattr self "_invariant" in
       if truthy inv then
         let* k := getattr self "_k" in
         let* s := get_state in
         if isinstance_VarExpression s k then
           let* i := getattr_of k "id" in
           let* n := choice_lookup choice i in py_range n
         else
           let* i := VarExpression_id self in
           let* n := choice_lookup choice i in py_range n
       else
         let* i := VarExpression_id self in
         let* idx := choice_lookup choice i in
         match idx with
         | VList _ => ret idx
         | _ => raise AssertionError
         end) s = Raise (KeyError i) s).
    { rewrite (bind_Ok _ _ _ _ _ Ginv). destruct (truthy inv); [|apply Hid1].
      rewrite (bind_Ok _ _ _ _ _ Gk).
      rewrite (bind_Ok get_state _ s s s eq_refl). rewrite Hkv. apply Hid1. }
    destruct k; try exact Hpresent. apply Hid1.
Qed.

Lemma freeze_missing_identity_witness :
  freeze 1 0%nat ∅ three_letters = Raise (KeyError "0") three_letters.
Proof.
  eapply (freeze_missing_identity 0 three_letters 0%nat List _ "0" ∅);
    try reflexivity.
  right. right. split; [reflexivity|].
  exists (VInt 1), (VBool false). repeat split.
Defined.

(** X6: freezing a bounded variable again overwrites its value: after two
    valid choices in a row, [evaluate] returns the second. *)
Theorem refreeze_overwrites n s self c0 d i lo hi c1 c2 qlo qhi q1 q2
    (choice1 choice2 : gmap string value) :
  heap s !! self = Some (Obj c0 d) -> c0 = Int \/ c0 = Float ->
  assoc "_low" d = Some lo -> assoc "_high" d = Some hi ->
  identity_of (Obj c0 d) = Some i ->
  choice1 !! i = Some c1 -> choice2 !! i = Some c2 ->
  num_of lo = Some qlo -> num_of hi = Some qhi ->
  num_of c1 = Some q1 -> num_of c2 = Some q2 ->
  (qlo <= q1 <= qhi)%Q -> (qlo <= q2 <= qhi)%Q ->
  exists s1 s2,
    freeze (S n) self choice1 s = Ok tt s1
    /\ freeze (S n) self choice2 s1 = Ok tt s2
    /\ forall m, evaluate (S m) self s2 = Ok c2 s2.
Proof.
  intros Hself Hcls Hlo Hhi Hid Hc1 Hc2 Nlo Nhi N1 N2 In1 In2.
  pose proof (bounded_is_var _ Hcls) as Hvar.
  apply (proj2 (outside_spec qlo qhi q1)) in In1.
  apply (proj2 (outside_spec qlo qhi q2)) in In2.
  destruct (setattr_Ok s self c0 d "value" c1 Hself) as (Hset1 & Hnew1 & _).
  set (d1 := assoc_set "value" c1 d) in *.
  set (s1 := State (<[self := Obj c0 d1]> (heap s)) (var_counter s)) in *.
  assert (Hlo1 : assoc "_low" d1 = Some lo)
    by (unfold d1; rewrite (assoc_set_other "value"); [exact Hlo|reflexivity]).
  assert (Hhi1 : assoc "_high" d1 = Some hi)
    by (unfold d1; rewrite (assoc_set_other "value"); [exact Hhi|reflexivity]).
  assert (Hid1 : identity_of (Obj c0 d1) = Some i)
    by (unfold d1; rewrite identity_of_set_value; exact Hid).
  destruct (setattr_Ok s1 self c0 d1 "value" c2 Hnew1) as (Hset2 & Hnew2 & _).
  exists s1. eexists. split; [|split].
  - rewrite (freeze_bounded n s self _ choice1 Hself Hcls).
    rewrite (numeric_freeze_inside s self c0 d i lo hi choice1 c1
               Hself Hlo Hhi Hid Hc1 qlo qhi q1 Nlo Nhi N1 In1). exact Hset1.
  - rewrite (freeze_bounded n s1 self _ choice2 Hnew1 Hcls).
    rewrite (numeric_freeze_inside s1 self c0 d1 i lo hi choice2 c2
               Hnew1 Hlo1 Hhi1 Hid1 Hc2 qlo qhi q2 Nlo Nhi N2 In2). exact Hset2.
  - intros m.
    pose proof (evaluate_frozen_leaf m _ self _ Hnew2 Hvar) as He.
    rewrite value_of_set in He. apply He; destruct c2; try discriminate N2; reflexivity.
Qed.

Lemma refreeze_overwrites_witness :
  exists s1 s2,
    freeze 1 0%nat {[ "0" := VInt 3 ]} Int_0_10 = Ok tt s1
    /\ freeze 1 0%nat {[ "0" := VInt 7 ]} s1 = Ok tt s2
    /\ forall m, evaluate (S m) 0%nat s2 = Ok (VInt 7) s2.
Proof.
  eapply (refreeze_overwrites 0 Int_0_10 0%nat Int _ "0" (VInt 0) (VInt 10)
           (VInt 3) (VInt 7) 0%Q 10%Q 3%Q 7%Q {[ "0" := VInt 3 ]} {[ "0" := VInt 7 ]});
    try reflexivity; try (left; reflexivity); split; discriminate.
Defined.

(** ** Freezing a graph *)

(** X7: [freeze] on a BinaryExpression freezes the left operand, then the
    right one, and rolls nothing back: when the choice of the left variable
    is valid and the choice of the right one is out of range, the call
    raises the invalid-choice signal of the right variable and the left
    variable stays frozen. *)
Theorem graph_freeze_is_not_atomic n s self x y sym cx dx cy dy ix iy
    lox hix loy hiy vx vy qlox qhix qloy qhiy qx qy (choice : gmap string value) :
  heap s !! self = Some (Obj BinaryExpression (binary_dict (VRef x) (VRef y) sym)) ->
  x <> y ->
  heap s !! x = Some (Obj cx dx) -> cx = Int \/ cx = Float ->
  heap s !! y = Some (Obj cy dy) -> cy = Int \/ cy = Float ->
  assoc "_low" dx = Some lox -> assoc "_high" dx = Some hix ->
  assoc "_low" dy = Some loy -> assoc "_high" dy = Some hiy ->
  identity_of (Obj cx dx) = Some ix -> identity_of (Obj cy dy) = Some iy ->
  choice !! ix = Some vx -> choice !! iy = Some vy ->
  num_of lox = Some qlox -> num_of hix = Some qhix -> num_of vx = Some qx ->
  num_of loy = Some qloy -> num_of hiy = Some qhiy -> num_of vy = Some qy ->
  (qlox <= qx <= qhix)%Q -> (qy < qloy \/ qhiy < qy)%Q ->
  exists who s',
    freeze (S (S n)) self choice s = Raise (InvalidChoice who loy hiy vy) s'
    /\ heap s' !! x = Some (Obj cx (assoc_set "value" vx dx))
    /\ heap s' !! y = Some (Obj cy dy).
Proof.
  intros Hself Hxy Hx Hcx Hy Hcy Hlox Hhix Hloy Hhiy Hix Hiy Hvx Hvy
         Nlox Nhix Nx Nloy Nhiy Ny Inx Outy.
  apply (proj2 (outside_spec qlox qhix qx)) in Inx.
  apply (proj1 (outside_spec qloy qhiy qy)) in Outy.
  destruct (setattr_Ok s x cx dx "value" vx Hx) as (Hset & Hnewx & Hrest).
  set (s1 := State (<[x := Obj cx (assoc_set "value" vx dx)]> (heap s)) (var_counter s)) in *.
  assert (Hy1 : heap s1 !! y = Some (Obj cy dy)).
  { rewrite (Hrest y); [exact Hy|congruence]. }
  destruct (numeric_freeze_outside s1 y cy dy iy loy hiy choice vy
              Hy1 (bounded_is_var _ Hcy) Hloy Hhiy Hiy Hvy qloy qhiy qy
              Nloy Nhiy Ny Outy) as [who Hr].
  exists who, s1. split; [|split; assumption].
  change (freeze (S (S n)) self choice s)
    with ((let* o := get_obj self in
           match ocls o with
           | Int => Int_freeze self choice
           | Float => Float_freeze self choice
           | List => List_freeze (S n) (fun x => freeze (S n) x choice) self choice
           | ExpressionCallExpression =>
               let* e := getattr self "expression" in
               match e with
               | VRef x => freeze (S n) x choice
               | _ => stop External
               end ;;
               let* args := getattr self "args" in
               iterM (freeze_aux (fun x => freeze (S n) x choice)) (flatten args) ;;
               let* kwargs := getattr self "kwargs" in
               iterM (freeze_aux (fun x => freeze (S n) x choice)) (flatten kwargs)
           | _ =>
               iterM (freeze_aux (fun x => freeze (S n) x choice))
                     (flatten (VDict (odict o)))
           end) s).
  rewrite (bind_Ok _ _ _ _ _ (get_obj_Ok _ _ _ Hself)). cbn [ocls odict].
  rewrite (flatten_binary_dict (VRef x) (VRef y) sym eq_refl eq_refl).
  cbn [iterM freeze_aux].
  rewrite (bind_Ok _ _ s tt s1).
  2:{ rewrite (freeze_bounded n s x _ choice Hx Hcx).
      rewrite (numeric_freeze_inside s x cx dx ix lox hix choice vx
                 Hx Hlox Hhix Hix Hvx qlox qhix qx Nlox Nhix Nx Inx). exact Hset. }
  rewrite (bind_Ok (ret tt) _ s1 tt s1 eq_refl).
  apply bind_Raise.
  rewrite (freeze_bounded n s1 y _ choice Hy1 Hcy). exact Hr.
Qed.

Lemma graph_freeze_is_not_atomic_witness :
  exists who s',
    freeze 2 2%nat (<["x" := VInt 3]> {[ "y" := VInt 9 ]}) sum_of_two
    = Raise (InvalidChoice who (VInt 0) (VInt 5) (VInt 9)) s'
    /\ heap s' !! 0%nat
       = Some (Obj Int (assoc_set "value" (VInt 3)
                 (("_name", VStr "x") :: ("var_id", VInt 0) :: ("_low", VInt 0)
                  :: ("_high", VInt 5) :: ("_dist", VExt scipy_stats_randint) :: nil)))
    /\ heap s' !! 1%nat
       = Some (Obj Int (("_name", VStr "y") :: ("var_id", VInt 1) :: ("_low", VInt 0)
                        :: ("_high", VInt 5) :: ("_dist", VExt scipy_stats_randint) :: nil)).
Proof.
  eapply (graph_freeze_is_not_atomic 0 sum_of_two 2%nat 0%nat 1%nat "+" Int _ Int _
           "x" "y" (VInt 0) (VInt 5) (VInt 0) (VInt 5) (VInt 3) (VInt 9)
           0%Q 5%Q 0%Q 5%Q 3%Q 9%Q (<["x" := VInt 3]> {[ "y" := VInt 9 ]}));
    try reflexivity; try (left; reflexivity); try discriminate.
  - split; discriminate.
  - right. reflexivity.
Defined.

(** ** [variables] and [child_choices] *)

Lemma foldM_variables_atoms rec l : forall memo s,
  Forall (fun v => isinstance_Expression v = false) l ->
  foldM (variables_aux rec) memo l s = Ok memo s.
Proof.
  induction l as [|v l IH]; intros memo s Hl; [reflexivity|].
  inversion Hl as [|? ? Hv Hl']; subst. cbn [foldM].
  rewrite (bind_Ok _ _ s memo s); [apply IH; exact Hl'|].
  destruct v; try discriminate Hv; reflexivity.
Qed.

Lemma variables_leaf n s x o :
  heap s !! x = Some o ->
  Forall (fun v => isinstance_Expression v = false) (flatten (VDict (odict o))) ->
  variables (S n) x s = Ok ∅ s.
Proof.
  intros Hx Hl. cbn [variables].
  rewrite (bind_Ok _ _ _ _ _ (get_obj_Ok _ _ _ Hx)).
  apply foldM_variables_atoms. exact Hl.
Qed.

Lemma choices_variable n s x o i :
  heap s !! x = Some o -> is_var_cls (ocls o) = true -> identity_of o = Some i ->
  choices (S n) x s = Ok {[ i := x ]} s.
Proof.
  intros Hx Hv Hi. cbn [choices].
  rewrite (bind_Ok _ _ _ _ _ (get_obj_Ok _ _ _ Hx)).
  destruct (ocls o); try discriminate Hv;
    rewrite (bind_Ok _ _ _ _ _ (id_key_of _ _ _ _ Hx Hi)); reflexivity.
Qed.

Lemma isinstance_VarExpression_of s x o :
  heap s !! x = Some o -> isinstance_VarExpression s (VRef x) = is_var_cls (ocls o).
Proof.
  intros Hx. unfold isinstance_VarExpression, class_of. rewrite Hx. reflexivity.
Qed.

(** X8: a variable whose fields hold no node is not among its own
    [variables()], which is empty, while its [choices()] is the variable
    itself under its identity. *)
Theorem variable_not_among_its_variables n s x o i :
  heap s !! x = Some o -> is_var_cls (ocls o) = true -> identity_of o = Some i ->
  Forall (fun v => isinstance_Expression v = false) (flatten (VDict (odict o))) ->
  variables (S n) x s = Ok ∅ s /\ choices (S n) x s = Ok {[ i := x ]} s.
Proof.
  intros Hx Hv Hi Hl. split.
  - apply (variables_leaf n s x o Hx Hl).
  - apply (choices_variable n s x o i Hx Hv Hi).
Qed.

Lemma variable_not_among_its_variables_witness :
  variables 1 0%nat Int_0_10 = Ok ∅ Int_0_10
  /\ choices 1 0%nat Int_0_10 = Ok {[ "0" := 0%nat ]} Int_0_10.
Proof.
  eapply (variable_not_among_its_variables 0 Int_0_10 0%nat); try reflexivity.
  cbn. repeat constructor.
Defined.

(** X9: on a BinaryExpression whose operands are two variables (with no
    node among their own fields), [variables()] keeps the left variable
    under its identity whatever the right one is called, so of two
    variables with one identity the first met stays; [choices()] writes the
    right one last, so there the last met stays. *)
Theorem variables_keeps_first_choices_last n s self x y sym ox oy ix iy :
  heap s !! self = Some (Obj BinaryExpression (binary_dict (VRef x) (VRef y) sym)) ->
  heap s !! x = Some ox -> heap s !! y = Some oy ->
  is_var_cls (ocls ox) = true -> is_var_cls (ocls oy) = true ->
  identity_of ox = Some ix -> identity_of oy = Some iy ->
  Forall (fun v => isinstance_Expression v = false) (flatten (VDict (odict ox))) ->
  Forall (fun v => isinstance_Expression v = false) (flatten (VDict (odict oy))) ->
  variables (S (S n)) self s
  = Ok (if decide (ix = iy) then {[ ix := x ]} else <[iy := y]> {[ ix := x ]}) s
  /\ choices (S (S n)) self s = Ok (<[iy := y]> {[ ix := x ]}) s.
Proof.
  intros Hself Hx Hy Hvx Hvy Hix Hiy Hlx Hly.
  pose proof (id_key_of _ _ _ _ Hx Hix) as Kx.
  pose proof (id_key_of _ _ _ _ Hy Hiy) as Ky.
  pose proof (isinstance_VarExpression_of _ _ _ Hx) as Ix. rewrite Hvx in Ix.
  pose proof (isinstance_VarExpression_of _ _ _ Hy) as Iy. rewrite Hvy in Iy.
  split.
  - change (variables (S (S n)) self s)
      with ((let* o := get_obj self in
             foldM (variables_aux (variables (S n))) ∅ (flatten (VDict (odict o)))) s).
    rewrite (bind_Ok _ _ _ _ _ (get_obj_Ok _ _ _ Hself)). cbn [odict].
    rewrite (flatten_binary_dict (VRef x) (VRef y) sym eq_refl eq_refl).
    cbn [foldM].
    rewrite (bind_Ok _ _ s ({[ ix := x ]} : gmap string addr) s).
    2:{ unfold variables_aux.
        rewrite (bind_Ok get_state _ s s s eq_refl). rewrite Ix.
        rewrite (bind_Ok _ _ _ _ _ Kx).
        rewrite lookup_empty.
        rewrite bool_decide_eq_false_2 by (intros [? ?]; discriminate).
        rewrite (bind_Ok _ _ _ _ _ Kx).
        rewrite (bind_Ok _ _ _ _ _ (variables_leaf n s x ox Hx Hlx)).
        unfold ret. f_equal. rewrite (left_id_L ∅ (∪)). reflexivity. }
    rewrite (bind_Ok _ _ s ({[ ix := x ]} : gmap string addr) s) by reflexivity.
    rewrite (bind_Ok _ _ s
               (if decide (ix = iy) then {[ ix := x ]} else <[iy := y]> {[ ix := x ]}
                : gmap string addr) s); [reflexivity|].
    unfold variables_aux.
    rewrite (bind_Ok get_state _ s s s eq_refl). rewrite Iy.
    rewrite (bind_Ok _ _ _ _ _ Ky).
    destruct (decide (ix = iy)) as [->|Hne].
    + rewrite lookup_singleton_eq.
      rewrite bool_decide_eq_true_2 by (eexists; reflexivity).
      rewrite (bind_Ok _ _ _ _ _ (variables_leaf n s y oy Hy Hly)).
      unfold ret. f_equal. rewrite (left_id_L ∅ (∪)). reflexivity.
    + rewrite lookup_singleton_ne by exact Hne.
      rewrite bool_decide_eq_false_2 by (intros [? ?]; discriminate).
      rewrite (bind_Ok _ _ _ _ _ Ky).
      rewrite (bind_Ok _ _ _ _ _ (variables_leaf n s y oy Hy Hly)).
      unfold ret. f_equal. rewrite (left_id_L ∅ (∪)). reflexivity.
  - change (choices (S (S n)) self s)
      with ((let* o := get_obj self in
             match ocls o with
             | List | Int | Float =>
                 let* i := id_key self in ret {[ i := self ]}
             | ExpressionCallExpression =>
                 let* e := getattr self "expression" in
                 let* memo := match e with
                              | VRef x => choices (S n) x
                              | _ => stop External
                              end in
                 let* args := getattr self "args" in
                 let* memo := foldM (choice_aux (choices (S n))) memo (flatten args) in
                 let* kwargs := getattr self "kwargs" in
                 foldM (choice_aux (choices (S n))) memo (flatten kwargs)
             | _ =>
                 foldM (choice_aux (choices (S n))) ∅ (flatten (VDict (odict o)))
             end) s).
    rewrite (bind_Ok _ _ _ _ _ (get_obj_Ok _ _ _ Hself)). cbn [ocls odict].
    rewrite (flatten_binary_dict (VRef x) (VRef y) sym eq_refl eq_refl).
    cbn [foldM].
    rewrite (bind_Ok _ _ s ({[ ix := x ]} : gmap string addr) s).
    2:{ unfold choice_aux.
        rewrite (bind_Ok get_state _ s s s eq_refl). rewrite Ix.
        rewrite (bind_Ok _ _ _ _ _ Kx). reflexivity. }
    rewrite (bind_Ok _ _ s ({[ ix := x ]} : gmap string addr) s) by reflexivity.
    rewrite (bind_Ok _ _ s (<[iy := y]> {[ ix := x ]} : gmap string addr) s);
      [reflexivity|].
    unfold choice_aux.
    rewrite (bind_Ok get_state _ s s s eq_refl). rewrite Iy.
    rewrite (bind_Ok _ _ _ _ _ Ky). reflexivity.
Qed.

Lemma variables_keeps_first_choices_last_witness :
  variables 2 2%nat two_named_x
  = Ok (if decide ("x" = "x") then {[ "x" := 0%nat ]}
        else <["x" := 1%nat]> {[ "x" := 0%nat ]}) two_named_x
  /\ choices 2 2%nat two_named_x = Ok (<["x" := 1%nat]> {[ "x" := 0%nat ]}) two_named_x.
Proof.
  eapply (variables_keeps_first_choices_last 0 two_named_x 2%nat 0%nat 1%nat);
    try reflexivity; cbn; repeat constructor.
Defined.

(** X10: [List.child_choices] never returns: whatever the List holds, the
    call ends in an exception (it asks [len(self)], and no class defines
    [__len__]) or in code outside the embedding. *)
Theorem List_child_choices_never_returns n self s :
  (exists e s', List_child_choices n self s = Raise e s')
  \/ (exists r, List_child_choices n self s = Abort r).
Proof.
  unfold List_child_choices, bind.
  destruct (getattr self "_k" s) as [k s1|e s1|r]; [|left; eauto|right; eauto].
  match goal with
  | |- context [match ?m s1 with _ => _ end] => destruct (m s1) as [memo s2|e s2|r]
  end; [|left; eauto|right; eauto].
  cbn. left; eauto.
Qed.

(** ** Copies leave the original alone *)

Lemma unchanged_below_refl N s : unchanged_below N s s.
Proof. split; [lia|reflexivity]. Qed.

Lemma unchanged_below_trans N s1 s2 s3 :
  unchanged_below N s1 s2 -> unchanged_below N s2 s3 -> unchanged_below N s1 s3.
Proof.
  intros [L1 H1] [L2 H2]. split; [lia|].
  intros a Ha. rewrite (H2 a Ha). apply (H1 a Ha).
Qed.

Lemma spares_ret {A} N (a : A) : spares N (ret a).
Proof. intros s b s' _ E. inversion E; subst. apply unchanged_below_refl. Qed.

Lemma spares_stop {A} N r : spares N (@stop A r).
Proof. intros s b s' _ E. discriminate E. Qed.

Lemma spares_raise {A} N e : spares N (@raise A e).
Proof. intros s b s' _ E. discriminate E. Qed.

Lemma spares_bind {A B} N (m : M A) (k : A -> M B) :
  spares N m -> (forall a, spares N (k a)) -> spares N (bind m k).
Proof.
  intros Hm Hk s b s' HN E. apply bind_inv_Ok in E.
  destruct E as (a & s1 & E1 & E2).
  pose proof (Hm s a s1 HN E1) as U1.
  apply (unchanged_below_trans N s s1 s' U1).
  apply (Hk a s1 b s'); [destruct U1; lia|exact E2].
Qed.

Lemma spares_get_obj N a : spares N (get_obj a).
Proof.
  intros s o s' _ E. unfold get_obj in E. destruct (heap s !! a); [|discriminate].
  inversion E; subst. apply unchanged_below_refl.
Qed.

Lemma spares_alloc N o : spares N (alloc o).
Proof.
  intros s a s' HN E. inversion E; subst. unfold unchanged_below. cbn [heap]. split.
  - rewrite length_app. lia.
  - intros b Hb. apply lookup_app_l. lia.
Qed.

Lemma spares_set_dict N (b : addr) d : (N <= b)%nat -> spares N (set_dict b d).
Proof.
  intros Hb s u s' _ E. unfold set_dict in E.
  destruct (heap s !! b); [|discriminate]. inversion E; subst.
  unfold unchanged_below. cbn [heap]. split.
  - rewrite length_insert. lia.
  - intros a Ha. apply list_lookup_insert_ne. lia.
Qed.

Lemma spares_foldM {A B} N (f : A -> B -> M A) l :
  (forall acc x, spares N (f acc x)) -> forall acc, spares N (foldM f acc l).
Proof.
  intros Hf. induction l as [|x l IH]; intros acc; cbn [foldM].
  - apply spares_ret.
  - apply spares_bind; [apply Hf|intros a; apply IH].
Qed.

Lemma spares_mapM {A B} N (f : A -> M B) l :
  (forall x, spares N (f x)) -> spares N (mapM f l).
Proof.
  intros Hf. induction l as [|x l IH]; cbn [mapM].
  - apply spares_ret.
  - apply spares_bind; [apply Hf|intros a].
    apply spares_bind; [exact IH|intros b; apply spares_ret].
Qed.

Lemma spares_deepcopy N n : forall x memo, spares N (deepcopy n x memo).
Proof.
  induction n as [|n IH]; intros x memo; [apply spares_stop|].
  destruct x; try apply spares_ret.
  - (* a list *)
    cbn [deepcopy]. apply spares_bind; [|intros r; apply spares_ret].
    apply spares_foldM. intros acc v.
    apply spares_bind; [apply IH|intros r; apply spares_ret].
  - (* a dict *)
    cbn [deepcopy]. apply spares_bind; [|intros r; apply spares_ret].
    apply spares_foldM. intros acc kv.
    apply spares_bind; [apply IH|intros r; apply spares_ret].
  - (* a node *)
    cbn [deepcopy]. destruct (memo !! a) as [b|]; [apply spares_ret|].
    intros s r s' HN E.
    apply bind_inv_Ok in E. destruct E as (o & s0 & E0 & E).
    pose proof (spares_get_obj N a s o s0 HN E0) as U0.
    assert (s0 = s) as ->.
    { unfold get_obj in E0. destruct (heap s !! a); inversion E0; reflexivity. }
    apply bind_inv_Ok in E. destruct E as (b & s1 & E1 & E).
    pose proof (spares_alloc N _ s b s1 HN E1) as U1.
    assert (Hb : b = length (heap s)) by (inversion E1; reflexivity).
    apply (unchanged_below_trans N s s1 s' U1).
    assert (HN1 : (N <= length (heap s1))%nat) by (destruct U1; lia).
    revert E. apply spares_bind; [apply spares_get_obj|intros o'| exact HN1].
    apply spares_bind; [apply IH|intros r'].
    destruct (fst r'); try apply spares_stop.
    apply spares_bind; [apply spares_set_dict; lia|intros u; apply spares_ret].
Qed.

Lemma spares_Expression_copy N n : forall self, spares N (Expression_copy n self).
Proof.
  induction n as [|n IH]; intros self; [apply spares_stop|].
  cbn [Expression_copy].
  intros s r s' HN E.
  apply bind_inv_Ok in E. destruct E as (o & s0 & E0 & E).
  assert (s0 = s) as ->.
  { unfold get_obj in E0. destruct (heap s !! self); inversion E0; reflexivity. }
  apply bind_inv_Ok in E. destruct E as (b & s1 & E1 & E).
  pose proof (spares_alloc N _ s b s1 HN E1) as U1.
  assert (Hb : b = length (heap s)) by (inversion E1; reflexivity).
  apply (unchanged_below_trans N s s1 s' U1).
  assert (HN1 : (N <= length (heap s1))%nat) by (destruct U1; lia).
  revert E. apply spares_bind; [apply spares_get_obj|intros o'|exact HN1].
  apply spares_bind.
  - unfold map_structure. apply spares_bind; [|intros l; apply spares_ret].
    apply spares_mapM. intros x. destruct x; try apply spares_ret. apply IH.
  - intros d. destruct d; try apply spares_stop.
    apply spares_bind; [apply spares_set_dict; lia|intros u; apply spares_ret].
Qed.

Lemma set_dict_inv b d s u s' :
  set_dict b d s = Ok u s' ->
  exists o, heap s !! b = Some o
            /\ heap s' = <[b := Obj (ocls o) d]> (heap s).
Proof.
  unfold set_dict. destruct (heap s !! b) as [o|]; [|discriminate].
  intros E. inversion E; subst. exists o. split; reflexivity.
Qed.

Lemma get_obj_inv a s o s' : get_obj a s = Ok o s' -> s' = s /\ heap s !! a = Some o.
Proof.
  unfold get_obj. destruct (heap s !! a); [|discriminate].
  intros E. inversion E; subst. split; reflexivity.
Qed.

(** What a copy starts and ends with: a new object of the class of the
    original, then the copies of the fields, then the assignment of the
    fields to the new object. *)
Lemma copy_shape (fields : obj -> M (list (string * value)))
    (self : addr) s r s' :
  (forall o, spares (S (length (heap s))) (fields o)) ->
  (let* o := get_obj self in
   let* b := alloc (Obj (ocls o) nil) in
   let* o := get_obj self in
   let* d := fields o in
   set_dict b d ;; ret (VRef b)) s = Ok r s' ->
  r = VRef (length (heap s))
  /\ class_of s' r = class_of s (VRef self)
  /\ unchanged_below (length (heap s)) s s'.
Proof.
  intros Hf E.
  apply bind_inv_Ok in E. destruct E as (o & s0 & E0 & E).
  apply get_obj_inv in E0. destruct E0 as [-> Ho].
  apply bind_inv_Ok in E. destruct E as (b & s1 & E1 & E).
  pose proof (spares_alloc (length (heap s)) _ s b s1 (le_n _) E1) as U1.
  inversion E1; subst b s1. clear E1.
  set (s1 := State (heap s ++ Obj (ocls o) nil :: nil) (var_counter s)) in *.
  assert (L1 : length (heap s1) = S (length (heap s))).
  { unfold s1. cbn. rewrite length_app. cbn. lia. }
  apply bind_inv_Ok in E. destruct E as (o' & s0 & E0 & E).
  apply get_obj_inv in E0. destruct E0 as [-> Ho'].
  apply bind_inv_Ok in E. destruct E as (d & s2 & E2 & E).
  assert (U2 : unchanged_below (S (length (heap s))) s1 s2).
  { apply (Hf o' s1 d s2); [lia|exact E2]. }
  apply bind_inv_Ok in E. destruct E as (u & s3 & E3 & E).
  inversion E; subst r s3. clear E.
  pose proof (spares_set_dict (length (heap s)) (length (heap s)) d (le_n _)
                s2 u s' ltac:(destruct U2; lia) E3) as U3.
  apply set_dict_inv in E3. destruct E3 as (ob & Hob & Hs').
  assert (Hcls : ocls ob = ocls o).
  { destruct U2 as [_ U2]. rewrite (U2 (length (heap s))) in Hob by lia.
    unfold s1 in Hob. cbn in Hob.
    rewrite lookup_app_r in Hob by lia.
    rewrite Nat.sub_diag in Hob. cbn in Hob. inversion Hob; reflexivity. }
  split; [reflexivity|]. split.
  - unfold class_of. rewrite Hs'. rewrite list_lookup_insert_eq.
    + rewrite Ho. cbn. rewrite Hcls. reflexivity.
    + apply lookup_lt_Some in Hob. exact Hob.
  - apply (unchanged_below_trans _ s s1 s' U1).
    apply (unchanged_below_trans _ s1 s2 s'); [|exact U3].
    destruct U2 as [L2 U2]. split; [exact L2|]. intros a Ha. apply U2. lia.
Qed.

Ltac same_run :=
  repeat match goal with
         | |- context [match ?x with _ => _ end] =>
             destruct x eqn:?; cbn; try discriminate
         end.



(** ** Sharing in a copy *)

Lemma list_insert_last {A} (h : list A) (x y : A) :
  <[length h := x]> (h ++ y :: nil)%list = (h ++ x :: nil)%list.
Proof.
  rewrite insert_app_r_alt by lia. rewrite Nat.sub_diag. reflexivity.
Qed.

Lemma deepcopy_atom n v memo s :
  is_atom v = true -> deepcopy (S n) v memo s = Ok (v, memo) s.
Proof. destruct v; try discriminate; reflexivity. Qed.

Lemma deepcopy_atoms n d memo s :
  Forall (fun kv : string * value => is_atom (snd kv) = true) d ->
  deepcopy (S (S n)) (VDict d) memo s = Ok (VDict d, memo) s.
Proof.
  intros Hd.
  change (deepcopy (S (S n)) (VDict d) memo s)
    with ((let* r := foldM (fun acc kv =>
                              let* r := deepcopy (S n) (snd kv) (snd acc) in
                              ret ((fst acc ++ (fst kv, fst r) :: nil)%list, snd r))
                           (nil, memo) d in
           ret (VDict (fst r), snd r)) s).
  assert (H : forall acc,
             foldM (fun acc (kv : string * value) =>
                      let* r := deepcopy (S n) (snd kv) (snd acc) in
                      ret ((fst acc ++ (fst kv, fst r) :: nil)%list, snd r))
                   (acc, memo) d s = Ok ((acc ++ d)%list, memo) s).
  { induction Hd as [|[k v] d Hv Hd IH]; intros acc; cbn [foldM].
    - rewrite app_nil_r. reflexivity.
    - cbn [snd fst] in *.
      rewrite (bind_Ok _ _ s ((acc ++ (k, v) :: nil)%list, memo) s).
      + rewrite IH. rewrite <- app_assoc. reflexivity.
      + rewrite (bind_Ok _ _ _ _ _ (deepcopy_atom n v memo s Hv)). reflexivity. }
  rewrite (bind_Ok _ _ _ _ _ (H nil)). reflexivity.
Qed.

Lemma Forall_insert_by_key {A} (P : string * A -> Prop) kv l :
  P kv -> Forall P l -> Forall P (insert_by_key kv l).
Proof.
  intros Hkv Hl. induction Hl as [|kv' l Hkv' Hl IH]; cbn.
  - repeat constructor. exact Hkv.
  - destruct (String.leb (fst kv) (fst kv')); repeat constructor; assumption.
Qed.

Lemma Forall_sorted_items {A} (P : string * A -> Prop) l :
  Forall P l -> Forall P (sorted_items l).
Proof.
  intros Hl. induction Hl as [|kv l Hkv Hl IH]; cbn; [constructor|].
  apply Forall_insert_by_key; assumption.
Qed.

Lemma flatten_atoms d :
  Forall (fun kv : string * value => is_atom (snd kv) = true) d ->
  Forall (fun v => isinstance_Expression v = false) (flatten (VDict d)).
Proof.
  intros Hd. cbn [flatten]. apply Forall_concat. apply Forall_map.
  apply (Forall_sorted_items
           (fun kv => Forall (fun v => isinstance_Expression v = false) (snd kv))).
  apply Forall_map. apply (Forall_impl _ _ _ Hd).
  intros [k v] Hv. cbn [snd fst] in *.
  destruct v; try discriminate Hv; repeat constructor.
Qed.

Lemma mapM_copy_atoms rec l s :
  Forall (fun v => isinstance_Expression v = false) l ->
  mapM (copy_aux rec) l s = Ok l s.
Proof.
  intros Hl. induction Hl as [|v l Hv Hl IH]; [reflexivity|]. cbn [mapM].
  rewrite (bind_Ok _ _ s v s); [|destruct v; try discriminate Hv; reflexivity].
  rewrite (bind_Ok _ _ _ _ _ IH). reflexivity.
Qed.

Lemma set_dict_last h c d d' vc :
  set_dict (length h) d' (State (h ++ Obj c d :: nil) vc)
  = Ok tt (State (h ++ Obj c d' :: nil) vc).
Proof.
  unfold set_dict. cbn [heap var_counter].
  rewrite lookup_app_r by lia. rewrite Nat.sub_diag. cbn.
  rewrite list_insert_last. reflexivity.
Qed.

(** The deep copy of a variable whose fields are atoms. *)
Lemma deepcopy_leaf n s v ov memo :
  heap s !! v = Some ov ->
  Forall (fun kv : string * value => is_atom (snd kv) = true) (odict ov) ->
  memo !! v = None ->
  deepcopy (S (S (S n))) (VRef v) memo s
  = Ok (VRef (length (heap s)), <[v := length (heap s)]> memo)
       (State (heap s ++ Obj (ocls ov) (odict ov) :: nil) (var_counter s)).
Proof.
  intros Hv Hd Hm.
  change (deepcopy (S (S (S n))) (VRef v) memo s)
    with (match memo !! v with
          | Some b => ret (VRef b, memo)
          | None =>
              let* o := get_obj v in
              let* b := alloc (Obj (ocls o) nil) in
              let memo := <[v := b]> memo in
              let* o := get_obj v in
              let* r := deepcopy (S (S n)) (VDict (odict o)) ∅ in
              match fst r with
              | VDict d => set_dict b d ;; ret (VRef b, <[v := b]> memo)
              | _ => stop External
              end
          end s).
  rewrite Hm.
  rewrite (bind_Ok _ _ _ _ _ (get_obj_Ok _ _ _ Hv)).
  set (s1 := State (heap s ++ Obj (ocls ov) nil :: nil) (var_counter s)).
  rewrite (bind_Ok (alloc (Obj (ocls ov) nil)) _ s (length (heap s)) s1 eq_refl).
  assert (Hv1 : heap s1 !! v = Some ov).
  { unfold s1. cbn [heap]. apply lookup_app_l_Some. exact Hv. }
  rewrite (bind_Ok _ _ _ _ _ (get_obj_Ok _ _ _ Hv1)).
  rewrite (bind_Ok _ _ _ _ _ (deepcopy_atoms n (odict ov) ∅ s1 Hd)).
  cbn [fst]. unfold s1.
  rewrite (bind_Ok _ _ _ _ _ (set_dict_last (heap s) (ocls ov) nil (odict ov) _)).
  rewrite insert_insert_eq. reflexivity.
Qed.

(** The copy of a variable whose fields are atoms. *)
Lemma Expression_copy_leaf n s v ov :
  heap s !! v = Some ov ->
  Forall (fun kv : string * value => is_atom (snd kv) = true) (odict ov) ->
  exists d, Expression_copy (S n) v s
            = Ok (VRef (length (heap s)))
                 (State (heap s ++ Obj (ocls ov) d :: nil) (var_counter s)).
Proof.
  intros Hv Hd. cbn [Expression_copy].
  rewrite (bind_Ok _ _ _ _ _ (get_obj_Ok _ _ _ Hv)).
  set (s1 := State (heap s ++ Obj (ocls ov) nil :: nil) (var_counter s)).
  rewrite (bind_Ok (alloc (Obj (ocls ov) nil)) _ s (length (heap s)) s1 eq_refl).
  assert (Hv1 : heap s1 !! v = Some ov).
  { unfold s1. cbn [heap]. apply lookup_app_l_Some. exact Hv. }
  rewrite (bind_Ok _ _ _ _ _ (get_obj_Ok _ _ _ Hv1)).
  assert (Hm : map_structure (copy_aux (Expression_copy n)) (VDict (odict ov)) s1
               = Ok (pack (VDict (odict ov)) (flatten (VDict (odict ov)))) s1).
  { unfold map_structure.
    rewrite (bind_Ok _ _ _ _ _ (mapM_copy_atoms _ _ s1 (flatten_atoms _ Hd))).
    reflexivity. }
  rewrite (bind_Ok _ _ _ _ _ Hm).
  cbn [pack]. eexists. unfold s1.
  rewrite (bind_Ok _ _ _ _ _ (set_dict_last (heap s) (ocls ov) nil _ _)).
  reflexivity.
Qed.

Lemma deepcopy_node_unfold n a memo :
  deepcopy (S n) (VRef a) memo
  = match memo !! a with
    | Some b => ret (VRef b, memo)
    | None =>
        let* o := get_obj a in
        let* b := alloc (Obj (ocls o) nil) in
        let memo := <[a := b]> memo in
        let* o := get_obj a in
        let* r := deepcopy n (VDict (odict o)) ∅ in
        match fst r with
        | VDict d => set_dict b d ;; ret (VRef b, <[a := b]> memo)
        | _ => stop External
        end
    end.
Proof. reflexivity. Qed.

Lemma deepcopy_dict_unfold n d memo :
  deepcopy (S n) (VDict d) memo
  = let* r := foldM (fun acc kv =>
                       let* r := deepcopy n (snd kv) (snd acc) in
                       ret ((fst acc ++ (fst kv, fst r) :: nil)%list, snd r))
                    (nil, memo) d in
    ret (VDict (fst r), snd r).
Proof. reflexivity. Qed.

Lemma set_dict_Ok s (b : addr) o d :
  heap s !! b = Some o ->
  set_dict b d s = Ok tt (State (<[b := Obj (ocls o) d]> (heap s)) (var_counter s)).
Proof. intros Hb. unfold set_dict. rewrite Hb. reflexivity. Qed.



(** ** [List.freeze] *)

Lemma freeze_List n s self d choice :
  heap s !! self = Some (Obj List d) ->
  freeze (S n) self choice s
  = List_freeze n (fun x => freeze n x choice) self choice s.
Proof.
  intros Ha. cbn [freeze]. rewrite (bind_Ok _ _ _ _ _ (get_obj_Ok _ _ _ Ha)).
  reflexivity.
Qed.

Lemma list_getitem_nat vals z v s :
  0 <= z -> vals !! Z.to_nat z = Some v ->
  list_getitem vals (VInt z) s = Ok v s.
Proof.
  intros Hz Hv. unfold list_getitem. cbn [int_of].
  pose proof (lookup_lt_Some _ _ _ Hv) as Hlt.
  assert (H0 : Z.ltb z 0 = false) by (apply Z.ltb_ge; lia).
  assert (H1 : Z.leb (Z.of_nat (length vals)) z = false) by (apply Z.leb_gt; lia).
  cbn zeta. rewrite !H0, H1. cbn [orb]. rewrite Hv. reflexivity.
Qed.

Section SinglePick.
Variables (n : nat) (s : state) (self : addr) (d : list (string * value)).
Variables (i : string) (vals : list value) (inv : value) (z : Z).
Variable choice : gmap string value.
Hypothesis Hself : heap s !! self = Some (Obj List d).
Hypothesis Hk : assoc "_k" d = Some VNone.
Hypothesis Hinv : assoc "_invariant" d = Some inv.
Hypothesis Hfalse : truthy inv = false.
Hypothesis Hvals : assoc "_values" d = Some (VList vals).
Hypothesis Hid : identity_of (Obj List d) = Some i.
Hypothesis Hc : choice !! i = Some (VInt z).

Lemma single_pick_index (k : value -> M unit) :
  (let* idx :=
     (let* i := VarExpression_id self in
      let* idx := choice_lookup choice i in
      let* inv := getattr self "_invariant" in
      (if truthy inv then py_assert (py_eq n idx (VInt 0))
       else py_assert (py_and (py_binop_other op_le (VInt 0) idx)
                              (let* n := List_length self in
                               py_binop_other op_lt idx n))) ;;
      ret idx) in k idx) s
  = if Z.leb 0 z && Z.ltb z (Z.of_nat (length vals)) then k (VInt z) s
    else Raise AssertionError s.
Proof.
  pose proof (VarExpression_id_of _ _ _ _ Hself Hid) as Hi.
  pose proof (getattr_field _ _ _ "_invariant" inv Hself Hinv eq_refl) as Ginv.
  pose proof (getattr_field _ _ _ "_values" _ Hself Hvals eq_refl) as Gvals.
  assert (Hlen : List_length self s = Ok (VInt (Z.of_nat (length vals))) s).
  { unfold List_length. rewrite (bind_Ok _ _ _ _ _ Gvals). reflexivity. }
  assert (Hlook : choice_lookup choice (VStr i) s = Ok (VInt z) s).
  { cbn [choice_lookup]. rewrite Hc. reflexivity. }
  destruct (Z.leb 0 z && Z.ltb z (Z.of_nat (length vals))) eqn:Hin.
  - apply andb_prop in Hin. destruct Hin as [H0 H1].
    rewrite (bind_Ok _ _ s (VInt z) s); [reflexivity|].
    rewrite (bind_Ok _ _ _ _ _ Hi). rewrite (bind_Ok _ _ _ _ _ Hlook).
    rewrite (bind_Ok _ _ _ _ _ Ginv). rewrite Hfalse.
    rewrite (bind_Ok _ _ s tt s); [reflexivity|].
    unfold py_assert, py_and.
    rewrite (bind_Ok _ _ s (VBool true) s); [reflexivity|].
    rewrite (bind_Ok _ _ s (VBool true) s).
    + cbn [truthy]. rewrite (bind_Ok _ _ _ _ _ Hlen).
      cbn. unfold ret. repeat f_equal.
      apply Z.ltb_lt in H1. rewrite (proj2 (Z.compare_lt_iff _ _) H1). reflexivity.
    + cbn. unfold ret. repeat f_equal.
      clear -H0. destruct z; cbn in *; try reflexivity; discriminate.
  - apply bind_Raise.
    rewrite (bind_Ok _ _ _ _ _ Hi). rewrite (bind_Ok _ _ _ _ _ Hlook).
    rewrite (bind_Ok _ _ _ _ _ Ginv). rewrite Hfalse.
    apply bind_Raise. unfold py_assert, py_and.
    apply andb_false_iff in Hin. destruct (Z.leb 0 z) eqn:H0.
    + destruct Hin as [Hin|Hin]; [discriminate|].
      rewrite (bind_Ok _ _ s (VBool false) s); [reflexivity|].
      rewrite (bind_Ok _ _ s (VBool true) s).
      * cbn [truthy]. rewrite (bind_Ok _ _ _ _ _ Hlen).
        cbn. unfold ret. repeat f_equal.
        apply Z.ltb_ge in Hin. destruct (z ?= Z.of_nat (length vals))%Z eqn:E;
          try reflexivity. pose proof (proj1 (Z.compare_lt_iff _ _) E). lia.
      * cbn. unfold ret. repeat f_equal.
        clear -H0. destruct z; cbn in *; try reflexivity; discriminate.
    + rewrite (bind_Ok _ _ s (VBool false) s); [reflexivity|].
      rewrite (bind_Ok _ _ s (VBool false) s); [reflexivity|].
      cbn. unfold ret. repeat f_equal.
      clear -H0. destruct z; cbn in *; try reflexivity; discriminate.
Qed.

Lemma single_pick_freeze :
  freeze (S n) self choice s
  = if Z.leb 0 z && Z.ltb z (Z.of_nat (length vals)) then
      (let* v := List_getitem self (VInt z) in
       setattr self "value" v ;;
       let* v := getattr self "value" in
       if isinstance_Expression v then
         let* v := getattr self "value" in
         freeze_aux (fun x => freeze n x choice) v
       else ret tt) s
    else Raise AssertionError s.
Proof.
  rewrite (freeze_List n s self d choice Hself). unfold List_freeze.
  rewrite (bind_Ok _ _ _ _ _ (getattr_field _ _ _ "_k" VNone Hself Hk eq_refl)).
  rewrite single_pick_index. reflexivity.
Qed.

Lemma single_pick_getitem v :
  0 <= z -> vals !! Z.to_nat z = Some v ->
  List_getitem self (VInt z) s = Ok v s.
Proof.
  intros Hz Hv. unfold List_getitem, List_value_at.
  rewrite (bind_Ok _ _ _ _ _ (getattr_field _ _ _ "_values" _ Hself Hvals eq_refl)).
  apply list_getitem_nat; assumption.
Qed.

Lemma single_pick_in_range v :
  0 <= z -> vals !! Z.to_nat z = Some v ->
  Z.leb 0 z && Z.ltb z (Z.of_nat (length vals)) = true.
Proof.
  intros Hz Hv. pose proof (lookup_lt_Some _ _ _ Hv).
  apply andb_true_intro. split; [apply Z.leb_le|apply Z.ltb_lt]; lia.
Qed.

End SinglePick.

(** X13: [freeze] of a List without [k] and not invariant, given an
    integer under its identity: an index outside [[0, len)], a negative one
    included, raises AssertionError and assigns nothing; an index inside
    assigns that candidate to [value].  When the candidate is an atom,
    [evaluate] then returns it; when it is a node, [freeze] goes on into
    it with the same mapping. *)
Theorem List_single_pick n s self d i vals inv z (choice : gmap string value) :
  heap s !! self = Some (Obj List d) ->
  assoc "_k" d = Some VNone ->
  assoc "_invariant" d = Some inv -> truthy inv = false ->
  assoc "_values" d = Some (VList vals) ->
  identity_of (Obj List d) = Some i -> choice !! i = Some (VInt z) ->
  (z < 0 \/ Z.of_nat (length vals) <= z ->
   freeze (S n) self choice s = Raise AssertionError s)
  /\ (forall v, 0 <= z -> vals !! Z.to_nat z = Some v -> is_atom v = true ->
      exists s', freeze (S n) self choice s = Ok tt s'
                 /\ heap s' !! self = Some (Obj List (assoc_set "value" v d))
                 /\ forall m, evaluate (S m) self s' = Ok v s')
  /\ (forall x, 0 <= z -> vals !! Z.to_nat z = Some (VRef x) ->
      freeze (S n) self choice s
      = (setattr self "value" (VRef x) ;; freeze n x choice) s).
Proof.
  intros Hself Hk Hinv Hfalse Hvals Hid Hc.
  pose proof (single_pick_freeze n s self d i vals inv z choice
                Hself Hk Hinv Hfalse Hvals Hid Hc) as Hf.
  split; [|split].
  - intros Hout. rewrite Hf.
    replace (Z.leb 0 z && Z.ltb z (Z.of_nat (length vals))) with false; [reflexivity|].
    symmetry. apply andb_false_iff.
    destruct Hout; [left; apply Z.leb_gt|right; apply Z.ltb_ge]; lia.
  - intros v Hz Hv Hatom. rewrite Hf.
    rewrite (single_pick_in_range vals z v Hz Hv).
    destruct (setattr_Ok s self List d "value" v Hself) as (Hset & Hnew & _).
    eexists. split; [|split; [exact Hnew|]].
    + rewrite (bind_Ok _ _ _ _ _ (single_pick_getitem s self d vals z Hself Hvals v Hz Hv)).
      rewrite (bind_Ok _ _ _ _ _ Hset).
      rewrite (bind_Ok _ _ _ _ _ (getattr_value _ _ _ Hnew eq_refl)).
      rewrite value_of_set.
      destruct v; try discriminate Hatom; reflexivity.
    + intros m.
      pose proof (evaluate_frozen_leaf m _ self _ Hnew eq_refl) as He.
      rewrite value_of_set in He.
      apply He; destruct v; try discriminate Hatom; reflexivity.
  - intros x Hz Hv. rewrite Hf.
    rewrite (single_pick_in_range vals z _ Hz Hv).
    destruct (setattr_Ok s self List d "value" (VRef x) Hself) as (Hset & Hnew & _).
    rewrite (bind_Ok _ _ _ _ _
               (single_pick_getitem s self d vals z Hself Hvals _ Hz Hv)).
    rewrite !(bind_Ok _ _ _ _ _ Hset).
    rewrite (bind_Ok _ _ _ _ _ (getattr_value _ _ _ Hnew eq_refl)).
    rewrite value_of_set. cbn [isinstance_Expression].
    rewrite (bind_Ok _ _ _ _ _ (getattr_value _ _ _ Hnew eq_refl)).
    rewrite value_of_set. reflexivity.
Qed.

Lemma List_single_pick_witness :
  exists s', freeze 1 0%nat {[ "0" := VInt 1 ]} one_of_three = Ok tt s'
             /\ heap s' !! 0%nat
                = Some (Obj List (assoc_set "value" (VStr "b")
                          (("_name", VNone) :: ("var_id", VInt 0)
                           :: ("_values", VList (VStr "a" :: VStr "b" :: VStr "c" :: nil))
                           :: ("_k", VNone) :: ("_replace", VBool false)
                           :: ("_invariant", VBool false) :: nil)))
             /\ forall m, evaluate (S m) 0%nat s' = Ok (VStr "b") s'.
Proof.
  unshelve eapply (proj1 (proj2 (List_single_pick 0 one_of_three 0%nat _ "0"
                          (VStr "a" :: VStr "b" :: VStr "c" :: nil) (VBool false) 1
                          {[ "0" := VInt 1 ]} _ _ _ _ _ _ _)) (VStr "b"));
    try reflexivity; try lia.
Defined.

Lemma list_getitem_out vals z s :
  Z.of_nat (length vals) <= z -> list_getitem vals (VInt z) s = Raise IndexError s.
Proof.
  intros Hz. unfold list_getitem. cbn [int_of]. cbn zeta.
  assert (H0 : Z.ltb z 0 = false) by (apply Z.ltb_ge; lia).
  assert (H1 : Z.leb (Z.of_nat (length vals)) z = true) by (apply Z.leb_le; lia).
  rewrite !H0, H1. rewrite orb_true_r. reflexivity.
Qed.

Section Prefix.
Variables (s : state) (self : addr) (d : list (string * value)) (vals : list value).
Hypothesis Hself : heap s !! self = Some (Obj List d).
Hypothesis Hvals : assoc "_values" d = Some (VList vals).

Lemma List_value_at_nat j v :
  vals !! j = Some v -> List_value_at self (VInt (Z.of_nat j)) s = Ok v s.
Proof.
  intros Hv. unfold List_value_at.
  rewrite (bind_Ok _ _ _ _ _ (getattr_field _ _ _ "_values" _ Hself Hvals eq_refl)).
  apply list_getitem_nat; [lia|]. rewrite Nat2Z.id. exact Hv.
Qed.

Lemma List_value_at_out j :
  (length vals <= j)%nat ->
  List_value_at self (VInt (Z.of_nat j)) s = Raise IndexError s.
Proof.
  intros Hj. unfold List_value_at.
  rewrite (bind_Ok _ _ _ _ _ (getattr_field _ _ _ "_values" _ Hself Hvals eq_refl)).
  apply list_getitem_out. lia.
Qed.

Lemma prefix_values m : forall a,
  (a + m <= length vals)%nat ->
  mapM (List_value_at self) (map (fun i => VInt (Z.of_nat i)) (seq a m)) s
  = Ok (take m (drop a vals)) s.
Proof.
  induction m as [|m IH]; intros a Ha; [reflexivity|].
  cbn [seq map mapM].
  destruct (lookup_lt_is_Some_2 vals a ltac:(lia)) as [v Hv].
  rewrite (bind_Ok _ _ _ _ _ (List_value_at_nat a v Hv)).
  rewrite (bind_Ok _ _ _ _ _ (IH (S a) ltac:(lia))).
  unfold ret. f_equal.
  rewrite (drop_S _ _ _ Hv). reflexivity.
Qed.

Lemma prefix_overrun m : forall a,
  (a <= length vals)%nat -> (length vals < a + m)%nat ->
  mapM (List_value_at self) (map (fun i => VInt (Z.of_nat i)) (seq a m)) s
  = Raise IndexError s.
Proof.
  induction m as [|m IH]; intros a Ha Hm; [lia|].
  cbn [seq map mapM].
  destruct (decide (a = length vals)) as [->|Hne].
  - apply bind_Raise. apply List_value_at_out. lia.
  - destruct (lookup_lt_is_Some_2 vals a ltac:(lia)) as [v Hv].
    rewrite (bind_Ok _ _ _ _ _ (List_value_at_nat a v Hv)).
    apply bind_Raise. apply IH; lia.
Qed.

End Prefix.

Lemma visit_atoms rec s self o tk m : forall a,
  heap s !! self = Some o -> is_var_cls (ocls o) = true ->
  value_of o = VList tk ->
  Forall (fun v => isinstance_Expression v = false) tk ->
  (a + m <= length tk)%nat ->
  iterM (fun i =>
           let* v := getattr self "value" in
           let* x := py_getitem v i in
           if isinstance_Expression x then
             let* v := getattr self "value" in
             let* x := py_getitem v i in
             freeze_aux rec x
           else ret tt)
        (map (fun i => VInt (Z.of_nat i)) (seq a m)) s = Ok tt s.
Proof.
  intros a Hself Hvar Hval Hatoms. revert a.
  induction m as [|m IH]; intros a Ha; [reflexivity|].
  cbn [seq map iterM].
  destruct (lookup_lt_is_Some_2 tk a ltac:(lia)) as [v Hv].
  rewrite (bind_Ok _ _ s tt s); [apply IH; lia|].
  pose proof (getattr_value _ _ _ Hself Hvar) as Gv. rewrite Hval in Gv.
  rewrite (bind_Ok _ _ _ _ _ Gv).
  rewrite (bind_Ok _ _ s v s).
  - rewrite (proj1 (Forall_lookup _ _) Hatoms a v Hv). reflexivity.
  - cbn [py_getitem]. apply list_getitem_nat; [lia|]. rewrite Nat2Z.id. exact Hv.
Qed.

(** X14: [freeze] of an invariant List with a [k] that is no variable,
    given an integer [z] under its identity: the value becomes the first
    [z] candidates (none for a negative [z]), and [z] is not compared with
    [k]; more than there are candidates raises IndexError and assigns
    nothing.  The candidates are atoms here. *)
Theorem List_invariant_prefix n s self d i vals k inv z (choice : gmap string value) :
  heap s !! self = Some (Obj List d) ->
  assoc "_k" d = Some k -> k <> VNone -> isinstance_VarExpression s k = false ->
  assoc "_invariant" d = Some inv -> truthy inv = true ->
  assoc "_values" d = Some (VList vals) ->
  Forall (fun v => isinstance_Expression v = false) vals ->
  identity_of (Obj List d) = Some i -> choice !! i = Some (VInt z) ->
  (z <= Z.of_nat (length vals) ->
   exists s', freeze (S n) self choice s = Ok tt s'
              /\ heap s' !! self
                 = Some (Obj List (assoc_set "value"
                                     (VList (take (Z.to_nat z) vals)) d)))
  /\ (Z.of_nat (length vals) < z ->
      freeze (S n) self choice s = Raise IndexError s).
Proof.
  intros Hself Hk Hnone Hkv Hinv Htrue Hvals Hatoms Hid Hc.
  pose proof (VarExpression_id_of _ _ _ _ Hself Hid) as Hi.
  pose proof (getattr_field _ _ _ "_k" k Hself Hk eq_refl) as Gk.
  pose proof (getattr_field _ _ _ "_invariant" inv Hself Hinv eq_refl) as Ginv.
  set (idx := map (fun i => VInt (Z.of_nat i)) (seq 0 (Z.to_nat z))).
  assert (Hidx :
    (let* inv := getattr self "_invariant" in
     if truthy inv then
       let* k := getattr self "_k" in
       let* s := get_state in
       if isinstance_VarExpression s k then
         let* i := getattr_of k "id" in
         let* n := choice_lookup choice i in py_range n
       else
         let* i := VarExpression_id self in
         let* n := choice_lookup choice i in py_range n
     else
       let* i := VarExpression_id self in
       let* idx := choice_lookup choice i in
       match idx with
       | VList _ => ret idx
       | _ => raise AssertionError
       end) s = Ok (VList idx) s).
  { rewrite (bind_Ok _ _ _ _ _ Ginv). rewrite Htrue.
    rewrite (bind_Ok _ _ _ _ _ Gk).
    rewrite (bind_Ok get_state _ s s s eq_refl). rewrite Hkv.
    rewrite (bind_Ok _ _ _ _ _ Hi). cbn [choice_lookup]. rewrite Hc. reflexivity. }
  assert (Hf : freeze (S n) self choice s
               = (let* v := List_getitem self (VList idx) in
                  setattr self "value" v ;;
                  iterM (fun i =>
                           let* v := getattr self "value" in
                           let* x := py_getitem v i in
                           if isinstance_Expression x then
                             let* v := getattr self "value" in
                             let* x := py_getitem v i in
                             freeze_aux (fun x => freeze n x choice) x
                           else ret tt) idx) s).
  { rewrite (freeze_List n s self d choice Hself). unfold List_freeze.
    rewrite (bind_Ok _ _ _ _ _ Gk).
    destruct k; try (rewrite (bind_Ok _ _ _ _ _ Hidx); reflexivity).
    contradiction Hnone; reflexivity. }
  split.
  - intros Hz.
    set (tk := take (Z.to_nat z) vals).
    destruct (setattr_Ok s self List d "value" (VList tk) Hself) as (Hset & Hnew & _).
    eexists. split; [|exact Hnew].
    rewrite Hf.
    rewrite (bind_Ok _ _ s (VList tk) s).
    + rewrite (bind_Ok _ _ _ _ _ Hset).
      apply (visit_atoms _ _ self _ tk (Z.to_nat z) 0%nat Hnew eq_refl).
      * apply value_of_set.
      * unfold tk. apply Forall_take. exact Hatoms.
      * unfold tk. rewrite length_take. lia.
    + unfold List_getitem. cbn [iterate].
      rewrite (bind_Ok _ _ _ _ _
                 (prefix_values s self d vals Hself Hvals (Z.to_nat z) 0%nat
                    ltac:(lia))).
      reflexivity.
  - intros Hz. rewrite Hf. apply bind_Raise.
    unfold List_getitem. cbn [iterate]. apply bind_Raise.
    apply (prefix_overrun s self d vals Hself Hvals (Z.to_nat z) 0%nat); lia.
Qed.

Lemma List_invariant_prefix_witness :
  exists s', freeze 1 0%nat {[ "0" := VInt 3 ]} first_of_three = Ok tt s'
             /\ heap s' !! 0%nat
                = Some (Obj List (assoc_set "value"
                          (VList (take (Z.to_nat 3)
                                       (VStr "a" :: VStr "b" :: VStr "c" :: nil)))
                          (("_name", VNone) :: ("var_id", VInt 0)
                           :: ("_values", VList (VStr "a" :: VStr "b" :: VStr "c" :: nil))
                           :: ("_k", VInt 2) :: ("_replace", VBool false)
                           :: ("_invariant", VBool true) :: nil))).
Proof.
  unshelve eapply (proj1 (List_invariant_prefix 0 first_of_three 0%nat _ "0"
                   (VStr "a" :: VStr "b" :: VStr "c" :: nil) (VInt 2) (VBool true) 3
                   {[ "0" := VInt 3 ]} _ _ _ _ _ _ _ _ _ _));
    try reflexivity; try discriminate; try (cbn; lia).
  repeat constructor.
Defined.

(** ** What [sample] draws *)

(** [VarExpression.sample] around a [_sample] that returns: the draw is
    entered in the memo, if there is one, under the identity. *)
Lemma sample_records (L : library)
    (body : addr -> value -> rng L -> sample_memo -> M (sampled L))
    s self o i size (r : option (rng L)) memo v r1 :
  heap s !! self = Some o -> identity_of o = Some i -> no_identity_keys memo ->
  body self size (default (RandomState L) r) memo s = Ok (v, (r1, memo)) s ->
  VarExpression_sample L body self size r memo s
  = Ok (v, (r1, (fun m => <[inr i := v]> m) <$> memo)) s.
Proof.
  intros Hself Hid Hmemo Hbody.
  assert (Hr : match r with None => RandomState L | Some r => r end
               = default (RandomState L) r) by (destruct r; reflexivity).
  destruct memo as [m|]; cbn [fmap option_fmap option_map].
  - rewrite (sample_memo_not_read L _ self size r m s Hmemo). rewrite Hr.
    rewrite (bind_Ok _ _ _ _ _ Hbody). cbn [snd fst].
    rewrite (bind_Ok _ _ _ _ _ (id_key_of _ _ _ _ Hself Hid)). reflexivity.
  - unfold VarExpression_sample. rewrite Hr. exact Hbody.
Qed.

Lemma sample_if_var_literal (L : library) rec b size (r : rng L) memo s :
  isinstance_VarExpression s b = false ->
  sample_if_var L rec b size r memo s = Ok (b, (r, memo)) s.
Proof.
  intros Hb. unfold sample_if_var.
  rewrite (bind_Ok get_state _ s s s eq_refl). rewrite Hb. reflexivity.
Qed.







(** ** The operator registry *)

Lemma assoc_In {A} (t : list (string * A)) k v :
  NoDup (map fst t) -> (assoc k t = Some v <-> In (k, v) t).
Proof.
  induction t as [|[k0 v0] t IH]; intros Hnd; cbn.
  - split; [discriminate|contradiction].
  - apply NoDup_cons in Hnd. destruct Hnd as [Hk0 Hnd]. specialize (IH Hnd).
    destruct (String.eqb_spec k k0) as [->|Hne].
    + split.
      * intros [= ->]. left. reflexivity.
      * intros [[= ->]|Hin]; [reflexivity|].
        exfalso. apply Hk0. apply list_elem_of_In.
        apply (in_map fst) in Hin. exact Hin.
    + rewrite IH. split; [intros H; right; exact H|].
      intros [[= -> ->]|Hin]; [contradiction Hne; reflexivity|exact Hin].
Qed.

Lemma In_invert_table t k v : In (k, v) t <-> In (v, k) (invert_table t).
Proof.
  unfold invert_table. rewrite in_map_iff. split.
  - intros H. exists (k, v). split; [reflexivity|exact H].
  - intros ([k' v'] & [= <- <-] & H). exact H.
Qed.

Lemma assoc_invert t k v :
  NoDup (map fst t) -> NoDup (map snd t) ->
  (assoc k t = Some v <-> assoc v (invert_table t) = Some k).
Proof.
  intros H1 H2. rewrite (assoc_In t k v H1).
  rewrite (assoc_In (invert_table t) v k).
  - apply In_invert_table.
  - unfold invert_table. rewrite map_map. cbn. exact H2.
Qed.

Lemma NoDup_strings (l : list string) : bool_decide (NoDup l) = true -> NoDup l.
Proof. intros H. apply (bool_decide_unpack _). rewrite H. exact I. Qed.

(** X18: the two tables of binary operators are inverse to each other, and
    so are the two tables of unary operators: a symbol is registered for a
    method exactly when the method is registered for the symbol. *)
Theorem operator_registry_inverse sym attr :
  (assoc sym BIN_OPS_SYNTAX_2_ATTR = Some attr
   <-> assoc attr BIN_OPS_ATTR_2_SYNTAX = Some sym)
  /\ (assoc sym UNA_OPS_SYNTAX_2_ATTR = Some attr
      <-> assoc attr UNA_OPS_ATTR_2_SYNTAX = Some sym).
Proof.
  split; apply assoc_invert; apply NoDup_strings; vm_compute; reflexivity.
Qed.

(** ** Building a node and evaluating it *)

Lemma set_dict_same s (a : addr) o :
  heap s !! a = Some o -> set_dict a (odict o) s = Ok tt s.
Proof.
  intros Ha. rewrite (set_dict_Ok s a o _ Ha). f_equal.
  destruct s as [h vc]. cbn [heap var_counter] in *. f_equal.
  destruct o. apply list_insert_id. exact Ha.
Qed.

(** [ObjectExpression(v).evaluate()] for an atom [v]. *)
Lemma ObjectExpression_evaluate_atom n s a v :
  heap s !! a = Some (Obj ObjectExpression (("_obj", v) :: nil)) ->
  is_atom v = true ->
  evaluate (S n) a s = Ok v s.
Proof.
  intros Ha Hv. cbn [evaluate].
  rewrite (bind_Ok _ _ _ _ _ (get_obj_Ok _ _ _ Ha)). cbn [ocls].
  rewrite (bind_Ok _ _ s tt s).
  - apply (getattr_field _ _ _ "_obj" v Ha eq_refl eq_refl).
  - unfold evaluate_children.
    rewrite (bind_Ok _ _ _ _ _ (get_obj_Ok _ _ _ Ha)). cbn [odict].
    rewrite (bind_Ok _ _ s (v :: nil) s).
    + replace (pack (VDict (("_obj", v) :: nil)) (v :: nil))
        with (VDict (("_obj", v) :: nil))
        by (destruct v; try discriminate Hv; reflexivity).
      apply (set_dict_same s a _ Ha).
    + destruct v; try discriminate Hv; reflexivity.
Qed.

Lemma binop_round_trip n s a x y o sym :
  heap s !! a = Some (Obj ObjectExpression (("_obj", VInt x) :: nil)) ->
  o <> op_pow ->
  assoc (attr_of o) BIN_OPS_ATTR_2_SYNTAX = Some sym ->
  assoc sym BIN_OPS_SYNTAX_2_ATTR = Some (attr_of o) ->
  binop_of_attr (attr_of o) = Some o ->
  exists s1 s2,
    Expression_binop o a (VInt y) s = Ok (VRef (length (heap s))) s1
    /\ heap s1 !! length (heap s)
       = Some (Obj BinaryExpression (binary_dict (VRef a) (VInt y) sym))
    /\ evaluate (S (S n)) (length (heap s)) s1 = int_dunder o x y s2
    /\ heap s2 !! length (heap s)
       = Some (Obj BinaryExpression (binary_dict (VInt x) (VInt y) sym)).
Proof.
  intros Ha Hpow Hsym Hattr Ho.
  set (L := length (heap s)).
  set (s1 := State (heap s ++ Obj BinaryExpression
                                (binary_dict (VRef a) (VInt y) sym) :: nil)
                   (var_counter s)).
  assert (HL : heap s1 !! (L : addr)
               = Some (Obj BinaryExpression (binary_dict (VRef a) (VInt y) sym))).
  { unfold s1, L. cbn [heap]. rewrite lookup_app_r by lia.
    rewrite Nat.sub_diag. reflexivity. }
  assert (Ha1 : heap s1 !! a = Some (Obj ObjectExpression (("_obj", VInt x) :: nil))).
  { unfold s1. cbn [heap]. apply lookup_app_l_Some. exact Ha. }
  exists s1. eexists. split; [|split; [exact HL|split]].
  - assert (E : Expression_binop o a (VInt y)
                = let* sym := table_get BIN_OPS_ATTR_2_SYNTAX (attr_of o) in
                  new_BinaryExpression (VRef a) (VInt y) sym).
    { destruct o; try reflexivity. contradiction Hpow; reflexivity. }
    rewrite E. unfold table_get. rewrite Hsym.
    rewrite (bind_Ok (ret sym) _ s sym s eq_refl). reflexivity.
  - rewrite (BinaryExpression_evaluate (S n) s1 L (VRef a) (VInt y) sym (attr_of o) o
               (VInt x) s1 (VInt y) s1 HL eq_refl eq_refl
               (ObjectExpression_evaluate_atom n s1 a (VInt x) Ha1 eq_refl)
               eq_refl Hattr Ho).
    rewrite (bind_Ok _ _ _ _ _ (set_dict_Ok s1 L _ _ HL)). cbn [ocls].
    destruct o; reflexivity.
  - cbn [heap]. apply list_lookup_insert_eq. apply lookup_lt_Some in HL. exact HL.
Qed.

(** X19: for a node [a] that wraps an integer [x] and every binary
    operator [op] that [Expression] has a method for (all of the registry
    but [**]), [a op y] builds a BinaryExpression with [a] on the left and
    the symbol of [op], and evaluating it gives what [op] gives on the
    integers [x] and [y], its exceptions included; the node then holds [x]
    in place of [a]. *)
Theorem built_node_evaluates_by_its_operator n s a x y o :
  heap s !! a = Some (Obj ObjectExpression (("_obj", VInt x) :: nil)) ->
  o <> op_pow ->
  exists sym s1 s2,
    Expression_binop o a (VInt y) s = Ok (VRef (length (heap s))) s1
    /\ heap s1 !! length (heap s)
       = Some (Obj BinaryExpression (binary_dict (VRef a) (VInt y) sym))
    /\ evaluate (S (S n)) (length (heap s)) s1 = int_dunder o x y s2
    /\ heap s2 !! length (heap s)
       = Some (Obj BinaryExpression (binary_dict (VInt x) (VInt y) sym)).
Proof.
  intros Ha Hpow.
  destruct o; eexists; apply (binop_round_trip n s a x y _ _ Ha Hpow); reflexivity.
Qed.

Lemma built_node_evaluates_by_its_operator_witness :
  exists sym s1 s2,
    Expression_binop op_floordiv 0%nat (VInt 2) two_wrapped = Ok (VRef 3%nat) s1
    /\ heap s1 !! 3%nat
       = Some (Obj BinaryExpression (binary_dict (VRef 0%nat) (VInt 2) sym))
    /\ evaluate 2 3%nat s1 = int_dunder op_floordiv 5 2 s2
    /\ heap s2 !! 3%nat
       = Some (Obj BinaryExpression (binary_dict (VInt 5) (VInt 2) sym)).
Proof.
  apply (built_node_evaluates_by_its_operator 0 two_wrapped 0%nat 5 2 op_floordiv).
  - reflexivity.
  - discriminate.
Defined.

Lemma unop_round_trip n s a x u sym :
  heap s !! a = Some (Obj ObjectExpression (("_obj", VInt x) :: nil)) ->
  assoc (unop_attr u) UNA_OPS_ATTR_2_SYNTAX = Some sym ->
  assoc sym UNA_OPS_SYNTAX_2_ATTR = Some (unop_attr u) ->
  exists s1 s2,
    Expression_unop u a s = Ok (VRef (length (heap s))) s1
    /\ heap s1 !! length (heap s)
       = Some (Obj UnaryExpression (unary_dict sym (VRef a)))
    /\ evaluate (S (S n)) (length (heap s)) s1 = Ok (VInt (int_unary u x)) s2
    /\ heap s2 !! length (heap s)
       = Some (Obj UnaryExpression (unary_dict sym (VInt x))).
Proof.
  intros Ha Hsym Hattr.
  set (L := length (heap s)).
  set (s1 := State (heap s ++ Obj UnaryExpression (unary_dict sym (VRef a)) :: nil)
                   (var_counter s)).
  assert (HL : heap s1 !! (L : addr)
               = Some (Obj UnaryExpression (unary_dict sym (VRef a)))).
  { unfold s1, L. cbn [heap]. rewrite lookup_app_r by lia.
    rewrite Nat.sub_diag. reflexivity. }
  assert (Ha1 : heap s1 !! a = Some (Obj ObjectExpression (("_obj", VInt x) :: nil))).
  { unfold s1. cbn [heap]. apply lookup_app_l_Some. exact Ha. }
  set (s2 := State (<[(L : addr) := Obj UnaryExpression (unary_dict sym (VInt x))]>
                      (heap s1)) (var_counter s1)).
  assert (HL2 : heap s2 !! (L : addr)
                = Some (Obj UnaryExpression (unary_dict sym (VInt x)))).
  { unfold s2. cbn [heap]. apply list_lookup_insert_eq.
    apply lookup_lt_Some in HL. exact HL. }
  exists s1, s2. split; [|split; [exact HL|split; [|exact HL2]]].
  - unfold Expression_unop, table_get. rewrite Hsym.
    rewrite (bind_Ok (ret sym) _ s sym s eq_refl). reflexivity.
  - pose proof (ObjectExpression_evaluate_atom n s1 a (VInt x) Ha1 eq_refl) as Hev.
    remember (S n) as m eqn:Hm. clear Hm. cbn [evaluate].
    rewrite (bind_Ok _ _ _ _ _ (get_obj_Ok _ _ _ HL)). cbn [ocls].
    rewrite (bind_Ok _ _ s1 tt s2).
    + rewrite (bind_Ok _ _ _ _ _ (getattr_field _ _ _ "x" _ HL2 eq_refl eq_refl)).
      rewrite (bind_Ok _ _ _ _ _
                 (getattr_field _ _ _ "operator" _ HL2 eq_refl eq_refl)).
      cbn [as_str]. rewrite (bind_Ok (ret sym) _ s2 sym s2 eq_refl).
      unfold table_get. rewrite Hattr.
      rewrite (bind_Ok (ret (unop_attr u)) _ s2 _ s2 eq_refl).
      destruct u; reflexivity.
    + unfold evaluate_children.
      rewrite (bind_Ok _ _ _ _ _ (get_obj_Ok _ _ _ HL)). cbn [odict].
      rewrite (bind_Ok _ _ s1 (VStr sym :: VInt x :: nil) s1).
      * apply (set_dict_Ok s1 L _ _ HL).
      * change (flatten (VDict (unary_dict sym (VRef a))))
          with (VStr sym :: VRef a :: nil).
        apply (mapM_cons_Ok _ _ _ s1 (VStr sym) s1); [reflexivity|].
        apply (mapM_cons_Ok _ _ _ s1 (VInt x) s1); [exact Hev|].
        reflexivity.
Qed.

(** X20: for a node [a] that wraps an integer [x], each of [-a], [+a] and
    [~a] builds a UnaryExpression with the symbol of the operator, and
    evaluating it gives [-x], [x] and [-x - 1]; the node then holds [x] in
    place of [a]. *)
Theorem unary_node_evaluates_by_its_operator n s a x u :
  heap s !! a = Some (Obj ObjectExpression (("_obj", VInt x) :: nil)) ->
  exists sym s1 s2,
    Expression_unop u a s = Ok (VRef (length (heap s))) s1
    /\ heap s1 !! length (heap s)
       = Some (Obj UnaryExpression (unary_dict sym (VRef a)))
    /\ evaluate (S (S n)) (length (heap s)) s1 = Ok (VInt (int_unary u x)) s2
    /\ heap s2 !! length (heap s)
       = Some (Obj UnaryExpression (unary_dict sym (VInt x))).
Proof.
  intros Ha.
  destruct u; eexists; apply (unop_round_trip n s a x _ _ Ha); reflexivity.
Qed.

Lemma unary_node_evaluates_by_its_operator_witness :
  exists sym s1 s2,
    Expression_unop op_invert 0%nat two_wrapped = Ok (VRef 3%nat) s1
    /\ heap s1 !! 3%nat = Some (Obj UnaryExpression (unary_dict sym (VRef 0%nat)))
    /\ evaluate 2 3%nat s1 = Ok (VInt (int_unary op_invert 5)) s2
    /\ heap s2 !! 3%nat = Some (Obj UnaryExpression (unary_dict sym (VInt 5))).
Proof.
  apply (unary_node_evaluates_by_its_operator 0 two_wrapped 0%nat 5 op_invert).
  reflexivity.
Defined.

Lemma flatten_list_atoms l :
  Forall (fun v => is_atom v = true) l -> flat_map flatten l = l.
Proof.
  intros H. induction H as [|x l Hx Hl IH]; [reflexivity|].
  cbn [flat_map]. rewrite IH. destruct x; try discriminate Hx; reflexivity.
Qed.

Lemma pack_list_atoms l :
  Forall (fun v => is_atom v = true) l -> pack (VList l) l = VList l.
Proof.
  intros H. cbn [pack]. f_equal.
  induction H as [|x l Hx Hl IH]; [reflexivity|].
  destruct x; try discriminate Hx; cbn; f_equal; exact IH.
Qed.

Lemma mapM_evaluate_atoms rec l s :
  Forall (fun v => is_atom v = true) l ->
  mapM (evaluate_aux rec) l s = Ok l s.
Proof.
  intros Hl. induction Hl as [|v l Hv Hl IH]; [reflexivity|]. cbn [mapM].
  rewrite (bind_Ok _ _ s v s); [|destruct v; try discriminate Hv; reflexivity].
  rewrite (bind_Ok _ _ _ _ _ IH). reflexivity.
Qed.

(** [ObjectExpression(l).evaluate()] for a list [l] of atoms. *)
Lemma ObjectExpression_evaluate_list n s a l :
  heap s !! a = Some (Obj ObjectExpression (("_obj", VList l) :: nil)) ->
  Forall (fun v => is_atom v = true) l ->
  evaluate (S n) a s = Ok (VList l) s.
Proof.
  intros Ha Hl. cbn [evaluate].
  rewrite (bind_Ok _ _ _ _ _ (get_obj_Ok _ _ _ Ha)). cbn [ocls].
  rewrite (bind_Ok _ _ s tt s).
  - apply (getattr_field _ _ _ "_obj" _ Ha eq_refl eq_refl).
  - unfold evaluate_children.
    rewrite (bind_Ok _ _ _ _ _ (get_obj_Ok _ _ _ Ha)). cbn [odict].
    assert (Hf : flatten (VDict (("_obj", VList l) :: nil)) = l).
    { cbn. rewrite app_nil_r. apply flatten_list_atoms. exact Hl. }
    rewrite Hf.
    rewrite (bind_Ok _ _ _ _ _ (mapM_evaluate_atoms _ l s Hl)).
    assert (Hp : pack (VDict (("_obj", VList l) :: nil)) l
                 = VDict (("_obj", VList l) :: nil)).
    { pose proof (pack_list_atoms l Hl) as P. cbn [pack] in P.
      cbn. rewrite (flatten_list_atoms l Hl). rewrite firstn_all.
      injection P as P. rewrite P. reflexivity. }
    rewrite Hp. apply (set_dict_same s a _ Ha).
Qed.

(** X21: for a node [a] that wraps a list [l] of atoms, [a[i]] with an
    integer [i] builds an ExpressionItemAccess node, and evaluating it
    indexes [l] as Python does: a negative [i] counts from the end and an
    [i] out of range raises IndexError; the node then holds [l] in place
    of [a]. *)
Theorem item_access_evaluates_by_indexing n s a l i :
  heap s !! a = Some (Obj ObjectExpression (("_obj", VList l) :: nil)) ->
  Forall (fun v => is_atom v = true) l ->
  exists s1 s2,
    Expression_getitem a (VInt i) s = Ok (VRef (length (heap s))) s1
    /\ heap s1 !! length (heap s)
       = Some (Obj ExpressionItemAccess (item_dict (VRef a) (VInt i)))
    /\ evaluate (S (S n)) (length (heap s)) s1 = list_getitem l (VInt i) s2
    /\ heap s2 !! length (heap s)
       = Some (Obj ExpressionItemAccess (item_dict (VList l) (VInt i))).
Proof.
  intros Ha Hl.
  set (L := length (heap s)).
  set (s1 := State (heap s ++ Obj ExpressionItemAccess
                                (item_dict (VRef a) (VInt i)) :: nil)
                   (var_counter s)).
  assert (HL : heap s1 !! (L : addr)
               = Some (Obj ExpressionItemAccess (item_dict (VRef a) (VInt i)))).
  { unfold s1, L. cbn [heap]. rewrite lookup_app_r by lia.
    rewrite Nat.sub_diag. reflexivity. }
  assert (Ha1 : heap s1 !! a = Some (Obj ObjectExpression (("_obj", VList l) :: nil))).
  { unfold s1. cbn [heap]. apply lookup_app_l_Some. exact Ha. }
  set (s2 := State (<[(L : addr) := Obj ExpressionItemAccess
                                      (item_dict (VList l) (VInt i))]>
                      (heap s1)) (var_counter s1)).
  assert (HL2 : heap s2 !! (L : addr)
                = Some (Obj ExpressionItemAccess (item_dict (VList l) (VInt i)))).
  { unfold s2. cbn [heap]. apply list_lookup_insert_eq.
    apply lookup_lt_Some in HL. exact HL. }
  exists s1, s2. split; [reflexivity|split; [exact HL|split; [|exact HL2]]].
  pose proof (ObjectExpression_evaluate_list n s1 a l Ha1 Hl) as Hev.
  remember (S n) as m eqn:Hm. clear Hm. cbn [evaluate].
  rewrite (bind_Ok _ _ _ _ _ (get_obj_Ok _ _ _ HL)). cbn [ocls].
  rewrite (bind_Ok _ _ s1 tt s2).
  - rewrite (bind_Ok _ _ _ _ _
               (getattr_field _ _ _ "expression" _ HL2 eq_refl eq_refl)).
    rewrite (bind_Ok _ _ _ _ _ (getattr_field _ _ _ "item" _ HL2 eq_refl eq_refl)).
    reflexivity.
  - unfold evaluate_children.
    rewrite (bind_Ok _ _ _ _ _ (get_obj_Ok _ _ _ HL)). cbn [odict].
    rewrite (bind_Ok _ _ s1 (VList l :: VInt i :: nil) s1).
    + apply (set_dict_Ok s1 L _ _ HL).
    + change (flatten (VDict (item_dict (VRef a) (VInt i))))
        with (VRef a :: VInt i :: nil).
      apply (mapM_cons_Ok _ _ _ s1 (VList l) s1); [exact Hev|].
      reflexivity.
Qed.

Lemma item_access_evaluates_by_indexing_witness :
  exists s1 s2,
    Expression_getitem 0%nat (VInt (-1)) wrapped_letters = Ok (VRef 1%nat) s1
    /\ heap s1 !! 1%nat
       = Some (Obj ExpressionItemAccess (item_dict (VRef 0%nat) (VInt (-1))))
    /\ evaluate 2 1%nat s1
       = list_getitem (VStr "a" :: VStr "b" :: VStr "c" :: nil) (VInt (-1)) s2
    /\ heap s2 !! 1%nat
       = Some (Obj ExpressionItemAccess
                 (item_dict (VList (VStr "a" :: VStr "b" :: VStr "c" :: nil))
                            (VInt (-1)))).
Proof.
  apply (item_access_evaluates_by_indexing 0 wrapped_letters 0%nat
           (VStr "a" :: VStr "b" :: VStr "c" :: nil) (-1)).
  - reflexivity.
  - repeat constructor.
Defined.

(** ** Attributes that do not exist *)

(** X22: reading from a node an attribute that is neither one of its
    fields nor a name of its class raises nothing: the result is a new
    ExpressionAttributeAccess node for that name, added to the heap, and no
    object changes.  Names that begin with two underscores are left aside:
    which of them [object] defines depends on the version of Python. *)
Theorem unknown_attribute_becomes_node s a o name :
  heap s !! a = Some o -> assoc name (odict o) = None ->
  String.prefix "__" name = false ->
  mem_string name ("id" :: "value" :: "var_id" :: "__hash__"
                   :: class_members (ocls o)) = false ->
  getattr a name s
  = Ok (VRef (length (heap s)))
       (State (heap s ++ Obj ExpressionAttributeAccess
                           (attribute_dict (VRef a) name) :: nil)
              (var_counter s)).
Proof.
  intros Ha Hf _ Hm. unfold mem_string in Hm. cbn [existsb] in Hm.
  apply orb_false_elim in Hm. destruct Hm as [Hid Hm].
  apply orb_false_elim in Hm. destruct Hm as [Hvalue Hm].
  apply orb_false_elim in Hm. destruct Hm as [Hvar_id Hm].
  apply orb_false_elim in Hm. destruct Hm as [Hhash Hm].
  unfold getattr. rewrite (bind_Ok _ _ _ _ _ (get_obj_Ok _ _ _ Ha)).
  rewrite Hid, andb_false_r. unfold getattr_plain.
  rewrite (bind_Ok _ _ _ _ _ (get_obj_Ok _ _ _ Ha)).
  rewrite Hf, Hvalue, Hvar_id, Hhash, !andb_false_r.
  unfold mem_string. rewrite Hm. reflexivity.
Qed.

Lemma unknown_attribute_becomes_node_witness :
  getattr 0%nat "_upper" Int_0_10
  = Ok (VRef (length (heap Int_0_10)))
       (State (heap Int_0_10 ++ Obj ExpressionAttributeAccess
                                  (attribute_dict (VRef 0%nat) "_upper") :: nil)
              (var_counter Int_0_10)).
Proof.
  apply (unknown_attribute_becomes_node Int_0_10 0%nat
           (Obj Int (("_name", VNone) :: ("var_id", VInt 0) :: ("_low", VInt 0)
                     :: ("_high", VInt 10)
                     :: ("_dist", VExt scipy_stats_randint) :: nil)) "_upper");
    reflexivity.
Defined.

(** ** [evaluate] rewrites the node *)

Lemma foldM_choice_atoms rec l : forall memo s,
  Forall (fun v => isinstance_Expression v = false) l ->
  foldM (choice_aux rec) memo l s = Ok memo s.
Proof.
  induction l as [|v l IH]; intros memo s Hl; [reflexivity|].
  inversion Hl as [|? ? Hv Hl']; subst. cbn [foldM].
  rewrite (bind_Ok _ _ s memo s); [apply IH; exact Hl'|].
  destruct v; try discriminate Hv; reflexivity.
Qed.

Lemma atom_not_node v : is_atom v = true -> isinstance_Expression v = false.
Proof. destruct v; try discriminate; reflexivity. Qed.

Lemma atom_not_nested v : is_atom v = true -> is_nested v = false.
Proof. destruct v; try discriminate; reflexivity. Qed.

Lemma evaluate_over_variables n s self x y sym attr o ox oy :
  heap s !! self = Some (Obj BinaryExpression (binary_dict (VRef x) (VRef y) sym)) ->
  heap s !! x = Some ox -> heap s !! y = Some oy ->
  is_var_cls (ocls ox) = true -> is_var_cls (ocls oy) = true ->
  is_atom (value_of ox) = true -> is_atom (value_of oy) = true ->
  assoc sym BIN_OPS_SYNTAX_2_ATTR = Some attr -> binop_of_attr attr = Some o ->
  let s' := State (<[self := Obj BinaryExpression
                               (binary_dict (value_of ox) (value_of oy) sym)]> (heap s))
                  (var_counter s) in
  evaluate (S (S n)) self s = builtin_dunder o (value_of ox) (value_of oy) s'
  /\ heap s' !! self
     = Some (Obj BinaryExpression (binary_dict (value_of ox) (value_of oy) sym))
  /\ (forall b, b <> self -> heap s' !! b = heap s !! b).
Proof.
  intros Hself Hx Hy Hvx Hvy Hax Hay Hattr Ho.
  pose proof (evaluate_frozen_leaf n s x ox Hx Hvx
                (atom_not_node _ Hax) (atom_not_nested _ Hax)) as Ex.
  pose proof (evaluate_frozen_leaf n s y oy Hy Hvy
                (atom_not_node _ Hay) (atom_not_nested _ Hay)) as Ey.
  set (d' := binary_dict (value_of ox) (value_of oy) sym).
  intros s'.
  assert (Hnew : heap s' !! self = Some (Obj BinaryExpression d')).
  { unfold s'. cbn [heap]. apply list_lookup_insert_eq.
    apply lookup_lt_Some in Hself. exact Hself. }
  split; [|split; [exact Hnew|]].
  - rewrite (BinaryExpression_evaluate (S n) s self (VRef x) (VRef y) sym attr o
               (value_of ox) s (value_of oy) s Hself eq_refl eq_refl Ex Ey Hattr Ho).
    rewrite (bind_Ok _ _ _ _ _ (set_dict_Ok s self _ d' Hself)). cbn [ocls].
    fold d'. fold s'. unfold call_binary.
    destruct (value_of ox); try discriminate Hax; reflexivity.
  - intros b Hb. unfold s'. cbn [heap]. apply list_lookup_insert_ne. congruence.
Qed.

(** X23: [evaluate] of a BinaryExpression over two variables whose values
    are atoms answers with the method of the left value, and overwrites
    the operands of the node by the two values, touching no other object:
    afterwards [choices()] of the node is empty, so no later [freeze] can
    change what the node evaluates to. *)
Theorem evaluate_consumes_operands n s self x y sym attr o ox oy :
  heap s !! self = Some (Obj BinaryExpression (binary_dict (VRef x) (VRef y) sym)) ->
  heap s !! x = Some ox -> heap s !! y = Some oy ->
  is_var_cls (ocls ox) = true -> is_var_cls (ocls oy) = true ->
  is_atom (value_of ox) = true -> is_atom (value_of oy) = true ->
  assoc sym BIN_OPS_SYNTAX_2_ATTR = Some attr -> binop_of_attr attr = Some o ->
  exists s',
    evaluate (S (S n)) self s = builtin_dunder o (value_of ox) (value_of oy) s'
    /\ heap s' !! self
       = Some (Obj BinaryExpression (binary_dict (value_of ox) (value_of oy) sym))
    /\ (forall b, b <> self -> heap s' !! b = heap s !! b)
    /\ forall m, choices (S m) self s' = Ok ∅ s'.
Proof.
  intros Hself Hx Hy Hvx Hvy Hax Hay Hattr Ho.
  destruct (evaluate_over_variables n s self x y sym attr o ox oy
              Hself Hx Hy Hvx Hvy Hax Hay Hattr Ho) as (He & Hnew & Hrest).
  eexists. split; [exact He|]. split; [exact Hnew|]. split; [exact Hrest|].
  intros m. cbn [choices].
  rewrite (bind_Ok _ _ _ _ _ (get_obj_Ok _ _ _ Hnew)). cbn [ocls odict].
  apply foldM_choice_atoms.
  rewrite (flatten_binary_dict _ _ sym (atom_not_nested _ Hax) (atom_not_nested _ Hay)).
  repeat constructor; apply atom_not_node; assumption.
Qed.

Lemma evaluate_consumes_operands_witness :
  exists s',
    evaluate 2 2%nat frozen_sum = builtin_dunder op_add (VInt 2) (VInt 3) s'
    /\ heap s' !! 2%nat
       = Some (Obj BinaryExpression (binary_dict (VInt 2) (VInt 3) "+"))
    /\ (forall b, b <> 2%nat -> heap s' !! b = heap frozen_sum !! b)
    /\ forall m, choices (S m) 2%nat s' = Ok ∅ s'.
Proof.
  apply (evaluate_consumes_operands 0 frozen_sum 2%nat 0%nat 1%nat "+" "__add__" op_add
           (Obj Int (("_name", VStr "x") :: ("var_id", VInt 0) :: ("_low", VInt 0)
                     :: ("_high", VInt 5) :: ("_dist", VExt scipy_stats_randint)
                     :: ("value", VInt 2) :: nil))
           (Obj Int (("_name", VStr "y") :: ("var_id", VInt 1) :: ("_low", VInt 0)
                     :: ("_high", VInt 5) :: ("_dist", VExt scipy_stats_randint)
                     :: ("value", VInt 3) :: nil)));
    reflexivity.
Defined.

(** ** Freezing and then evaluating *)

(** X24: for [x op y] over two different Int variables with integer
    bounds, [freeze] with a choice in range for each followed by
    [evaluate] gives what [op] gives on the two chosen integers, its
    exceptions included. *)
Theorem frozen_graph_evaluates n s self x y sym attr o dx dy ix iy
    lox hix loy hiy vx vy (choice : gmap string value) :
  heap s !! self = Some (Obj BinaryExpression (binary_dict (VRef x) (VRef y) sym)) ->
  x <> y ->
  heap s !! x = Some (Obj Int dx) -> heap s !! y = Some (Obj Int dy) ->
  assoc "_low" dx = Some (VInt lox) -> assoc "_high" dx = Some (VInt hix) ->
  assoc "_low" dy = Some (VInt loy) -> assoc "_high" dy = Some (VInt hiy) ->
  identity_of (Obj Int dx) = Some ix -> identity_of (Obj Int dy) = Some iy ->
  choice !! ix = Some (VInt vx) -> choice !! iy = Some (VInt vy) ->
  lox <= vx <= hix -> loy <= vy <= hiy ->
  assoc sym BIN_OPS_SYNTAX_2_ATTR = Some attr -> binop_of_attr attr = Some o ->
  exists s1 s2,
    freeze (S (S n)) self choice s = Ok tt s1
    /\ evaluate (S (S n)) self s1 = int_dunder o vx vy s2.
Proof.
  intros Hself Hxy Hx Hy Hlox Hhix Hloy Hhiy Hix Hiy Hvx Hvy Inx Iny Hattr Ho.
  assert (Ox : outside (inject_Z lox) (inject_Z hix) (inject_Z vx) = false).
  { apply (proj2 (outside_spec _ _ _)). rewrite <- !Zle_Qle. exact Inx. }
  assert (Oy : outside (inject_Z loy) (inject_Z hiy) (inject_Z vy) = false).
  { apply (proj2 (outside_spec _ _ _)). rewrite <- !Zle_Qle. exact Iny. }
  destruct (setattr_Ok s x Int dx "value" (VInt vx) Hx) as (Hsetx & Hnewx & Hrestx).
  set (s1 := State (<[x := Obj Int (assoc_set "value" (VInt vx) dx)]> (heap s))
                   (var_counter s)) in *.
  assert (Hy1 : heap s1 !! y = Some (Obj Int dy)).
  { rewrite (Hrestx y); [exact Hy|congruence]. }
  destruct (setattr_Ok s1 y Int dy "value" (VInt vy) Hy1) as (Hsety & Hnewy & Hresty).
  set (s2 := State (<[y := Obj Int (assoc_set "value" (VInt vy) dy)]> (heap s1))
                   (var_counter s1)) in *.
  assert (Hx2 : heap s2 !! x = Some (Obj Int (assoc_set "value" (VInt vx) dx))).
  { rewrite (Hresty x); [exact Hnewx|exact Hxy]. }
  assert (Hself2 : heap s2 !! self
                   = Some (Obj BinaryExpression (binary_dict (VRef x) (VRef y) sym))).
  { rewrite (Hresty self), (Hrestx self); [exact Hself| |]; intros ->; congruence. }
  exists s2. eexists. split.
  - change (freeze (S (S n)) self choice s)
      with ((let* o := get_obj self in
             match ocls o with
             | Int => Int_freeze self choice
             | Float => Float_freeze self choice
             | List => List_freeze (S n) (fun x => freeze (S n) x choice) self choice
             | ExpressionCallExpression =>
                 let* e := getattr self "expression" in
                 match e with
                 | VRef x => freeze (S n) x choice
                 | _ => stop External
                 end ;;
                 let* args := getattr self "args" in
                 iterM (freeze_aux (fun x => freeze (S n) x choice)) (flatten args) ;;
                 let* kwargs := getattr self "kwargs" in
                 iterM (freeze_aux (fun x => freeze (S n) x choice)) (flatten kwargs)
             | _ =>
                 iterM (freeze_aux (fun x => freeze (S n) x choice))
                       (flatten (VDict (odict o)))
             end) s).
    rewrite (bind_Ok _ _ _ _ _ (get_obj_Ok _ _ _ Hself)). cbn [ocls odict].
    rewrite (flatten_binary_dict (VRef x) (VRef y) sym eq_refl eq_refl).
    cbn [iterM freeze_aux].
    rewrite (bind_Ok _ _ s tt s1).
    2:{ rewrite (freeze_bounded n s x _ choice Hx (or_introl eq_refl)).
        rewrite (numeric_freeze_inside s x Int dx ix (VInt lox) (VInt hix) choice
                   (VInt vx) Hx Hlox Hhix Hix Hvx _ _ _ eq_refl eq_refl eq_refl Ox).
        exact Hsetx. }
    rewrite (bind_Ok (ret tt) _ s1 tt s1 eq_refl).
    rewrite (bind_Ok _ _ s1 tt s2); [reflexivity|].
    rewrite (freeze_bounded n s1 y _ choice Hy1 (or_introl eq_refl)).
    rewrite (numeric_freeze_inside s1 y Int dy iy (VInt loy) (VInt hiy) choice
               (VInt vy) Hy1 Hloy Hhiy Hiy Hvy _ _ _ eq_refl eq_refl eq_refl Oy).
    exact Hsety.
  - destruct (evaluate_over_variables n s2 self x y sym attr o _ _
                Hself2 Hx2 Hnewy eq_refl eq_refl) as (He & _).
    + rewrite value_of_set. reflexivity.
    + rewrite value_of_set. reflexivity.
    + exact Hattr.
    + exact Ho.
    + rewrite !value_of_set in He. rewrite He. destruct o; reflexivity.
Qed.

Lemma frozen_graph_evaluates_witness :
  exists s1 s2,
    freeze 2 2%nat (<["x" := VInt 2]> {[ "y" := VInt 3 ]}) sum_of_two = Ok tt s1
    /\ evaluate 2 2%nat s1 = int_dunder op_add 2 3 s2.
Proof.
  apply (frozen_graph_evaluates 0 sum_of_two 2%nat 0%nat 1%nat "+" "__add__" op_add
           (("_name", VStr "x") :: ("var_id", VInt 0) :: ("_low", VInt 0)
            :: ("_high", VInt 5) :: ("_dist", VExt scipy_stats_randint) :: nil)
           (("_name", VStr "y") :: ("var_id", VInt 1) :: ("_low", VInt 0)
            :: ("_high", VInt 5) :: ("_dist", VExt scipy_stats_randint) :: nil)
           "x" "y" 0 5 0 5 2 3 (<["x" := VInt 2]> {[ "y" := VInt 3 ]}));
    try reflexivity; try discriminate; lia.
Defined.
